(** * Equipment-hire console application: model and verification

    A shallow embedding of the equipment-hire console programme
    ([hailmary.py], with the report routines of the drafts [wip.py] and
    [wiptask3.py]) together with the properties of its pricing engine,
    catalogue, hire ledger and earnings report.

    Conventions of the embedding:
    - a Python [int] is a [Z]; [//] and [%] are [Z.div] and [Z.modulo]
      (both round towards minus infinity for a positive divisor);
    - a Python [str] is the list of its Unicode code points ([pystr]);
    - a [dict] with a fixed set of keys is a record;
    - the console is explicit: [input] pops the next line of [stdin],
      [print] appends to [stdout]; a function that talks to the console is
      a computation in the monad [M];
    - an [int] has a text only up to 4300 digits: printing an amount
      beyond that raises [ValueError], as CPython does;
    - Python built-ins whose Unicode behaviour is not reproduced here
      ([str.upper], [str.lower], [str.strip], [int], [str.isdigit]) are
      taken as a parameter of type [builtins]; [ascii_builtins] is an
      instance on the ASCII range, used to run the programme on examples. *)

From Stdlib Require Import ZArith String Ascii DecimalString Bool List Lia.
From Stdlib Require DecimalPos DecimalZ.
Import ListNotations.
Open Scope Z_scope.

(* ================================================================== *)
(** * Python strings *)
(* ================================================================== *)

Definition char := N.
Definition pystr := list char.

(** [u s] reads a source literal: the UTF-8 bytes of [s] are decoded
    to code points. *)
Fixpoint utf8_decode (bs : list N) : pystr :=
  match bs with
  | [] => []
  | b :: rest =>
    if (b <? 192)%N then b :: utf8_decode rest
    else if (b <? 224)%N then
      match rest with
      | b1 :: rest' => ((b - 192) * 64 + (b1 - 128))%N :: utf8_decode rest'
      | _ => b :: utf8_decode rest
      end
    else if (b <? 240)%N then
      match rest with
      | b1 :: b2 :: rest' =>
        ((b - 224) * 4096 + (b1 - 128) * 64 + (b2 - 128))%N :: utf8_decode rest'
      | _ => b :: utf8_decode rest
      end
    else
      match rest with
      | b1 :: b2 :: b3 :: rest' =>
        ((b - 240) * 262144 + (b1 - 128) * 4096 + (b2 - 128) * 64 + (b3 - 128))%N
          :: utf8_decode rest'
      | _ => b :: utf8_decode rest
      end
  end.

Definition u (s : string) : pystr :=
  utf8_decode (map N_of_ascii (list_ascii_of_string s)).

Definition NL : char := 10%N.
Definition SPACE : char := 32%N.
Definition COMMA : char := 44%N.

(** [a == b] on strings. *)
Fixpoint pystr_eqb (a b : pystr) : bool :=
  match a, b with
  | [], [] => true
  | x :: a', y :: b' => (x =? y)%N && pystr_eqb a' b'
  | _, _ => false
  end.

(** [s in (a, b, ...)]. *)
Definition str_in (s : pystr) (candidates : list pystr) : bool :=
  existsb (pystr_eqb s) candidates.

(** [len(s)]. *)
Definition len {A : Type} (l : list A) : Z := Z.of_nat (length l).

(** [sep.join(parts)]. *)
Fixpoint join (sep : pystr) (parts : list pystr) : pystr :=
  match parts with
  | [] => []
  | [p] => p
  | p :: rest => p ++ sep ++ join sep rest
  end.

(** [s.split(",")]: the fields between the commas, at least one. *)
Fixpoint split_comma_aux (field : pystr) (s : pystr) : list pystr :=
  match s with
  | [] => [rev field]
  | c :: rest =>
    if (c =? COMMA)%N then rev field :: split_comma_aux [] rest
    else split_comma_aux (c :: field) rest
  end.

Definition split_comma (s : pystr) : list pystr := split_comma_aux [] s.

(** [str(n)] for an [int]. *)
Definition str_of_Z (n : Z) : pystr := u (NilZero.string_of_int (Z.to_int n)).

(** CPython turns an [int] into text ([str], an f-string field, a format
    spec) only when it has at most [sys.get_int_max_str_digits()] digits,
    4300 unless configured otherwise, and raises [ValueError] when it has
    more.  [str_of_Z n] is the text of [n] where it exists; [has_text n]
    tells whether it does. *)
Definition MAX_STR_DIGITS : Z := 4300.

Definition int_digits (n : Z) : Z := len (str_of_Z (Z.abs n)).

Definition has_text (n : Z) : bool := int_digits n <=? MAX_STR_DIGITS.

(** [str(b)] for a [bool], as an f-string field prints it. *)
Definition str_of_bool (b : bool) : pystr := if b then u "True" else u "False".

(** [c * n] for a one-character string [c]. *)
Definition replicate (n : nat) (c : char) : pystr := repeat c n.

(** The format specs [:<w] and [:>w]: pad with spaces up to width [w],
    never truncate. *)
Definition ljust (w : nat) (s : pystr) : pystr :=
  s ++ replicate (w - length s) SPACE.

Definition rjust (w : nat) (s : pystr) : pystr :=
  replicate (w - length s) SPACE ++ s.

(** The format spec [:02d] on an [int]: sign, then the digits padded with
    zeros so that the whole field has at least two characters. *)
Definition fmt_02d (n : Z) : pystr :=
  let digits := str_of_Z (Z.abs n) in
  if n <? 0 then u "-" ++ replicate (1 - length digits) 48%N ++ digits
  else replicate (2 - length digits) 48%N ++ digits.

(** The format spec [:,] on an [int]: the digits in groups of three from
    the right, separated by commas, after the sign. *)
Fixpoint group3 (rev_digits : pystr) : pystr :=
  match rev_digits with
  | a :: b :: c :: ((_ :: _) as rest) => a :: b :: c :: COMMA :: group3 rest
  | short => short
  end.

Definition fmt_comma (n : Z) : pystr :=
  let digits := rev (group3 (rev (str_of_Z (Z.abs n)))) in
  if n <? 0 then u "-" ++ digits else digits.

(** [sum(f(x) for x in xs)]. *)
Definition sum_of {A : Type} (f : A -> Z) (xs : list A) : Z :=
  fold_left (fun acc x => acc + f x) xs 0.

(** [needle in line] for strings. *)
Fixpoint starts_with (needle s : pystr) : bool :=
  match needle, s with
  | [], _ => true
  | x :: needle', y :: s' => (x =? y)%N && starts_with needle' s'
  | _ :: _, [] => false
  end.

Fixpoint contains (needle s : pystr) : bool :=
  starts_with needle s ||
  match s with
  | [] => false
  | _ :: s' => contains needle s'
  end.

(** The built-ins taken as parameters.  [py_int s = None] stands for
    [int(s)] raising [ValueError]. *)
Record builtins := {
  str_upper : pystr -> pystr;
  str_lower : pystr -> pystr;
  str_strip : pystr -> pystr;
  py_int : pystr -> option Z;
  ch_isdigit : char -> bool
}.

(** ** The built-ins on the ASCII range

    These follow Python on strings of ASCII letters, digits, blanks and
    punctuation, which is all the examples type; [ascii_int] reads digits
    with an optional sign and leaves out the underscores and the non-ASCII
    digits that [int] also accepts. *)

Definition ascii_upper_char (c : char) : char :=
  if ((97 <=? c) && (c <=? 122))%N then (c - 32)%N else c.

Definition ascii_lower_char (c : char) : char :=
  if ((65 <=? c) && (c <=? 90))%N then (c + 32)%N else c.

Definition ascii_isspace (c : char) : bool :=
  ((9 <=? c) && (c <=? 13) || (28 <=? c) && (c <=? 32))%N.

Fixpoint lstrip (s : pystr) : pystr :=
  match s with
  | c :: rest => if ascii_isspace c then lstrip rest else s
  | [] => []
  end.

Definition ascii_strip (s : pystr) : pystr := rev (lstrip (rev (lstrip s))).

Definition ascii_isdigit (c : char) : bool := ((48 <=? c) && (c <=? 57))%N.

Fixpoint digits_value (acc : Z) (s : pystr) : option Z :=
  match s with
  | [] => Some acc
  | c :: rest =>
    if ascii_isdigit c then digits_value (10 * acc + (Z.of_N c - 48)) rest
    else None
  end.

Definition ascii_int (s : pystr) : option Z :=
  match ascii_strip s with
  | [] => None
  | c :: rest =>
    if (c =? 45)%N then
      match rest with [] => None | _ => option_map Z.opp (digits_value 0 rest) end
    else if (c =? 43)%N then
      match rest with [] => None | _ => digits_value 0 rest end
    else digits_value 0 (c :: rest)
  end.

Definition ascii_builtins : builtins := {|
  str_upper := map ascii_upper_char;
  str_lower := map ascii_lower_char;
  str_strip := ascii_strip;
  py_int := ascii_int;
  ch_isdigit := ascii_isdigit
|}.

(* ================================================================== *)
(** * The catalogue *)
(* ================================================================== *)

Module Item.
Record t := { code : pystr; name : pystr; daily_p : Z }.
End Item.

Definition CATALOG : list Item.t := [
  {| Item.code := u "DCH"; Item.name := u "Day chairs"; Item.daily_p := 1500 |};
  {| Item.code := u "BCH"; Item.name := u "Bed chairs"; Item.daily_p := 2500 |};
  {| Item.code := u "BAS"; Item.name := u "Bite Alarm (set of 3)"; Item.daily_p := 2000 |};
  {| Item.code := u "BA1"; Item.name := u "Bite Alarm (single)"; Item.daily_p := 500 |};
  {| Item.code := u "BBT"; Item.name := u "Bait Boat"; Item.daily_p := 6000 |};
  {| Item.code := u "TNT"; Item.name := u "Camping tent"; Item.daily_p := 2000 |};
  {| Item.code := u "SLP"; Item.name := u "Sleeping bag"; Item.daily_p := 2000 |};
  {| Item.code := u "R3T"; Item.name := u "Rods (3lb TC)"; Item.daily_p := 1000 |};
  {| Item.code := u "RBR"; Item.name := u "Rods (Bait runners)"; Item.daily_p := 500 |};
  {| Item.code := u "REB"; Item.name := u "Reels (Bait runners)"; Item.daily_p := 1000 |};
  {| Item.code := u "STV"; Item.name := u "Camping Gas stove (Double burner)";
     Item.daily_p := 1000 |}
].

Definition ADDITIONAL_NIGHT_MULTIPLIER_NUM : Z := 1.
Definition ADDITIONAL_NIGHT_MULTIPLIER_DEN : Z := 2.

(** [find_item]: the first catalogue entry whose code equals the
    upper-cased argument, [None] when the loop falls through. *)
Definition find_item (py : builtins) (code : pystr) : option Item.t :=
  let code := str_upper py code in
  find (fun it => pystr_eqb (Item.code it) code) CATALOG.

Definition catalog_codes : pystr := join (u ", ") (map Item.code CATALOG).

(* ================================================================== *)
(** * The pricing engine *)
(* ================================================================== *)

(** [calc_line_costs] of [hailmary.py]: (first night, additional nights,
    late-return charge), in pence. *)
Definition calc_line_costs (daily_p qty nights : Z) (returned_on_time : bool)
  : Z * Z * Z :=
  let first_night_p := daily_p * qty in
  let add_per_night :=
    (daily_p * qty * ADDITIONAL_NIGHT_MULTIPLIER_NUM) / ADDITIONAL_NIGHT_MULTIPLIER_DEN in
  let additional_p := add_per_night * Z.max 0 (nights - 1) in
  let extra_delay_p := if returned_on_time then 0 else add_per_night in
  (first_night_p, additional_p, extra_delay_p).

(** [calc_line_costs] of [wip.py]; the draft computes the same triple. *)
Module Wip_pricing.
Definition calc_line_costs (daily_p qty nights : Z) (returned_on_time : bool)
  : Z * Z * Z :=
  let first_night_p := daily_p * qty in
  let add_per_night :=
    (daily_p * qty * ADDITIONAL_NIGHT_MULTIPLIER_NUM) /
    ADDITIONAL_NIGHT_MULTIPLIER_DEN in
  let additional_p := add_per_night * Z.max 0 (nights - 1) in
  let extra_delay_p := if returned_on_time then 0 else add_per_night in
  (first_night_p, additional_p, extra_delay_p).
End Wip_pricing.

(* ================================================================== *)
(** * Records of the hire ledger *)
(* ================================================================== *)

(** The customer header returned by [_parse_customer_header]. *)
Module Header.
Record t := {
  customer_name : pystr;
  phone : pystr;
  house_no : pystr;
  postcode : pystr;
  card_last4 : pystr
}.
End Header.

(** One priced line of a hire, as [read_item_lines] builds it. *)
Module Line.
Record t := {
  code : pystr;
  name : pystr;
  qty : Z;
  daily_p : Z;
  first_night_p : Z;
  additional_nights_p : Z;
  extra_delay_p : Z;
  line_total_p : Z
}.
End Line.

(** One saved hire.  [hailmary.py] keeps the on-time flag as a [bool]
    ([flag := bool]); [wip.py] and [wiptask3.py] store the string ["y"] or
    ["n"] ([flag := pystr]). *)
Module Hire.
Record t (flag : Type) := {
  customer_id : Z;
  customer_name : pystr;
  nights : Z;
  returned_on_time : flag;
  lines : list Line.t;
  extra_delay_p : Z;
  total_p : Z;
  items_summary : pystr
}.
Arguments customer_id {flag} _.
Arguments customer_name {flag} _.
Arguments nights {flag} _.
Arguments returned_on_time {flag} _.
Arguments lines {flag} _.
Arguments extra_delay_p {flag} _.
Arguments total_p {flag} _.
Arguments items_summary {flag} _.
End Hire.

(** [AppState]: the ledger and the running customer id. *)
Record AppState (flag : Type) := {
  hire_records : list (Hire.t flag);
  next_customer_id : Z
}.
Arguments hire_records {flag} _.
Arguments next_customer_id {flag} _.

(** [AppState()]. *)
Definition AppState_init {flag : Type} : AppState flag :=
  {| hire_records := []; next_customer_id := 101 |}.

(* ================================================================== *)
(** * The console monad *)
(* ================================================================== *)

(** What reaches the terminal: the argument of a [print] (a newline
    follows it) or the prompt of an [input] (nothing follows it). *)
Inductive event :=
| Printed (text : pystr)
| Prompted (text : pystr).

Record world (St : Type) := {
  session : St;
  stdin : list pystr;
  stdout : list event
}.
Arguments session {St} _.
Arguments stdin {St} _.
Arguments stdout {St} _.

(** Exceptions that leave a function of the programme uncaught.
    [ValueError_str_digits] is the [ValueError] of an [int] too long to be
    turned into text: "Exceeds the limit (4300 digits) for integer string
    conversion". *)
Inductive exn := EOFError | TypeError | ValueError_str_digits.

(** How a computation ends.  [Timeout] is the loop bound of the model
    running out; the totality lemmas show that it never happens. *)
Inductive result (A : Type) :=
| Ok (a : A)
| Raise (e : exn)
| Timeout.
Arguments Ok {A} a.
Arguments Raise {A} e.
Arguments Timeout {A}.

Definition M (St A : Type) := world St -> result A * world St.

(** What the body of a [while True] loop does at its end: go round
    again, or [return]. *)
Inductive step (L A : Type) :=
| Continue (l : L)
| Return (a : A).
Arguments Continue {L A} l.
Arguments Return {L A} a.

Section Monad.
Context {St : Type}.

Definition ret {A} (a : A) : M St A := fun w => (Ok a, w).

Definition bind {A B} (m : M St A) (k : A -> M St B) : M St B :=
  fun w =>
    match m w with
    | (Ok a, w') => k a w'
    | (Raise e, w') => (Raise e, w')
    | (Timeout, w') => (Timeout, w')
    end.

Definition raise {A} (e : exn) : M St A := fun w => (Raise e, w).

Definition get_state : M St St := fun w => (Ok (session w), w).

Definition modify_state (f : St -> St) : M St unit :=
  fun w => (Ok tt, {| session := f (session w); stdin := stdin w; stdout := stdout w |}).

(** [print(text)]. *)
Definition print (text : pystr) : M St unit :=
  fun w => (Ok tt, {| session := session w; stdin := stdin w;
                      stdout := stdout w ++ [Printed text] |}).

(** [input(prompt)]: writes the prompt, then returns the next line, or
    raises [EOFError] when the input is exhausted. *)
Definition input (prompt : pystr) : M St pystr :=
  fun w =>
    let out := stdout w ++ [Prompted prompt] in
    match stdin w with
    | [] => (Raise EOFError, {| session := session w; stdin := []; stdout := out |})
    | line :: rest => (Ok line, {| session := session w; stdin := rest; stdout := out |})
    end.

(** What formatting the [int] [n] does before its text [str_of_Z n] is
    there: it raises [ValueError] when [n] is too long. *)
Definition digits_check (n : Z) : M St unit :=
  if has_text n then ret tt else raise ValueError_str_digits.

(** [fuel] rounds of a [while True] loop whose local variables are [l]. *)
Fixpoint iter {L A} (fuel : nat) (body : L -> M St (step L A)) (l : L) : M St A :=
  match fuel with
  | O => fun w => (Timeout, w)
  | S fuel' =>
    bind (body l) (fun r =>
      match r with
      | Continue l' => iter fuel' body l'
      | Return a => ret a
      end)
  end.

(** [while True: body].  Every loop of the programme reads a line in each
    round, so one round more than there are lines left is enough. *)
Definition while_true {L A} (body : L -> M St (step L A)) (l : L) : M St A :=
  fun w => iter (S (length (stdin w))) body l w.

(** [for x in xs: body]. *)
Fixpoint for_each {A} (xs : list A) (body : A -> M St unit) : M St unit :=
  match xs with
  | [] => ret tt
  | x :: rest => bind (body x) (fun _ => for_each rest body)
  end.

(** [for x in xs: acc = body(acc, x)], for a loop that updates a local. *)
Fixpoint for_acc {A L} (xs : list A) (acc : L) (body : L -> A -> M St L) : M St L :=
  match xs with
  | [] => ret acc
  | x :: rest => bind (body acc x) (fun acc' => for_acc rest acc' body)
  end.
End Monad.

Notation "x <- c1 ;; c2" := (bind c1 (fun x => c2))
  (at level 61, c1 at next level, right associativity).
Notation "c1 ;; c2" := (bind c1 (fun _ => c2))
  (at level 61, right associativity).

(* ================================================================== *)
(** * The programme of [hailmary.py] *)
(* ================================================================== *)

Definition CUSTOMER_ENTRY_INSTRUCTIONS : pystr :=
  [NL] ++ u "Enter customer (comma separated):" ++ [NL] ++
  u "  name, phone, house_no, postcode, card_last4" ++ [NL] ++
  u "  Example:  Jane Smith, 07900111222, 12, LE1 2AB, 1234".

Definition ITEM_LINES_INSTRUCTIONS : pystr :=
  [NL] ++
  u "Enter item lines (one per line), then press ENTER on a blank line to finish." ++
  [NL] ++ u "Format: CODE, quantity   e.g.,  DCH, 2".

Definition MAIN_MENU_LINES : list pystr := [
  [NL] ++ u "=== Main Menu ===";
  u "1) Enter details of customer and equipment hired";
  u "2) Create report";
  u "3) Exit"
].

Definition PROMPT_SELECT_OPTION : pystr := u "Select an option (1-3): ".

(** [money]: integer pence as a sterling string. *)
Definition money (pence : Z) : pystr :=
  let pounds := pence / 100 in
  let pennies := pence mod 100 in
  u "£" ++ str_of_Z pounds ++ u "." ++ fmt_02d pennies.

(** A call of [money]: formatting the pounds raises [ValueError] when they
    are too long, and gives the text [money pence] otherwise (the pennies,
    between 0 and 99, always have one).

    The amounts are the integers of the programme that can grow past the
    limit: they are products and sums.  A number of nights and a quantity
    come out of [int], which refuses a text of more than 4300 digits
    itself, and a customer id counts the hires typed in the session; their
    texts are taken to exist. *)
Definition money_call {St : Type} (pence : Z) : M St pystr :=
  digits_check (pence / 100) ;;
  ret (money pence).

(** The outcome of a parser that raises [ValueError] on bad input. *)
Inductive parsed (A : Type) :=
| ValueError (msg : pystr)
| Parsed (a : A).
Arguments ValueError {A} msg.
Arguments Parsed {A} a.

Definition is_empty {A : Type} (l : list A) : bool :=
  match l with [] => true | _ => false end.

Section Programme.
Variable py : builtins.

(** ** Pure parsers *)

Definition _parse_customer_header (raw : pystr) : parsed Header.t :=
  let parts := map (str_strip py) (split_comma raw) in
  match parts with
  | [name; phone; house_no; postcode; card_last4] =>
    if is_empty name then ValueError (u "Name cannot be empty.")
    else
      let phone_digits := filter (ch_isdigit py) phone in
      if len phone_digits <? 7 then
        ValueError (u "Phone should contain at least 7 digits.")
      else
        let card_digits := filter (ch_isdigit py) card_last4 in
        if negb (len card_digits =? 4) then
          ValueError (u "Card last 4 digits must be exactly 4 digits.")
        else
          Parsed {|
            Header.customer_name := name;
            Header.phone := phone_digits;
            Header.house_no := str_strip py house_no;
            Header.postcode := str_upper py (str_strip py postcode);
            Header.card_last4 := card_digits
          |}
  | _ => ValueError (u "Expected 5 fields separated by commas.")
  end.

Definition _parse_item_line (raw : pystr) : parsed (pystr * Z) :=
  let parts := map (str_strip py) (split_comma raw) in
  match parts with
  | [code_s; qty_s] =>
    let code := str_upper py code_s in
    match find_item py code with
    | None =>
      ValueError (u "Unknown code '" ++ code ++ u "'. Known: " ++ catalog_codes)
    | Some _ =>
      match py_int py qty_s with
      | None => ValueError (u "Quantity must be a whole number.")
      | Some qty =>
        if qty <? 1 then ValueError (u "Quantity must be ≥ 1.")
        else Parsed (code, qty)
      end
    end
  | _ => ValueError (u "Expected 2 fields: CODE, quantity")
  end.

(** ** Interactive readers *)

Section Readers.
Context {St : Type}.

Definition print_main_menu : M St unit :=
  for_each MAIN_MENU_LINES (fun line => print line).

Definition read_choice : M St (option Z) :=
  s <- input PROMPT_SELECT_OPTION ;;
  let s := str_strip py s in
  match py_int py s with
  | None => ret None
  | Some n =>
    ret (if (n =? 1) || (n =? 2) || (n =? 3) then Some n else None)
  end.

Definition read_yes_no (prompt : pystr) : M St bool :=
  while_true (fun _ : unit =>
    s <- input prompt ;;
    let s := str_lower py (str_strip py s) in
    if str_in s [u "y"; u "yes"] then ret (Return true)
    else if str_in s [u "n"; u "no"] then ret (Return false)
    else
      print (u "Please enter 'y' or 'n'.") ;;
      ret (Continue tt)) tt.

Definition read_positive_int (prompt : pystr) (min_value : Z) : M St Z :=
  while_true (fun _ : unit =>
    s <- input prompt ;;
    let s := str_strip py s in
    match py_int py s with
    | None =>
      print (u "Please enter a whole number.") ;;
      ret (Continue tt)
    | Some n =>
      if n <? min_value then
        print (u "Please enter a number ≥ " ++ str_of_Z min_value ++ u ".") ;;
        ret (Continue tt)
      else ret (Return n)
    end) tt.

Definition read_customer_header : M St (option Header.t) :=
  print CUSTOMER_ENTRY_INSTRUCTIONS ;;
  print (u "Type 'cancel' to return to the menu without saving.") ;;
  while_true (fun _ : unit =>
    raw <- input (u "> ") ;;
    let raw := str_strip py raw in
    if str_in (str_lower py raw) [[]; u "cancel"] then
      print (u "Cancelled.") ;;
      ret (Return None)
    else
      match _parse_customer_header raw with
      | Parsed header => ret (Return (Some header))
      | ValueError err =>
        print err ;;
        ret (Continue tt)
      end) tt.

(** The line that [read_item_lines] appends for a parsed [code, qty]. *)
Definition priced_line (item : Item.t) (code : pystr) (qty nights : Z)
           (returned_on_time : bool) : Line.t :=
  let daily := Item.daily_p item in
  let '(first_p, add_p, delay_p) :=
    calc_line_costs daily qty nights returned_on_time in
  {| Line.code := code;
     Line.name := Item.name item;
     Line.qty := qty;
     Line.daily_p := daily;
     Line.first_night_p := first_p;
     Line.additional_nights_p := add_p;
     Line.extra_delay_p := delay_p;
     Line.line_total_p := first_p + add_p + delay_p |}.

Definition read_item_lines (nights : Z) (returned_on_time : bool)
  : M St (list Line.t) :=
  print ITEM_LINES_INSTRUCTIONS ;;
  print (u "Nights for this hire: " ++ str_of_Z nights ++
         u "  | Returned on time: " ++ str_of_bool returned_on_time) ;;
  print (u "Known codes: " ++ catalog_codes) ;;
  while_true (fun lines : list Line.t =>
    raw <- input (u "> ") ;;
    let raw := str_strip py raw in
    if pystr_eqb raw [] then
      if is_empty lines then
        print (u "You must enter at least one item.") ;;
        ret (Continue lines)
      else ret (Return lines)
    else
      match _parse_item_line raw with
      | ValueError err =>
        print err ;;
        ret (Continue lines)
      | Parsed (code, qty) =>
        match find_item py code with
        | None => raise TypeError
        | Some item =>
          ret (Continue
                 (lines ++ [priced_line item code qty nights returned_on_time]))
        end
      end) [].
End Readers.

(** ** Flows *)

Definition state := AppState bool.

(** The hire that one round of [run_hire_flow] saves. *)
Definition new_hire (st : state) (header : Header.t) (nights : Z)
           (returned_on_time : bool) (lines : list Line.t) : Hire.t bool :=
  let items_summary :=
    join (u ", ")
         (map (fun ln => Line.name ln ++ u " – " ++ str_of_Z (Line.qty ln)) lines) in
  let extra_delay_p := sum_of Line.extra_delay_p lines in
  let total_p := sum_of Line.line_total_p lines in
  {| Hire.customer_id := next_customer_id st;
     Hire.customer_name := Header.customer_name header;
     Hire.nights := nights;
     Hire.returned_on_time := returned_on_time;
     Hire.lines := lines;
     Hire.extra_delay_p := extra_delay_p;
     Hire.total_p := total_p;
     Hire.items_summary := items_summary |}.

(** [state.hire_records.append(hire)]. *)
Definition append_hire (hire : Hire.t bool) (st : state) : state :=
  {| hire_records := hire_records st ++ [hire];
     next_customer_id := next_customer_id st |}.

(** [state.next_customer_id += 1]. *)
Definition bump_customer_id (st : state) : state :=
  {| hire_records := hire_records st;
     next_customer_id := next_customer_id st + 1 |}.

(** One round of the loop of [run_hire_flow]. *)
Definition hire_round (_ : unit) : M state (step unit unit) :=
  header <- read_customer_header ;;
  match header with
  | None =>
    print (u "Returning to main menu.") ;;
    ret (Return tt)
  | Some header =>
    nights <- read_positive_int (u "Number of nights: ") 1 ;;
    returned_on_time <- read_yes_no (u "Returned on time (y/n)? ") ;;
    lines <- read_item_lines nights returned_on_time ;;
    st <- get_state ;;
    let hire := new_hire st header nights returned_on_time lines in
    modify_state (append_hire hire) ;;
    modify_state bump_customer_id ;;
    print ([NL] ++ u "Saved hire:") ;;
    print (u "  Customer ID: " ++ str_of_Z (Hire.customer_id hire)) ;;
    print (u "  Customer:    " ++ Hire.customer_name hire) ;;
    print (u "  Equipment:   " ++ Hire.items_summary hire) ;;
    print (u "  Nights:      " ++ str_of_Z nights) ;;
    print (u "  Returned on time: " ++ (if returned_on_time then u "y" else u "n")) ;;
    extra_text <- money_call (Hire.extra_delay_p hire) ;;
    print (u "  Extra charge for delayed return: " ++ extra_text) ;;
    total_text <- money_call (Hire.total_p hire) ;;
    print (u "  Total cost:  " ++ total_text ++ [NL]) ;;
    again <- read_yes_no (u "Add another hire (y/n)? ") ;;
    if negb again then
      print (u "Returning to main menu.") ;;
      ret (Return tt)
    else ret (Continue tt)
  end.

Definition run_hire_flow : M state unit := while_true hire_round tt.

Definition REPORT_HEADER : pystr :=
  u "Customer ID | Equipment                                                       | Number of nights | Total Cost | Returned on time (y/n) | Extra charge for delayed return".

Definition REPORT_RULE : pystr :=
  u "------------+-----------------------------------------------------------------+------------------+------------+------------------------+--------------------------------".

(** The table row of one hire, where its amounts have a text: amounts in
    whole pounds. *)
Definition report_row (hire : Hire.t bool) : pystr :=
  let cust_id := Hire.customer_id hire in
  let equipment_str := Hire.items_summary hire in
  let nights := Hire.nights hire in
  let total_pounds := Hire.total_p hire / 100 in
  let extra_pounds := Hire.extra_delay_p hire / 100 in
  let on_time_char := if Hire.returned_on_time hire then u "y" else u "n" in
  ljust 11 (str_of_Z cust_id) ++ u " | " ++
  ljust 65 equipment_str ++ u " | " ++
  ljust 16 (str_of_Z nights) ++ u " | " ++
  ljust 10 (str_of_Z total_pounds) ++ u " | " ++
  ljust 22 on_time_char ++ u " | " ++
  ljust 30 (str_of_Z extra_pounds).

Definition run_earnings_report : M state unit :=
  st <- get_state ;;
  if is_empty (hire_records st) then
    print ([NL] ++ u "No hires recorded yet.")
  else
    print REPORT_HEADER ;;
    print REPORT_RULE ;;
    for_each (hire_records st) (fun hire =>
      (* the fields [total_pounds] and [extra_pounds] of the row *)
      digits_check (Hire.total_p hire / 100) ;;
      digits_check (Hire.extra_delay_p hire / 100) ;;
      print (report_row hire)).

(** One round of the menu loop of [main]. *)
Definition menu_round (_ : unit) : M state (step unit unit) :=
  print_main_menu ;;
  choice <- read_choice ;;
  match choice with
  | None =>
    print (u "Invalid option, try again.") ;;
    ret (Continue tt)
  | Some choice =>
    if choice =? 1 then run_hire_flow ;; ret (Continue tt)
    else if choice =? 2 then run_earnings_report ;; ret (Continue tt)
    else if choice =? 3 then print (u "Goodbye!") ;; ret (Return tt)
    else ret (Continue tt)
  end.

Definition main : M state unit :=
  modify_state (fun _ => AppState_init) ;;
  while_true menu_round tt.

(** A whole run of the programme on the lines [lines] typed by the user. *)
Definition run (lines : list pystr) : result unit * world state :=
  main {| session := AppState_init; stdin := lines; stdout := [] |}.
End Programme.

(* ================================================================== *)
(** * The earnings report of the draft [wip.py] *)
(* ================================================================== *)

Module Wip.
Definition state := AppState pystr.

(** [money] of [wip.py]: the pounds carry thousands separators. *)
Definition money (pence : Z) : pystr :=
  let pounds := pence / 100 in
  let pennies := pence mod 100 in
  u "£" ++ fmt_comma pounds ++ u "." ++ fmt_02d pennies.

Definition money_call {St : Type} (pence : Z) : M St pystr :=
  digits_check (pence / 100) ;;
  ret (money pence).

Definition RULE : pystr := replicate 118 45%N.

Definition REPORT_HEADER : pystr :=
  ljust 4 (u "ID") ++ u " | " ++
  ljust 20 (u "Customer Name") ++ u " | " ++
  ljust 45 (u "Equipment (Name – Qty)") ++ u " | " ++
  rjust 6 (u "Nights") ++ u " | " ++
  rjust 7 (u "On-Time") ++ u " | " ++
  rjust 10 (u "Late Fee") ++ u " | " ++
  rjust 12 (u "Total Cost").

(** The part of a row before the two amounts. *)
Definition row_lead (record : Hire.t pystr) : pystr :=
  let items_summary := Hire.items_summary record in
  let items_summary :=
    if len items_summary >? 45 then firstn 42 items_summary ++ u "..."
    else items_summary in
  ljust 4 (str_of_Z (Hire.customer_id record)) ++ u " | " ++
  ljust 20 (Hire.customer_name record) ++ u " | " ++
  ljust 45 items_summary ++ u " | " ++
  rjust 6 (str_of_Z (Hire.nights record)) ++ u " | " ++
  rjust 7 (Hire.returned_on_time record) ++ u " | ".

Definition report_row (record : Hire.t pystr) : pystr :=
  row_lead record ++
  rjust 10 (money (Hire.extra_delay_p record)) ++ u " | " ++
  rjust 12 (money (Hire.total_p record)).

Definition totals_line (grand_total : Z) : pystr :=
  rjust 100 (u "TOTAL EARNINGS") ++ u " : " ++ rjust 15 (money grand_total).

Definition run_earnings_report : M state unit :=
  st <- get_state ;;
  if is_empty (hire_records st) then
    print ([NL] ++ u "No hires recorded yet.")
  else
    print ([NL] ++ RULE) ;;
    print (u "Earnings Report") ;;
    print RULE ;;
    print REPORT_HEADER ;;
    print RULE ;;
    grand_total <-
      for_acc (hire_records st) 0 (fun grand_total record =>
        (* the two calls of [money] in the row, then the row itself *)
        money_call (Hire.extra_delay_p record) ;;
        money_call (Hire.total_p record) ;;
        print (report_row record) ;;
        ret (grand_total + Hire.total_p record)) ;;
    print RULE ;;
    money_call grand_total ;;
    print (totals_line grand_total).
End Wip.

(* ================================================================== *)
(** * The earnings report of the draft [wiptask3.py] *)
(* ================================================================== *)

Module Wiptask3.
Definition state := AppState pystr.

Definition run_earnings_report : M state unit :=
  st <- get_state ;;
  if is_empty (hire_records st) then
    print ([NL] ++ u "No hires recorded yet.")
  else
    print ([NL] ++ u "=== Earnings Report ===") ;;
    totals <-
      for_acc (hire_records st) (0, 0) (fun '(grand_total, grand_delay) hire =>
        print (u "Customer " ++ str_of_Z (Hire.customer_id hire) ++ u " – " ++
               Hire.customer_name hire) ;;
        print (u "  Items:  " ++ Hire.items_summary hire) ;;
        total_text <- money_call (Hire.total_p hire) ;;
        print (u "  Total:  " ++ total_text) ;;
        delay_text <- money_call (Hire.extra_delay_p hire) ;;
        print (u "  Delay:  " ++ delay_text) ;;
        print [] ;;
        ret (grand_total + Hire.total_p hire,
             grand_delay + Hire.extra_delay_p hire)) ;;
    let '(grand_total, grand_delay) := totals in
    print (u "--- Totals ---") ;;
    total_text <- money_call grand_total ;;
    print (u "Grand total earnings: " ++ total_text) ;;
    delay_text <- money_call grand_delay ;;
    print (u "Of which late-return charges: " ++ delay_text).
End Wiptask3.

(* ================================================================== *)
(** * Vocabulary of the specification *)
(* ================================================================== *)

(** The half-night charge: the integer [h] with [2h <= p < 2h + 2]. *)
Definition is_floor_half (p h : Z) : Prop := 2 * h <= p < 2 * h + 2.

(** A boolean check that the strings of a list are pairwise distinct. *)
Fixpoint all_distinct (l : list pystr) : bool :=
  match l with
  | [] => true
  | x :: rest => negb (str_in x rest) && all_distinct rest
  end.

(** The first entry with key [k], the way [find_item] scans the catalogue. *)
Definition lookup {A : Type} (key : A -> pystr) (k : pystr) (l : list A)
  : option A :=
  find (fun x => pystr_eqb (key x) k) l.

(** A code matches an input case-insensitively when both have the same
    upper-case form, which is how [find_item] compares them. *)
Definition matches (py : builtins) (s : pystr) (it : Item.t) : Prop :=
  str_upper py (Item.code it) = str_upper py s.

(** The catalogue codes are already in upper case. *)
Definition upper_fixes_codes (py : builtins) : Prop :=
  forall it, In it CATALOG -> str_upper py (Item.code it) = Item.code it.

(** A line carries the costs that [calc_line_costs] gives for its own
    price and quantity and for the nights and flag of its hire. *)
Definition line_priced (nights : Z) (returned_on_time : bool) (ln : Line.t) : Prop :=
  calc_line_costs (Line.daily_p ln) (Line.qty ln) nights returned_on_time =
    (Line.first_night_p ln, Line.additional_nights_p ln, Line.extra_delay_p ln) /\
  Line.line_total_p ln =
    Line.first_night_p ln + Line.additional_nights_p ln + Line.extra_delay_p ln.

(** The totals of a hire computed afresh from the inputs of its lines. *)
Definition recomputed_total (h : Hire.t bool) : Z :=
  sum_of (fun ln =>
            let '(first_p, add_p, delay_p) :=
              calc_line_costs (Line.daily_p ln) (Line.qty ln) (Hire.nights h)
                              (Hire.returned_on_time h) in
            first_p + add_p + delay_p) (Hire.lines h).

Definition recomputed_late (h : Hire.t bool) : Z :=
  sum_of (fun ln =>
            let '(_, _, delay_p) :=
              calc_line_costs (Line.daily_p ln) (Line.qty ln) (Hire.nights h)
                              (Hire.returned_on_time h) in
            delay_p) (Hire.lines h).

Definition totals_ok (h : Hire.t bool) : Prop :=
  Hire.total_p h = sum_of Line.line_total_p (Hire.lines h) /\
  Hire.extra_delay_p h = sum_of Line.extra_delay_p (Hire.lines h) /\
  Hire.total_p h = recomputed_total h /\
  Hire.extra_delay_p h = recomputed_late h.

(** What the data model asks of a line: a known code with the name and
    price of its catalogue entry, a quantity of at least 1, and the costs
    of the pricing engine. *)
Definition line_ok (py : builtins) (nights : Z) (returned_on_time : bool)
           (ln : Line.t) : Prop :=
  line_priced nights returned_on_time ln /\
  1 <= Line.qty ln /\
  exists item, find_item py (Line.code ln) = Some item /\
               Line.name ln = Item.name item /\
               Line.daily_p ln = Item.daily_p item.

(** What the data model asks of a saved hire. *)
Definition hire_ok (py : builtins) (h : Hire.t bool) : Prop :=
  1 <= Hire.nights h /\
  Hire.lines h <> [] /\
  Forall (line_ok py (Hire.nights h) (Hire.returned_on_time h)) (Hire.lines h) /\
  totals_ok h.

(** The ids [first, first + 1, ...], [n] of them. *)
Fixpoint ids_from (first : Z) (n : nat) : list Z :=
  match n with
  | O => []
  | S n' => first :: ids_from (first + 1) n'
  end.

(** [st'] is [st] with the hires [news] appended and one id used for each. *)
Definition extends_by (py : builtins) (st : state) (news : list (Hire.t bool))
           (st' : state) : Prop :=
  hire_records st' = hire_records st ++ news /\
  next_customer_id st' = next_customer_id st + len news /\
  map Hire.customer_id news = ids_from (next_customer_id st) (length news) /\
  Forall (hire_ok py) news.

Definition grows (py : builtins) (st st' : state) : Prop :=
  exists news, extends_by py st news st'.

(** One round of the hire loop that reaches the save: the hire built from
    what was read is appended and the counter moves on by one. *)
Definition saved_one (py : builtins) (st st' : state) : Prop :=
  exists header nights returned_on_time lines,
    1 <= nights /\ lines <> [] /\
    Forall (line_ok py nights returned_on_time) lines /\
    st' = bump_customer_id
            (append_hire (new_hire st header nights returned_on_time lines) st).

(** What one round of the hire loop does to the state: nothing, or one save. *)
Definition round_effect (py : builtins) (st st' : state) : Prop :=
  st' = st \/ saved_one py st st'.

(** Every id of the ledger comes from the counter, in order. *)
Definition ids_sequential (st : state) : Prop :=
  map Hire.customer_id (hire_records st) = ids_from 101 (length (hire_records st)) /\
  next_customer_id st = 101 + len (hire_records st).

(** The amounts of a hire can be printed: the pounds of its late charge
    and of its total are within the text limit. *)
Definition amounts_fit {flag : Type} (h : Hire.t flag) : bool :=
  has_text (Hire.extra_delay_p h / 100) && has_text (Hire.total_p h / 100).

(** All the amounts that the report of [wip.py] prints for a ledger can be
    printed: those of each hire and the grand total. *)
Definition wip_amounts_fit (ledger : list (Hire.t pystr)) : bool :=
  forallb amounts_fit ledger && has_text (sum_of Hire.total_p ledger / 100).

(** The same for the report of [wiptask3.py], which also prints the sum of
    the late charges. *)
Definition wiptask3_amounts_fit (ledger : list (Hire.t pystr)) : bool :=
  forallb amounts_fit ledger &&
  has_text (sum_of Hire.total_p ledger / 100) &&
  has_text (sum_of Hire.extra_delay_p ledger / 100).

(** ** Console output *)

(** The arguments of the [print] calls, in order. *)
Definition printed (out : list event) : list pystr :=
  flat_map (fun e => match e with Printed t => [t] | Prompted _ => [] end) out.

(** The characters that reach the terminal. *)
Definition console_text (out : list event) : pystr :=
  flat_map (fun e => match e with Printed t => t ++ [NL] | Prompted t => t end) out.

(** The lines of a text, each ended by a newline (a last line may lack it). *)
Fixpoint text_lines_aux (cur : pystr) (s : pystr) : list pystr :=
  match s with
  | [] => if is_empty cur then [] else [rev cur]
  | c :: rest =>
    if (c =? NL)%N then rev cur :: text_lines_aux [] rest
    else text_lines_aux (c :: cur) rest
  end.

Definition text_lines (s : pystr) : list pystr := text_lines_aux [] s.

Definition NO_HIRES : pystr := [NL] ++ u "No hires recorded yet.".

(** A world that holds the state [st]: nothing typed, nothing printed. *)
Definition quiet {St : Type} (st : St) : world St :=
  {| session := st; stdin := []; stdout := [] |}.

(** What a report prints for the state [st]. *)
Definition report_of {St : Type} (report : M St unit) (st : St) : list pystr :=
  printed (stdout (snd (report (quiet st)))).

(** The report as the specification describes it: the last line shows the
    sum of the totals as currency, and each hire has a row that shows its
    total and its late charge as currency.  The format [£{major}.{minor:02d}]
    is [money]. *)
Definition shows (amount line : pystr) : Prop := contains amount line = true.

Definition report_with_totals {flag : Type} (currency : Z -> pystr)
           (out : list pystr) (ledger : list (Hire.t flag)) : Prop :=
  shows (currency (sum_of Hire.total_p ledger)) (last out []) /\
  Forall (fun h => exists row, In row out /\
                               shows (currency (Hire.total_p h)) row /\
                               shows (currency (Hire.extra_delay_p h)) row) ledger.

(** [st'] keeps every record of [st] in place and adds [news] at the end,
    the counter moving by one for each. *)
Definition appends (st : state) (news : list (Hire.t bool)) (st' : state) : Prop :=
  hire_records st' = hire_records st ++ news /\
  next_customer_id st' = next_customer_id st + len news.

(** The world after the lines [texts] have been printed. *)
Definition emit {St : Type} (texts : list pystr) (w : world St) : world St :=
  {| session := session w; stdin := stdin w;
     stdout := stdout w ++ map Printed texts |}.

(** What the three reports print for a ledger. *)
Definition report_lines (ledger : list (Hire.t bool)) : list pystr :=
  if is_empty ledger then [NO_HIRES]
  else REPORT_HEADER :: REPORT_RULE :: map report_row ledger.

Definition wip_report_lines (ledger : list (Hire.t pystr)) : list pystr :=
  if is_empty ledger then [NO_HIRES]
  else [[NL] ++ Wip.RULE; u "Earnings Report"; Wip.RULE; Wip.REPORT_HEADER; Wip.RULE]
         ++ map Wip.report_row ledger
         ++ [Wip.RULE; Wip.totals_line (sum_of Hire.total_p ledger)].

Definition wiptask3_hire_lines (hire : Hire.t pystr) : list pystr :=
  [u "Customer " ++ str_of_Z (Hire.customer_id hire) ++ u " – " ++
     Hire.customer_name hire;
   u "  Items:  " ++ Hire.items_summary hire;
   u "  Total:  " ++ money (Hire.total_p hire);
   u "  Delay:  " ++ money (Hire.extra_delay_p hire);
   []].

Definition wiptask3_report_lines (ledger : list (Hire.t pystr)) : list pystr :=
  if is_empty ledger then [NO_HIRES]
  else [[NL] ++ u "=== Earnings Report ==="]
         ++ flat_map wiptask3_hire_lines ledger
         ++ [u "--- Totals ---";
             u "Grand total earnings: " ++ money (sum_of Hire.total_p ledger);
             u "Of which late-return charges: " ++
               money (sum_of Hire.extra_delay_p ledger)].

(** A session at the counter: one late single-night hire of a day chair. *)
Definition sample_session : list pystr :=
  map u ["1"; "Jane Smith, 07900111222, 12, LE1 2AB, 1234"; "1"; "n";
         "DCH, 1"; EmptyString; "n"; "3"]%string.

Definition sample_state : state :=
  Eval vm_compute in session (snd (run ascii_builtins sample_session)).

(** What a user types to record one hire and ask for another. *)
Definition hire_script : list pystr :=
  [u "Jane Smith, 07900111222, 12, LE1 2AB, 1234"; u "1"; u "y"; u "DCH, 1"; [];
   u "y"].

(** [n] hires typed one after the other, then [rest]. *)
Fixpoint hires_script (n : nat) (rest : list pystr) : list pystr :=
  match n with
  | O => rest
  | S n' => hire_script ++ hires_script n' rest
  end.

(** The world at the start of a session in which [typed] will be typed. *)
Definition fresh (typed : list pystr) : world state :=
  {| session := AppState_init; stdin := typed; stdout := [] |}.

(** The same hire as the drafts store it: the flag as ["y"] or ["n"]. *)
Definition as_draft (h : Hire.t bool) : Hire.t pystr :=
  {| Hire.customer_id := Hire.customer_id h;
     Hire.customer_name := Hire.customer_name h;
     Hire.nights := Hire.nights h;
     Hire.returned_on_time := if Hire.returned_on_time h then u "y" else u "n";
     Hire.lines := Hire.lines h;
     Hire.extra_delay_p := Hire.extra_delay_p h;
     Hire.total_p := Hire.total_p h;
     Hire.items_summary := Hire.items_summary h |}.

Definition draft_sample_state : AppState pystr :=
  {| hire_records := map as_draft (hire_records sample_state);
     next_customer_id := next_customer_id sample_state |}.

(** ** Behaviour of computations *)

Section Behaviour.
Context {St A : Type}.

(** [m] leaves the state of the session alone. *)
Definition frame (m : M St A) : Prop :=
  forall w, session (snd (m w)) = session w.

(** [m] ends within the loop bound and does not put lines back. *)
Definition tame (m : M St A) : Prop :=
  forall w, fst (m w) <> Timeout /\
            (length (stdin (snd (m w))) <= length (stdin w))%nat.

(** [m] reads at least one line whenever it returns. *)
Definition eats (m : M St A) : Prop :=
  forall w a, fst (m w) = Ok a ->
              (length (stdin (snd (m w))) < length (stdin w))%nat.

(** Every value that [m] returns satisfies [Q]. *)
Definition post (Q : A -> Prop) (m : M St A) : Prop :=
  forall w a, fst (m w) = Ok a -> Q a.

(** [m] never ends with the exception [e]. *)
Definition avoids (e : exn) (m : M St A) : Prop :=
  forall w, fst (m w) <> Raise e.

(** [m] takes the state of the session along [R]. *)
Definition steps (R : St -> St -> Prop) (m : M St A) : Prop :=
  forall w, R (session w) (session (snd (m w))).

(** From a state that satisfies [Inv], [m] ends in a state that satisfies
    [Inv], unless it raises the [ValueError] of the text limit, which it
    does only in a state that satisfies [Crash]. *)
Definition keeps (Inv Crash : St -> Prop) (m : M St A) : Prop :=
  forall w, Inv (session w) ->
            match fst (m w) with
            | Raise ValueError_str_digits => Crash (session (snd (m w)))
            | Timeout => True
            | _ => Inv (session (snd (m w)))
            end.
End Behaviour.

(* ================================================================== *)
(** * Further functions of the drafts *)
(* ================================================================== *)

Definition QUOTE : char := 34%N.
Definition DOT : char := 46%N.

(** The scanning loop of [parse_csv_2_fields] ([wip.py]) over what is left
    of the line: [in_quotes], [buf] and [fields] are its locals; a quote
    that follows a quote inside quotes is skipped along with it. *)
Fixpoint csv_scan (py : builtins) (in_quotes : bool) (buf : pystr)
         (fields : list pystr) (s : pystr) : list pystr :=
  match s with
  | [] => fields ++ [str_strip py buf]
  | ch :: rest =>
    if (ch =? QUOTE)%N then
      match rest with
      | ch' :: rest' =>
        if in_quotes && (ch' =? QUOTE)%N then
          csv_scan py in_quotes (buf ++ [QUOTE]) fields rest'
        else csv_scan py (negb in_quotes) buf fields rest
      | [] => csv_scan py (negb in_quotes) buf fields rest
      end
    else if (ch =? COMMA)%N && negb in_quotes then
      csv_scan py in_quotes [] (fields ++ [str_strip py buf]) rest
    else csv_scan py in_quotes (buf ++ [ch]) fields rest
  end.

(** [parse_csv_2_fields] of [wip.py]: the two trimmed fields of ['A, B'],
    [None] for a blank line or another number of fields. *)
Definition parse_csv_2_fields (py : builtins) (line : pystr)
  : option (pystr * pystr) :=
  let line := str_strip py line in
  if is_empty line then None
  else
    match csv_scan py false [] [] line with
    | [a; b] => Some (a, b)
    | _ => None
    end.

(** The readers of [wiptask3.py] that differ from those of [hailmary.py]. *)
Module Drafts.
Section Readers.
Variable py : builtins.
Context {St : Type}.

(** [read_yes_no] of [wiptask3.py] and [wip.py]: the answer as ["y"] or
    ["n"]. *)
Definition read_yes_no (prompt : pystr) : M St pystr :=
  while_true (fun _ : unit =>
    s <- input prompt ;;
    let s := str_lower py (str_strip py s) in
    if str_in s [u "y"; u "n"; u "yes"; u "no"] then
      ret (Return (if starts_with (u "y") s then u "y" else u "n"))
    else
      print (u "Please enter 'y' or 'n'.") ;;
      ret (Continue tt)) tt.

(** [read_customer_header] of [wiptask3.py]: one attempt, [None] after a
    message when the line is blank or does not validate. *)
Definition read_customer_header : M St (option Header.t) :=
  print ([NL] ++ u "Enter customer (comma separated):") ;;
  print (u "  name, phone, house_no, postcode, card_last4") ;;
  print (u "  Example:  Jane Smith, 07900111222, 12, LE1 2AB, 1234") ;;
  s <- input (u "> ") ;;
  let s := str_strip py s in
  if is_empty s then
    print (u "Cancelled.") ;;
    ret None
  else
    let parts := map (str_strip py) (split_comma s) in
    match parts with
    | [name; phone; house_no; postcode; card_last4] =>
      let name := str_strip py name in
      let phone_digits := filter (ch_isdigit py) phone in
      let card_digits := filter (ch_isdigit py) card_last4 in
      if is_empty name then
        print (u "Name cannot be empty.") ;;
        ret None
      else if len phone_digits <? 7 then
        print (u "Phone should contain at least 7 digits.") ;;
        ret None
      else if negb (len card_digits =? 4) then
        print (u "Card last 4 digits must be exactly 4 digits.") ;;
        ret None
      else
        ret (Some {|
               Header.customer_name := name;
               Header.phone := phone_digits;
               Header.house_no := str_strip py house_no;
               Header.postcode := str_upper py (str_strip py postcode);
               Header.card_last4 := card_digits
             |})
    | _ =>
      print (u "Expected 5 fields separated by commas.") ;;
      ret None
    end.
End Readers.
End Drafts.

(* ================================================================== *)
(** * Further vocabulary *)
(* ================================================================== *)

(** A loop that asks until a line is accepted: [classify] gives the value
    of an accepted line, or the message printed for a refused one. *)
Definition ask {St A : Type} (prompt : pystr) (classify : pystr -> pystr + A)
  : M St A :=
  while_true (fun _ : unit =>
    s <- input prompt ;;
    match classify s with
    | inl msg => print msg ;; ret (Continue tt)
    | inr a => ret (Return a)
    end) tt.

(** How [read_yes_no] reads one line. *)
Definition yes_no_class (py : builtins) (line : pystr) : pystr + bool :=
  let s := str_lower py (str_strip py line) in
  if str_in s [u "y"; u "yes"] then inr true
  else if str_in s [u "n"; u "no"] then inr false
  else inl (u "Please enter 'y' or 'n'.").

(** How [read_positive_int] reads one line. *)
Definition int_class (py : builtins) (min_value : Z) (line : pystr) : pystr + Z :=
  match py_int py (str_strip py line) with
  | None => inl (u "Please enter a whole number.")
  | Some n =>
    if n <? min_value then
      inl (u "Please enter a number ≥ " ++ str_of_Z min_value ++ u ".")
    else inr n
  end.

Definition refusal {A : Type} (c : pystr + A) : option pystr :=
  match c with inl msg => Some msg | inr _ => None end.

Definition refused {A : Type} (classify : pystr -> pystr + A) (line : pystr) : Prop :=
  exists msg, classify line = inl msg.

(** [m] raises [EOFError] only when no line is left. *)
Definition eof_at_end {St A : Type} (m : M St A) : Prop :=
  forall w, fst (m w) = Raise EOFError -> stdin (snd (m w)) = [].
(** The world after [lines] have been read, each at the prompt [prompt],
    the line [line] answered by the message [reply line] when there is one. *)
Definition converse {St : Type} (prompt : pystr) (reply : pystr -> option pystr)
           (lines : list pystr) (rest : list pystr) (w : world St) : world St :=
  {| session := session w;
     stdin := rest;
     stdout := stdout w ++
               flat_map (fun line =>
                           Prompted prompt ::
                           match reply line with
                           | Some msg => [Printed msg]
                           | None => []
                           end) lines |}.

(** Every value that [m] returns comes with a world that satisfies [Q]. *)
Definition ensures {St A : Type} (Q : A -> world St -> Prop) (m : M St A) : Prop :=
  forall w a, fst (m w) = Ok a -> Q a (snd (m w)).

(** Every amount of the ledger can be printed. *)
Definition ledger_fits (st : state) : Prop :=
  forallb amounts_fit (hire_records st) = true.

(** The hire saved last has an amount that cannot be printed; those
    before it can. *)
Definition stopped_at_save (st : state) : Prop :=
  exists earlier h,
    hire_records st = earlier ++ [h] /\
    forallb amounts_fit earlier = true /\
    amounts_fit h = false.

(** The last thing on the terminal. *)
Definition last_event {St : Type} (w : world St) : option event :=
  last (map Some (stdout w)) None.

(** The amounts stored in a line: none is negative. *)
Definition line_amounts_ok (ln : Line.t) : Prop :=
  500 <= Line.daily_p ln /\
  500 <= Line.first_night_p ln /\
  0 <= Line.additional_nights_p ln /\
  0 <= Line.extra_delay_p ln <= Line.line_total_p ln /\
  500 <= Line.line_total_p ln.

(** Money that is owed, not owing: the amounts stored in a hire and in
    its lines. *)
Definition amounts_ok (h : Hire.t bool) : Prop :=
  0 <= Hire.extra_delay_p h <= Hire.total_p h /\
  500 <= Hire.total_p h /\
  (Hire.returned_on_time h = true -> Hire.extra_delay_p h = 0) /\
  (Hire.returned_on_time h = false -> 250 <= Hire.extra_delay_p h) /\
  Forall line_amounts_ok (Hire.lines h).

(** What the ledger keeps of the data model, apart from the totals. *)
Definition well_formed_hire (py : builtins) (h : Hire.t bool) : Prop :=
  1 <= Hire.nights h /\
  Hire.lines h <> [] /\
  Forall (fun ln =>
            1 <= Line.qty ln /\
            exists item, In item CATALOG /\
                         find_item py (Line.code ln) = Some item /\
                         Line.name ln = Item.name item /\
                         Line.daily_p ln = Item.daily_p item)
         (Hire.lines h).

(** [str.upper] and [str.strip] applied twice change nothing more. *)
Definition upper_idempotent (py : builtins) : Prop :=
  forall s, str_upper py (str_upper py s) = str_upper py s.

Definition strip_idempotent (py : builtins) : Prop :=
  forall s, str_strip py (str_strip py s) = str_strip py s.

(** The answer of [read_yes_no] as the drafts return it. *)
Definition yn (b : bool) : pystr := if b then u "y" else u "n".

Definition map_result {A B : Type} (f : A -> B) (r : result A) : result B :=
  match r with
  | Ok a => Ok (f a)
  | Raise e => Raise e
  | Timeout => Timeout
  end.
(** The texts of a saved hire: a customer name that is not empty and the
    equipment summary of its own lines. *)
Definition hire_text_ok (h : Hire.t bool) : Prop :=
  Hire.customer_name h <> [] /\
  Hire.items_summary h =
    join (u ", ")
         (map (fun ln => Line.name ln ++ u " – " ++ str_of_Z (Line.qty ln))
              (Hire.lines h)).

(** What [read_item_lines] makes of one typed line that is not blank: the
    priced line when [_parse_item_line] accepts it, nothing when it is
    turned down with a message. *)
Definition entered_line (py : builtins) (nights : Z) (returned_on_time : bool)
           (raw : pystr) : list Line.t :=
  match _parse_item_line py (str_strip py raw) with
  | Parsed (code, qty) =>
    match find_item py code with
    | Some item => [priced_line item code qty nights returned_on_time]
    | None => []
    end
  | ValueError _ => []
  end.

(** The lines of the typed lines [raws], in the order they were typed. *)
Definition entered_lines (py : builtins) (nights : Z) (returned_on_time : bool)
           (raws : list pystr) : list Line.t :=
  flat_map (entered_line py nights returned_on_time) raws.

(** A typed line with nothing but blanks, which ends the item lines. *)
Definition blank (py : builtins) (raw : pystr) : Prop := str_strip py raw = [].

(** [st'] is [st] followed by hires that satisfy [P]. *)
Definition extends_with (P : Hire.t bool -> Prop) (st st' : state) : Prop :=
  exists news, hire_records st' = hire_records st ++ news /\ Forall P news.
(** The text without its commas. *)
Definition without_commas (s : pystr) : pystr :=
  filter (fun c => negb (c =? COMMA)%N) s.

(* ================================================================== *)
(** * The pricing engine: properties *)
(* ================================================================== *)

Lemma half_is_floor (p : Z) : is_floor_half p (p / 2).
Proof.
  unfold is_floor_half.
  pose proof (Z.div_mod p 2 ltac:(lia)) as Hdm.
  pose proof (Z.mod_pos_bound p 2 ltac:(lia)) as Hb.
  lia.
Qed.

Lemma calc_line_costs_eq (daily_p qty nights : Z) (returned_on_time : bool) :
  calc_line_costs daily_p qty nights returned_on_time =
  (daily_p * qty,
   (daily_p * qty / 2) * Z.max 0 (nights - 1),
   if returned_on_time then 0 else daily_p * qty / 2).
Proof.
  unfold calc_line_costs, ADDITIONAL_NIGHT_MULTIPLIER_NUM,
    ADDITIONAL_NIGHT_MULTIPLIER_DEN.
  rewrite Z.mul_1_r. reflexivity.
Qed.

Lemma wip_calc_line_costs_eq (daily_p qty nights : Z) (returned_on_time : bool) :
  Wip_pricing.calc_line_costs daily_p qty nights returned_on_time =
  calc_line_costs daily_p qty nights returned_on_time.
Proof. reflexivity. Qed.

(** C1.  For a price of at least 0, a quantity of at least 1 and at
    least one night, whatever the on-time flag, [calc_line_costs] (in
    [hailmary.py] and in [wip.py]) returns the first-night cost
    [daily_price * quantity] and the additional-nights cost
    [floor(daily_price * quantity / 2) * (nights - 1)]; the half is the
    floor of the exact half, never rounded up. *)
Theorem calc_line_costs_first_and_additional
        (daily_price quantity nights : Z) (returned_on_time : bool) :
  0 <= daily_price -> 1 <= quantity -> 1 <= nights ->
  let '(first_night_cost, additional_nights_cost, _) :=
    calc_line_costs daily_price quantity nights returned_on_time in
  first_night_cost = daily_price * quantity /\
  additional_nights_cost = (daily_price * quantity / 2) * (nights - 1) /\
  is_floor_half (daily_price * quantity) (daily_price * quantity / 2) /\
  Wip_pricing.calc_line_costs daily_price quantity nights returned_on_time =
    (first_night_cost, additional_nights_cost,
     if returned_on_time then 0 else daily_price * quantity / 2).
Proof.
  intros Hp Hq Hn.
  pose proof (calc_line_costs_eq daily_price quantity nights returned_on_time) as E.
  rewrite Z.max_r in E by lia.
  change (Wip_pricing.calc_line_costs daily_price quantity nights returned_on_time)
    with (calc_line_costs daily_price quantity nights returned_on_time).
  rewrite E.
  split; [reflexivity | split; [reflexivity | split; [apply half_is_floor |]]].
  reflexivity.
Qed.

Lemma calc_line_costs_first_and_additional_witness :
  calc_line_costs 2500 1 2 true = (2500, 1250, 0) /\
  calc_line_costs 5 1 3 false = (5, 4, 2) /\
  let '(first_night_cost, additional_nights_cost, _) :=
    calc_line_costs 5 1 3 false in
  first_night_cost = 5 * 1 /\
  additional_nights_cost = (5 * 1 / 2) * (3 - 1) /\
  is_floor_half (5 * 1) (5 * 1 / 2) /\
  Wip_pricing.calc_line_costs 5 1 3 false =
    (first_night_cost, additional_nights_cost, 5 * 1 / 2).
Proof.
  split; [reflexivity | split; [reflexivity |]].
  apply (calc_line_costs_first_and_additional 5 1 3 false); lia.
Defined.

(** C2.  For a price of at least 0, a quantity of at least 1 and at
    least one night, the late-return surcharge of [calc_line_costs] is
    [floor(daily_price * quantity / 2)], one half-night charge, when the
    equipment was not returned on time, and 0 when it was; the number of
    nights plays no part. *)
Theorem calc_line_costs_late_surcharge (daily_price quantity nights : Z) :
  0 <= daily_price -> 1 <= quantity -> 1 <= nights ->
  snd (calc_line_costs daily_price quantity nights false) =
    daily_price * quantity / 2 /\
  snd (calc_line_costs daily_price quantity nights true) = 0 /\
  forall nights' returned_on_time,
    1 <= nights' ->
    snd (calc_line_costs daily_price quantity nights' returned_on_time) =
    snd (calc_line_costs daily_price quantity nights returned_on_time).
Proof.
  intros _ _ _. rewrite !calc_line_costs_eq. cbn [snd].
  split; [reflexivity | split; [reflexivity |]].
  intros nights' flag _. rewrite !calc_line_costs_eq. reflexivity.
Qed.

Lemma calc_line_costs_late_surcharge_witness :
  calc_line_costs 1500 1 1 false = (1500, 0, 750) /\
  snd (calc_line_costs 1500 1 1 false) = 1500 * 1 / 2 /\
  snd (calc_line_costs 1500 1 1 true) = 0.
Proof.
  split; [reflexivity |].
  pose proof (calc_line_costs_late_surcharge 1500 1 1
                ltac:(lia) ltac:(lia) ltac:(lia)) as [Hlate [Hon _]].
  split; [exact Hlate | exact Hon].
Defined.

(** C9.  For every price, quantity and number of nights, the first-night
    cost and the additional-nights cost of [calc_line_costs] are the same
    with the on-time flag set and cleared; the flag reaches only the
    late-return surcharge. *)
Theorem calc_line_costs_flag_only_late (daily_price quantity nights : Z) :
  fst (calc_line_costs daily_price quantity nights true) =
  fst (calc_line_costs daily_price quantity nights false).
Proof. rewrite !calc_line_costs_eq. reflexivity. Qed.

(** The worked examples of the price list. *)
Example day_chair_on_time :
  calc_line_costs 1500 1 1 true = (1500, 0, 0) /\ money 1500 = u "£15.00".
Proof. split; reflexivity. Qed.

Example bed_chair_two_nights :
  calc_line_costs 2500 1 2 true = (2500, 1250, 0) /\ money 3750 = u "£37.50".
Proof. split; reflexivity. Qed.

Example day_chair_late :
  calc_line_costs 1500 1 1 false = (1500, 0, 750) /\ money 2250 = u "£22.50".
Proof. split; reflexivity. Qed.

(* ================================================================== *)
(** * The catalogue: properties *)
(* ================================================================== *)

Lemma pystr_eqb_eq (a b : pystr) : pystr_eqb a b = true <-> a = b.
Proof.
  revert b. induction a as [|x a IH]; intros [|y b]; simpl;
    try (split; [discriminate | discriminate]); try tauto.
  rewrite andb_true_iff, N.eqb_eq, IH.
  split; [intros [-> ->]; reflexivity | intros [= -> ->]; split; reflexivity].
Qed.

Lemma pystr_eqb_refl (a : pystr) : pystr_eqb a a = true.
Proof. apply pystr_eqb_eq. reflexivity. Qed.

Lemma str_in_In (s : pystr) (l : list pystr) : str_in s l = true <-> In s l.
Proof.
  unfold str_in. rewrite existsb_exists. split.
  - intros [x [Hin Heq]]. apply pystr_eqb_eq in Heq. subst. exact Hin.
  - intros Hin. exists s. split; [exact Hin | apply pystr_eqb_refl].
Qed.

Lemma all_distinct_NoDup (l : list pystr) : all_distinct l = true -> NoDup l.
Proof.
  induction l as [|x l IH]; simpl; intros H; constructor.
  - apply andb_true_iff in H as [H _]. rewrite negb_true_iff in H.
    intros Hin. apply str_in_In in Hin. congruence.
  - apply IH. apply andb_true_iff in H as [_ H]. exact H.
Qed.

Lemma catalog_codes_distinct : NoDup (map Item.code CATALOG).
Proof. apply all_distinct_NoDup. vm_compute. reflexivity. Qed.

Section Lookup.
Variable A : Type.
Variable key : A -> pystr.

Lemma lookup_Some (k : pystr) (l : list A) (x : A) :
  lookup key k l = Some x -> In x l /\ key x = k.
Proof.
  intros H. apply find_some in H as [Hin Heq].
  split; [exact Hin | apply pystr_eqb_eq; exact Heq].
Qed.

Lemma key_injective (l : list A) (x y : A) :
  NoDup (map key l) -> In x l -> In y l -> key x = key y -> x = y.
Proof.
  induction l as [|z l IH]; simpl; intros Hnd Hx Hy Hxy; [contradiction |].
  inversion Hnd as [|? ? Hnotin Hnd']; subst.
  destruct Hx as [-> | Hx], Hy as [-> | Hy].
  - reflexivity.
  - exfalso. apply Hnotin. rewrite Hxy. apply in_map. exact Hy.
  - exfalso. apply Hnotin. rewrite <- Hxy. apply in_map. exact Hx.
  - apply IH; assumption.
Qed.

Lemma lookup_In (k : pystr) (l : list A) (x : A) :
  NoDup (map key l) -> In x l -> key x = k -> lookup key k l = Some x.
Proof.
  intros Hnd Hin Hk.
  destruct (lookup key k l) as [y|] eqn:E.
  - apply lookup_Some in E as [Hy Hky]. f_equal.
    apply (key_injective l); congruence.
  - unfold lookup in E.
    pose proof (find_none _ _ E x Hin) as Hno. cbv beta in Hno.
    rewrite Hk, pystr_eqb_refl in Hno. discriminate.
Qed.
End Lookup.

Lemma find_item_lookup (py : builtins) (s : pystr) :
  find_item py s = lookup Item.code (str_upper py s) CATALOG.
Proof. reflexivity. Qed.

Lemma ascii_upper_fixes_codes : upper_fixes_codes ascii_builtins.
Proof.
  intros it Hin. unfold CATALOG in Hin. simpl in Hin.
  repeat (destruct Hin as [<- | Hin]; [vm_compute; reflexivity |]).
  contradiction.
Qed.

(** C8.  The catalogue is a fixed list of 11 entries with pairwise
    distinct codes.  For every input string, [find_item] returns the one
    catalogue entry whose code matches the input case-insensitively when
    there is one, and [None] (a value, no exception) when no code matches.
    The upper-case form is the one of [str.upper], of which the proof
    uses that it leaves the catalogue codes as they are. *)
Theorem find_item_case_insensitive (py : builtins) (s : pystr) :
  upper_fixes_codes py ->
  length CATALOG = 11%nat /\
  NoDup (map Item.code CATALOG) /\
  (forall it, In it CATALOG -> matches py s it ->
              find_item py s = Some it /\
              forall it', In it' CATALOG -> matches py s it' -> it' = it) /\
  ((forall it, In it CATALOG -> ~ matches py s it) -> find_item py s = None) /\
  (forall it, find_item py s = Some it -> In it CATALOG /\ matches py s it).
Proof.
  intros Hup. unfold matches.
  split; [reflexivity | split; [apply catalog_codes_distinct |]].
  split; [| split].
  - intros it Hin Hm. rewrite (Hup it Hin) in Hm. split.
    + rewrite find_item_lookup.
      apply lookup_In; [apply catalog_codes_distinct | exact Hin | exact Hm].
    + intros it' Hin' Hm'. rewrite (Hup it' Hin') in Hm'.
      apply (key_injective _ Item.code CATALOG);
        [apply catalog_codes_distinct | exact Hin' | exact Hin | congruence].
  - intros Hnone. destruct (find_item py s) as [it|] eqn:E; [| reflexivity].
    rewrite find_item_lookup in E. apply lookup_Some in E as [Hin Hk].
    exfalso. apply (Hnone it Hin). rewrite (Hup it Hin). exact Hk.
  - intros it E. rewrite find_item_lookup in E.
    apply lookup_Some in E as [Hin Hk].
    split; [exact Hin | rewrite (Hup it Hin); exact Hk].
Qed.

Lemma find_item_case_insensitive_witness :
  upper_fixes_codes ascii_builtins /\
  find_item ascii_builtins (u "dCh") =
    Some {| Item.code := u "DCH"; Item.name := u "Day chairs";
            Item.daily_p := 1500 |} /\
  find_item ascii_builtins (u "XXX") = None /\
  forall it, find_item ascii_builtins (u "dCh") = Some it ->
             In it CATALOG /\ matches ascii_builtins (u "dCh") it.
Proof.
  split; [exact ascii_upper_fixes_codes |].
  split; [vm_compute; reflexivity | split; [vm_compute; reflexivity |]].
  apply (find_item_case_insensitive ascii_builtins (u "dCh")
                                    ascii_upper_fixes_codes).
Defined.

(* ================================================================== *)
(** * Reasoning about computations *)
(* ================================================================== *)

Create HintDb console discriminated.

Section Rules.
Context {St : Type}.

(** ** Running a [bind] *)

Lemma bind_Ok {A B} (m : M St A) (k : A -> M St B) w a w' :
  m w = (Ok a, w') -> bind m k w = k a w'.
Proof. intros E. unfold bind. rewrite E. reflexivity. Qed.

Lemma bind_Raise {A B} (m : M St A) (k : A -> M St B) w e w' :
  m w = (Raise e, w') -> bind m k w = (Raise e, w').
Proof. intros E. unfold bind. rewrite E. reflexivity. Qed.

Lemma bind_Timeout {A B} (m : M St A) (k : A -> M St B) w w' :
  m w = (Timeout, w') -> bind m k w = (Timeout, w').
Proof. intros E. unfold bind. rewrite E. reflexivity. Qed.

Lemma bind_fst_Raise {A B} (m : M St A) (k : A -> M St B) w e :
  fst (m w) = Raise e -> fst (bind m k w) = Raise e.
Proof.
  intros E. unfold bind. destruct (m w) as [[a | e' |] w']; simpl in *;
    congruence.
Qed.

(** ** The loop bound is never reached *)

Lemma tame_ret {A} (a : A) : tame (ret (St := St) a).
Proof. intros w. simpl. split; [discriminate | lia]. Qed.

Lemma tame_raise {A} (e : exn) : tame (raise (St := St) (A := A) e).
Proof. intros w. simpl. split; [discriminate | lia]. Qed.

Lemma tame_get_state : tame (get_state (St := St)).
Proof. intros w. simpl. split; [discriminate | lia]. Qed.

Lemma tame_modify_state (f : St -> St) : tame (modify_state f).
Proof. intros w. simpl. split; [discriminate | lia]. Qed.

Lemma tame_print (text : pystr) : tame (print (St := St) text).
Proof. intros w. simpl. split; [discriminate | lia]. Qed.

Lemma tame_digits_check (n : Z) : tame (digits_check (St := St) n).
Proof.
  unfold digits_check. destruct (has_text n); [apply tame_ret | apply tame_raise].
Qed.

Lemma tame_input (prompt : pystr) : tame (input (St := St) prompt).
Proof.
  intros w. unfold input. destruct (stdin w); simpl;
    (split; [discriminate | lia]).
Qed.

Lemma eats_input (prompt : pystr) : eats (input (St := St) prompt).
Proof.
  intros w a. unfold input. destruct (stdin w); simpl;
    [discriminate | lia].
Qed.

Lemma tame_bind {A B} (m : M St A) (k : A -> M St B) :
  tame m -> (forall a, tame (k a)) -> tame (bind m k).
Proof.
  intros Hm Hk w. unfold bind. specialize (Hm w).
  destruct (m w) as [[a | e |] w1]; simpl in *.
  - specialize (Hk a w1). destruct Hk as [Hk1 Hk2]. split; [exact Hk1 | lia].
  - split; [discriminate | tauto].
  - tauto.
Qed.

Lemma eats_bind_l {A B} (m : M St A) (k : A -> M St B) :
  eats m -> (forall a, tame (k a)) -> eats (bind m k).
Proof.
  intros Hm Hk w b. unfold bind. specialize (Hm w).
  destruct (m w) as [[a | e |] w1]; simpl in *; try discriminate.
  intros Hb. specialize (Hm a eq_refl). destruct (Hk a w1) as [_ Hle]. lia.
Qed.

Lemma eats_bind_r {A B} (m : M St A) (k : A -> M St B) :
  tame m -> (forall a, eats (k a)) -> eats (bind m k).
Proof.
  intros Hm Hk w b. unfold bind. destruct (Hm w) as [_ Hle].
  destruct (m w) as [[a | e |] w1]; simpl in *; try discriminate.
  intros Hb. specialize (Hk a w1 b Hb). lia.
Qed.

Lemma tame_iter {L A} (body : L -> M St (step L A)) :
  (forall l, tame (body l)) -> (forall l, eats (body l)) ->
  forall fuel l w,
    (length (stdin w) < fuel)%nat ->
    fst (iter fuel body l w) <> Timeout /\
    (length (stdin (snd (iter fuel body l w))) <= length (stdin w))%nat.
Proof.
  intros Ht He. induction fuel as [|fuel IH]; intros l w Hlt; [lia |].
  simpl. unfold bind.
  destruct (Ht l w) as [Hnt Hle]. pose proof (He l w) as Hlt'.
  destruct (body l w) as [[[l' | a] | e |] w1]; simpl in *.
  - specialize (Hlt' _ eq_refl).
    destruct (IH l' w1 ltac:(lia)) as [H1 H2]. split; [exact H1 | lia].
  - split; [discriminate | exact Hle].
  - split; [discriminate | exact Hle].
  - contradiction.
Qed.

Lemma tame_while_true {L A} (body : L -> M St (step L A)) (l : L) :
  (forall l, tame (body l)) -> (forall l, eats (body l)) ->
  tame (while_true body l).
Proof.
  intros Ht He w. unfold while_true. apply tame_iter; [exact Ht | exact He | lia].
Qed.

Lemma eats_iter {L A} (body : L -> M St (step L A)) :
  (forall l, tame (body l)) -> (forall l, eats (body l)) ->
  forall fuel l, eats (iter fuel body l).
Proof.
  intros Ht He. induction fuel as [|fuel IH]; intros l w a; [discriminate |].
  simpl. unfold bind.
  destruct (Ht l w) as [_ Hle]. pose proof (He l w) as Hlt.
  destruct (body l w) as [[[l' | a'] | e |] w1]; simpl in *; try discriminate.
  - intros Ha. specialize (Hlt _ eq_refl). specialize (IH l' w1 a Ha). lia.
  - intros _. apply (Hlt _ eq_refl).
Qed.

Lemma eats_while_true {L A} (body : L -> M St (step L A)) (l : L) :
  (forall l, tame (body l)) -> (forall l, eats (body l)) ->
  eats (while_true body l).
Proof. intros Ht He w. unfold while_true. apply eats_iter; assumption. Qed.

(** Any bound above the number of lines left gives the same run. *)
Lemma iter_fuel {L A} (body : L -> M St (step L A)) :
  (forall l, tame (body l)) -> (forall l, eats (body l)) ->
  forall (n m : nat) l w,
    (length (stdin w) < n)%nat -> (length (stdin w) < m)%nat ->
    iter n body l w = iter m body l w.
Proof.
  intros Ht He. induction n as [|n IH]; intros m l w Hn Hm; [lia |].
  destruct m as [|m]; [lia |]. simpl. unfold bind.
  pose proof (He l w) as Hlt.
  destruct (body l w) as [[[l' | a] | e |] w1]; try reflexivity.
  specialize (Hlt _ eq_refl). simpl in Hlt. apply IH; lia.
Qed.

Lemma while_true_unfold {L A} (body : L -> M St (step L A)) (l : L) (w : world St) :
  (forall l, tame (body l)) -> (forall l, eats (body l)) ->
  while_true body l w =
  bind (body l) (fun r => match r with
                          | Continue l' => while_true body l'
                          | Return a => ret a
                          end) w.
Proof.
  intros Ht He. unfold while_true at 1. simpl. unfold bind.
  pose proof (He l w) as Hlt.
  destruct (body l w) as [[[l' | a] | e |] w1]; try reflexivity.
  specialize (Hlt _ eq_refl). simpl in Hlt.
  unfold while_true. apply (iter_fuel body Ht He); lia.
Qed.

Lemma tame_for_each {A} (xs : list A) (body : A -> M St unit) :
  (forall x, tame (body x)) -> tame (for_each xs body).
Proof.
  intros Hb. induction xs as [|x xs IH]; simpl;
    [apply tame_ret | apply tame_bind; [apply Hb | intros _; exact IH]].
Qed.

Lemma tame_for_acc {A L} (xs : list A) (body : L -> A -> M St L) :
  (forall acc x, tame (body acc x)) -> forall acc, tame (for_acc xs acc body).
Proof.
  intros Hb. induction xs as [|x xs IH]; intros acc; simpl;
    [apply tame_ret | apply tame_bind; [apply Hb | intros acc'; apply IH]].
Qed.

(** ** The state of the session is left alone *)

Lemma frame_ret {A} (a : A) : frame (ret (St := St) a).
Proof. intros w. reflexivity. Qed.

Lemma frame_raise {A} (e : exn) : frame (raise (St := St) (A := A) e).
Proof. intros w. reflexivity. Qed.

Lemma frame_get_state : frame (get_state (St := St)).
Proof. intros w. reflexivity. Qed.

Lemma frame_print (text : pystr) : frame (print (St := St) text).
Proof. intros w. reflexivity. Qed.

Lemma frame_digits_check (n : Z) : frame (digits_check (St := St) n).
Proof. intros w. unfold digits_check. destruct (has_text n); reflexivity. Qed.

Lemma frame_input (prompt : pystr) : frame (input (St := St) prompt).
Proof. intros w. unfold input. destruct (stdin w); reflexivity. Qed.

Lemma frame_bind {A B} (m : M St A) (k : A -> M St B) :
  frame m -> (forall a, frame (k a)) -> frame (bind m k).
Proof.
  intros Hm Hk w. unfold bind. specialize (Hm w).
  destruct (m w) as [[a | e |] w1]; simpl in *; try exact Hm.
  rewrite (Hk a w1). exact Hm.
Qed.

Lemma frame_iter {L A} (body : L -> M St (step L A)) :
  (forall l, frame (body l)) -> forall fuel l, frame (iter fuel body l).
Proof.
  intros Hb. induction fuel as [|fuel IH]; intros l; simpl.
  - intros w. reflexivity.
  - apply frame_bind; [apply Hb |].
    intros [l' | a]; [apply IH | apply frame_ret].
Qed.

Lemma frame_while_true {L A} (body : L -> M St (step L A)) (l : L) :
  (forall l, frame (body l)) -> frame (while_true body l).
Proof. intros Hb w. unfold while_true. apply frame_iter. exact Hb. Qed.

Lemma frame_for_each {A} (xs : list A) (body : A -> M St unit) :
  (forall x, frame (body x)) -> frame (for_each xs body).
Proof.
  intros Hb. induction xs as [|x xs IH]; simpl;
    [apply frame_ret | apply frame_bind; [apply Hb | intros _; exact IH]].
Qed.

Lemma frame_for_acc {A L} (xs : list A) (body : L -> A -> M St L) :
  (forall acc x, frame (body acc x)) -> forall acc, frame (for_acc xs acc body).
Proof.
  intros Hb. induction xs as [|x xs IH]; intros acc; simpl;
    [apply frame_ret | apply frame_bind; [apply Hb | intros acc'; apply IH]].
Qed.

(** ** What a computation returns *)

Lemma post_ret {A} (Q : A -> Prop) (a : A) : Q a -> post Q (ret (St := St) a).
Proof. intros H w a' [= <-]. exact H. Qed.

Lemma post_raise {A} (Q : A -> Prop) (e : exn) : post Q (raise (St := St) e).
Proof. intros w a. discriminate. Qed.

Lemma post_bind {A B} (P : A -> Prop) (Q : B -> Prop)
      (m : M St A) (k : A -> M St B) :
  post P m -> (forall a, P a -> post Q (k a)) -> post Q (bind m k).
Proof.
  intros Hm Hk w b. unfold bind. specialize (Hm w).
  destruct (m w) as [[a | e |] w1]; simpl in *; try discriminate.
  apply (Hk a (Hm a eq_refl) w1).
Qed.

Lemma post_any {A} (m : M St A) : post (fun _ => True) m.
Proof. intros w a _. exact I. Qed.

Lemma post_iter {L A} (Inv : L -> Prop) (Q : A -> Prop)
      (body : L -> M St (step L A)) :
  (forall l, Inv l ->
             post (fun r => match r with
                            | Continue l' => Inv l'
                            | Return a => Q a
                            end) (body l)) ->
  forall fuel l, Inv l -> post Q (iter fuel body l).
Proof.
  intros Hb. induction fuel as [|fuel IH]; intros l Hl; simpl.
  - intros w a. discriminate.
  - eapply post_bind; [apply Hb; exact Hl |].
    intros [l' | a] H; [apply IH; exact H | apply post_ret; exact H].
Qed.

Lemma post_while_true {L A} (Inv : L -> Prop) (Q : A -> Prop)
      (body : L -> M St (step L A)) (l : L) :
  (forall l, Inv l ->
             post (fun r => match r with
                            | Continue l' => Inv l'
                            | Return a => Q a
                            end) (body l)) ->
  Inv l -> post Q (while_true body l).
Proof.
  intros Hb Hl w. unfold while_true. apply (post_iter Inv Q body Hb); exact Hl.
Qed.

(** ** Exceptions that are never raised *)

Lemma avoids_ret {A} e (a : A) : avoids e (ret (St := St) a).
Proof. intros w. discriminate. Qed.

Lemma avoids_print e (text : pystr) : avoids e (print (St := St) text).
Proof. intros w. discriminate. Qed.

Lemma avoids_get_state e : avoids e (get_state (St := St)).
Proof. intros w. discriminate. Qed.

Lemma avoids_modify_state e (f : St -> St) : avoids e (modify_state f).
Proof. intros w. discriminate. Qed.

Lemma avoids_digits_check e (n : Z) :
  e <> ValueError_str_digits -> avoids e (digits_check (St := St) n).
Proof.
  intros He w. unfold digits_check. destruct (has_text n); simpl; congruence.
Qed.

Lemma avoids_input (prompt : pystr) :
  avoids TypeError (input (St := St) prompt).
Proof. intros w. unfold input. destruct (stdin w); discriminate. Qed.

Lemma avoids_bind {A B} e (P : A -> Prop) (m : M St A) (k : A -> M St B) :
  avoids e m -> post P m -> (forall a, P a -> avoids e (k a)) ->
  avoids e (bind m k).
Proof.
  intros Hm HP Hk w. unfold bind. specialize (Hm w). specialize (HP w).
  destruct (m w) as [[a | e' |] w1]; simpl in *.
  - apply (Hk a (HP a eq_refl)).
  - intros [= ->]. apply Hm. reflexivity.
  - discriminate.
Qed.

Lemma avoids_iter {L A} e (Inv : L -> Prop) (body : L -> M St (step L A)) :
  (forall l, Inv l -> avoids e (body l)) ->
  (forall l, Inv l ->
             post (fun r => match r with
                            | Continue l' => Inv l'
                            | Return _ => True
                            end) (body l)) ->
  forall fuel l, Inv l -> avoids e (iter fuel body l).
Proof.
  intros Hb Hinv. induction fuel as [|fuel IH]; intros l Hl; simpl.
  - intros w. discriminate.
  - eapply avoids_bind; [apply Hb; exact Hl | apply Hinv; exact Hl |].
    intros [l' | a] H; [apply IH; exact H | apply avoids_ret].
Qed.

Lemma avoids_while_true {L A} e (Inv : L -> Prop)
      (body : L -> M St (step L A)) (l : L) :
  (forall l, Inv l -> avoids e (body l)) ->
  (forall l, Inv l ->
             post (fun r => match r with
                            | Continue l' => Inv l'
                            | Return _ => True
                            end) (body l)) ->
  Inv l -> avoids e (while_true body l).
Proof.
  intros Hb Hinv Hl w. unfold while_true.
  apply (avoids_iter e Inv body Hb Hinv); exact Hl.
Qed.

Lemma avoids_for_each {A} e (xs : list A) (body : A -> M St unit) :
  (forall x, avoids e (body x)) -> avoids e (for_each xs body).
Proof.
  intros Hb. induction xs as [|x xs IH]; simpl; [apply avoids_ret |].
  eapply avoids_bind; [apply Hb | apply post_any | intros _ _; exact IH].
Qed.

(** ** The state of the session moves along a preorder *)

Section Steps.
Variable R : St -> St -> Prop.
Hypothesis R_refl : forall st, R st st.
Hypothesis R_trans : forall a b c, R a b -> R b c -> R a c.

Lemma steps_frame {A} (m : M St A) : frame m -> steps R m.
Proof. intros H w. rewrite (H w). apply R_refl. Qed.

Lemma steps_bind {A B} (m : M St A) (k : A -> M St B) :
  steps R m -> (forall a, steps R (k a)) -> steps R (bind m k).
Proof.
  intros Hm Hk w. unfold bind. specialize (Hm w).
  destruct (m w) as [[a | e |] w1]; simpl in *; try exact Hm.
  eapply R_trans; [exact Hm | apply Hk].
Qed.

Lemma steps_iter {L A} (body : L -> M St (step L A)) :
  (forall l, steps R (body l)) -> forall fuel l, steps R (iter fuel body l).
Proof.
  intros Hb. induction fuel as [|fuel IH]; intros l; simpl.
  - intros w. apply R_refl.
  - apply steps_bind; [apply Hb |].
    intros [l' | a]; [apply IH | apply steps_frame, frame_ret].
Qed.

Lemma steps_while_true {L A} (body : L -> M St (step L A)) (l : L) :
  (forall l, steps R (body l)) -> steps R (while_true body l).
Proof. intros Hb w. unfold while_true. apply steps_iter. exact Hb. Qed.
End Steps.

(** ** Calls of [money] *)

Lemma tame_money_call (pence : Z) : tame (money_call (St := St) pence).
Proof.
  unfold money_call.
  apply tame_bind; [apply tame_digits_check | intros _; apply tame_ret].
Qed.

Lemma frame_money_call (pence : Z) : frame (money_call (St := St) pence).
Proof.
  unfold money_call.
  apply frame_bind; [apply frame_digits_check | intros _; apply frame_ret].
Qed.

Lemma avoids_money_call e (pence : Z) :
  e <> ValueError_str_digits -> avoids e (money_call (St := St) pence).
Proof.
  intros He. unfold money_call.
  eapply avoids_bind;
    [apply avoids_digits_check; exact He | apply post_any
     | intros _ _; apply avoids_ret].
Qed.

Lemma post_money_call (pence : Z) :
  post (fun text => text = money pence) (money_call (St := St) pence).
Proof.
  unfold money_call.
  eapply post_bind; [apply post_any | intros _ _; apply post_ret; reflexivity].
Qed.

Lemma tame_wip_money_call (pence : Z) : tame (Wip.money_call (St := St) pence).
Proof.
  unfold Wip.money_call.
  apply tame_bind; [apply tame_digits_check | intros _; apply tame_ret].
Qed.

Lemma frame_wip_money_call (pence : Z) : frame (Wip.money_call (St := St) pence).
Proof.
  unfold Wip.money_call.
  apply frame_bind; [apply frame_digits_check | intros _; apply frame_ret].
Qed.
End Rules.

#[export] Hint Resolve tame_ret tame_raise tame_get_state tame_modify_state
  tame_print tame_input tame_bind tame_while_true tame_for_each tame_for_acc
  tame_digits_check tame_money_call tame_wip_money_call
  eats_input eats_while_true
  frame_ret frame_raise frame_get_state frame_print frame_input frame_bind
  frame_while_true frame_for_each frame_for_acc
  frame_digits_check frame_money_call frame_wip_money_call : console.

Ltac case_head :=
  match goal with
  | |- _ (match ?x with _ => _ end) => destruct x
  | |- _ _ (match ?x with _ => _ end) => destruct x
  end.

Ltac tame_tac :=
  repeat (intros;
          first [ solve [auto with console]
                | apply tame_bind
                | apply tame_for_each
                | apply tame_for_acc
                | case_head ]).

Ltac frame_tac :=
  repeat (intros;
          first [ solve [auto with console]
                | apply frame_bind
                | apply frame_while_true
                | apply frame_for_each
                | apply frame_for_acc
                | case_head ]).

(** A loop whose body starts by reading a line. *)
Ltac reading_loop :=
  first [ apply tame_while_true | apply eats_while_true ];
  [ intros; tame_tac
  | intros; apply eats_bind_l; [apply eats_input | tame_tac] ].

(* ================================================================== *)
(** * The interactive readers: properties *)
(* ================================================================== *)

Section ReaderFacts.
Variable py : builtins.
Context {St : Type}.

Lemma tame_print_main_menu : tame (print_main_menu (St := St)).
Proof. unfold print_main_menu. tame_tac. Qed.

Lemma frame_print_main_menu : frame (print_main_menu (St := St)).
Proof. unfold print_main_menu. frame_tac. Qed.

Lemma tame_read_choice : tame (read_choice (St := St) py).
Proof. unfold read_choice. tame_tac. Qed.

Lemma eats_read_choice : eats (read_choice (St := St) py).
Proof. unfold read_choice. apply eats_bind_l; [apply eats_input | tame_tac]. Qed.

Lemma frame_read_choice : frame (read_choice (St := St) py).
Proof. unfold read_choice. frame_tac. Qed.

Lemma tame_read_yes_no prompt : tame (read_yes_no (St := St) py prompt).
Proof. unfold read_yes_no. reading_loop. Qed.

Lemma eats_read_yes_no prompt : eats (read_yes_no (St := St) py prompt).
Proof. unfold read_yes_no. reading_loop. Qed.

Lemma frame_read_yes_no prompt : frame (read_yes_no (St := St) py prompt).
Proof. unfold read_yes_no. frame_tac. Qed.

Lemma tame_read_positive_int prompt min_value :
  tame (read_positive_int (St := St) py prompt min_value).
Proof. unfold read_positive_int. reading_loop. Qed.

Lemma eats_read_positive_int prompt min_value :
  eats (read_positive_int (St := St) py prompt min_value).
Proof. unfold read_positive_int. reading_loop. Qed.

Lemma frame_read_positive_int prompt min_value :
  frame (read_positive_int (St := St) py prompt min_value).
Proof. unfold read_positive_int. frame_tac. Qed.

Lemma tame_read_customer_header : tame (read_customer_header (St := St) py).
Proof.
  unfold read_customer_header.
  apply tame_bind; [apply tame_print | intros _].
  apply tame_bind; [apply tame_print | intros _].
  reading_loop.
Qed.

Lemma eats_read_customer_header : eats (read_customer_header (St := St) py).
Proof.
  unfold read_customer_header.
  apply eats_bind_r; [apply tame_print | intros _].
  apply eats_bind_r; [apply tame_print | intros _].
  reading_loop.
Qed.

Lemma frame_read_customer_header : frame (read_customer_header (St := St) py).
Proof. unfold read_customer_header. frame_tac. Qed.

Lemma tame_read_item_lines nights flag :
  tame (read_item_lines (St := St) py nights flag).
Proof.
  unfold read_item_lines.
  do 3 (apply tame_bind; [apply tame_print | intros _]).
  reading_loop.
Qed.

Lemma eats_read_item_lines nights flag :
  eats (read_item_lines (St := St) py nights flag).
Proof.
  unfold read_item_lines.
  do 3 (apply eats_bind_r; [apply tame_print | intros _]).
  reading_loop.
Qed.

Lemma frame_read_item_lines nights flag :
  frame (read_item_lines (St := St) py nights flag).
Proof. unfold read_item_lines. frame_tac. Qed.
End ReaderFacts.

#[export] Hint Resolve tame_print_main_menu frame_print_main_menu
  tame_read_choice eats_read_choice frame_read_choice
  tame_read_yes_no eats_read_yes_no frame_read_yes_no
  tame_read_positive_int eats_read_positive_int frame_read_positive_int
  tame_read_customer_header eats_read_customer_header frame_read_customer_header
  tame_read_item_lines eats_read_item_lines frame_read_item_lines : console.

Ltac avoids_tac :=
  repeat (intros;
          first [ apply avoids_ret | apply avoids_print | apply avoids_input
                | apply avoids_get_state | apply avoids_modify_state
                | apply avoids_digits_check; discriminate
                | apply avoids_money_call; discriminate
                | apply avoids_for_each
                | eapply avoids_bind; [| apply post_any | intros ? _]
                | apply (avoids_while_true TypeError (fun _ => True));
                  [intros ? _ | intros ? _ ? [?|?] _; exact I | exact I]
                | case_head ]).

Section ReaderResults.
Variable py : builtins.
Context {St : Type}.

Lemma post_read_positive_int prompt min_value :
  post (fun n => min_value <= n) (read_positive_int (St := St) py prompt min_value).
Proof.
  unfold read_positive_int.
  apply (post_while_true (fun _ => True)); [| exact I].
  intros [] _. eapply post_bind; [apply post_any | intros s _].
  destruct (py_int py (str_strip py s)) as [n|].
  - destruct (n <? min_value) eqn:E.
    + eapply post_bind; [apply post_any | intros _ _; apply post_ret; exact I].
    + apply post_ret. apply Z.ltb_ge. exact E.
  - eapply post_bind; [apply post_any | intros _ _; apply post_ret; exact I].
Qed.

Lemma post_read_choice :
  post (fun choice => match choice with
                      | Some n => n = 1 \/ n = 2 \/ n = 3
                      | None => True
                      end) (read_choice (St := St) py).
Proof.
  unfold read_choice. eapply post_bind; [apply post_any | intros s _].
  destruct (py_int py (str_strip py s)) as [n|]; apply post_ret; [| exact I].
  destruct (n =? 1) eqn:E1; [apply Z.eqb_eq in E1; simpl; lia |].
  destruct (n =? 2) eqn:E2; [apply Z.eqb_eq in E2; simpl; lia |].
  destruct (n =? 3) eqn:E3; [apply Z.eqb_eq in E3; simpl; lia |].
  simpl. exact I.
Qed.

Lemma parse_item_line_Parsed raw code qty :
  _parse_item_line py raw = Parsed (code, qty) ->
  1 <= qty /\ exists item, find_item py code = Some item.
Proof.
  unfold _parse_item_line.
  destruct (map (str_strip py) (split_comma raw)) as [|code_s [|qty_s [|? ?]]];
    try discriminate.
  destruct (find_item py (str_upper py code_s)) as [item|] eqn:Efind;
    [| discriminate].
  destruct (py_int py qty_s) as [n|]; [| discriminate].
  destruct (n <? 1) eqn:E; [discriminate |].
  intros [= <- <-]. split; [apply Z.ltb_ge; exact E | exists item; exact Efind].
Qed.

Lemma priced_line_ok item code qty nights flag :
  find_item py code = Some item -> 1 <= qty ->
  line_ok py nights flag (priced_line item code qty nights flag).
Proof.
  intros Hfind Hqty. unfold line_ok, line_priced, priced_line.
  destruct (calc_line_costs (Item.daily_p item) qty nights flag)
    as [[first_p add_p] delay_p] eqn:E.
  cbn [Line.daily_p Line.qty Line.first_night_p Line.additional_nights_p
       Line.extra_delay_p Line.line_total_p Line.code Line.name].
  split; [split; [exact E | reflexivity] |].
  split; [exact Hqty |].
  exists item. split; [exact Hfind | split; reflexivity].
Qed.

Lemma post_read_item_lines nights flag :
  post (fun lines => lines <> [] /\ Forall (line_ok py nights flag) lines)
       (read_item_lines (St := St) py nights flag).
Proof.
  unfold read_item_lines.
  do 3 (eapply post_bind; [apply post_any | intros _ _]).
  apply (post_while_true (Forall (line_ok py nights flag)));
    [| constructor].
  intros lines Hlines. eapply post_bind; [apply post_any | intros raw _].
  destruct (pystr_eqb (str_strip py raw) []).
  - destruct lines as [|ln lines]; simpl.
    + eapply post_bind; [apply post_any | intros _ _; apply post_ret; exact Hlines].
    + apply post_ret. split; [discriminate | exact Hlines].
  - destruct (_parse_item_line py (str_strip py raw)) as [err | [code qty]] eqn:E.
    + eapply post_bind; [apply post_any | intros _ _; apply post_ret; exact Hlines].
    + apply parse_item_line_Parsed in E as [Hqty [item Hfind]].
      rewrite Hfind. apply post_ret.
      apply Forall_app. split; [exact Hlines |].
      constructor; [| constructor]. apply priced_line_ok; assumption.
Qed.

(** After [_parse_item_line] has accepted a line, the second lookup of
    [read_item_lines] finds the item: [TypeError] is never raised. *)
Lemma avoids_read_item_lines nights flag :
  avoids TypeError (read_item_lines (St := St) py nights flag).
Proof.
  unfold read_item_lines.
  do 3 (eapply avoids_bind; [apply avoids_print | apply post_any | intros _ _]).
  apply (avoids_while_true TypeError (fun _ => True)); [| | exact I].
  - intros lines _.
    eapply avoids_bind; [apply avoids_input | apply post_any | intros raw _].
    destruct (pystr_eqb (str_strip py raw) []).
    + destruct (is_empty lines); [| apply avoids_ret].
      eapply avoids_bind;
        [apply avoids_print | apply post_any | intros _ _; apply avoids_ret].
    + destruct (_parse_item_line py (str_strip py raw)) as [err | [code qty]] eqn:E.
      * eapply avoids_bind;
          [apply avoids_print | apply post_any | intros _ _; apply avoids_ret].
      * apply parse_item_line_Parsed in E as [_ [item Hfind]].
        rewrite Hfind. apply avoids_ret.
  - intros lines _ w r _. destruct r; exact I.
Qed.

Lemma avoids_read_yes_no prompt :
  avoids TypeError (read_yes_no (St := St) py prompt).
Proof. unfold read_yes_no. avoids_tac. Qed.

Lemma avoids_read_positive_int prompt min_value :
  avoids TypeError (read_positive_int (St := St) py prompt min_value).
Proof. unfold read_positive_int. avoids_tac. Qed.

Lemma avoids_read_customer_header :
  avoids TypeError (read_customer_header (St := St) py).
Proof. unfold read_customer_header. avoids_tac. Qed.

Lemma avoids_read_choice : avoids TypeError (read_choice (St := St) py).
Proof. unfold read_choice. avoids_tac. Qed.

Lemma avoids_print_main_menu e : avoids e (print_main_menu (St := St)).
Proof. unfold print_main_menu. apply avoids_for_each. intros. apply avoids_print. Qed.
End ReaderResults.

(* ================================================================== *)
(** * The hire flow: properties *)
(* ================================================================== *)
Lemma len_app {A} (a b : list A) : len (a ++ b) = len a + len b.
Proof. unfold len. rewrite length_app. lia. Qed.

Lemma ids_from_app (first : Z) (n m : nat) :
  ids_from first (n + m) = ids_from first n ++ ids_from (first + Z.of_nat n) m.
Proof.
  revert first. induction n as [|n IH]; intros first; simpl.
  - rewrite Z.add_0_r. reflexivity.
  - rewrite IH. do 3 f_equal. lia.
Qed.

Lemma sum_of_from {A} (f : A -> Z) (xs : list A) (acc : Z) :
  fold_left (fun acc x => acc + f x) xs acc = acc + sum_of f xs.
Proof.
  unfold sum_of. revert acc. induction xs as [|x xs IH]; intros acc; simpl.
  - lia.
  - rewrite IH, (IH (f x)). lia.
Qed.

Lemma sum_of_cons {A} (f : A -> Z) (x : A) (xs : list A) :
  sum_of f (x :: xs) = f x + sum_of f xs.
Proof. unfold sum_of at 1. simpl. rewrite sum_of_from. lia. Qed.

Lemma sum_of_app {A} (f : A -> Z) (xs ys : list A) :
  sum_of f (xs ++ ys) = sum_of f xs + sum_of f ys.
Proof.
  induction xs as [|x xs IH]; simpl; [reflexivity |].
  rewrite !sum_of_cons, IH. lia.
Qed.

Lemma sum_of_ext {A} (f g : A -> Z) (xs : list A) :
  Forall (fun x => f x = g x) xs -> sum_of f xs = sum_of g xs.
Proof.
  induction 1 as [|x xs Hx _ IH]; [reflexivity |].
  rewrite !sum_of_cons, Hx, IH. reflexivity.
Qed.

Lemma grows_refl py st : grows py st st.
Proof.
  exists []. unfold extends_by. simpl. rewrite app_nil_r.
  repeat split; [unfold len; simpl; lia | constructor].
Qed.

Lemma grows_trans py a b c : grows py a b -> grows py b c -> grows py a c.
Proof.
  intros [n1 (R1 & N1 & I1 & O1)] [n2 (R2 & N2 & I2 & O2)].
  exists (n1 ++ n2). unfold extends_by.
  rewrite R2, R1, N2, N1, len_app, map_app, length_app, ids_from_app, I1, I2.
  rewrite <- app_assoc. unfold len in *.
  repeat split; [lia | | apply Forall_app; split; assumption].
  rewrite N1. reflexivity.
Qed.

Lemma new_hire_ok py st header nights flag lines :
  1 <= nights -> lines <> [] -> Forall (line_ok py nights flag) lines ->
  hire_ok py (new_hire st header nights flag lines).
Proof.
  intros Hn Hne Hl. unfold hire_ok, totals_ok, recomputed_total, recomputed_late.
  cbn [new_hire Hire.nights Hire.lines Hire.returned_on_time Hire.total_p
       Hire.extra_delay_p].
  repeat split; try assumption.
  - apply sum_of_ext. eapply Forall_impl; [| exact Hl].
    intros ln [[Hc Ht] _]. cbv beta. rewrite Hc. exact Ht.
  - apply sum_of_ext. eapply Forall_impl; [| exact Hl].
    intros ln [[Hc Ht] _]. cbv beta. rewrite Hc. reflexivity.
Qed.

Lemma saved_one_grows py st st' : saved_one py st st' -> grows py st st'.
Proof.
  intros (header & nights & flag & lines & Hn & Hne & Hl & ->).
  exists [new_hire st header nights flag lines]. unfold extends_by.
  cbn. repeat split; [constructor; [| constructor]].
  apply new_hire_ok; assumption.
Qed.

Lemma round_effect_grows py st st' : round_effect py st st' -> grows py st st'.
Proof. intros [-> | H]; [apply grows_refl | apply saved_one_grows; exact H]. Qed.

Ltac run_bind :=
  match goal with
  | |- context [bind ?m ?k ?w] =>
    let E := fresh "E" in
    let a := fresh "a" in
    let e := fresh "e" in
    let w' := fresh "w" in
    destruct (m w) as [[a | e |] w'] eqn:E;
    [ rewrite (bind_Ok m k w a w' E)
    | rewrite (bind_Raise m k w e w' E)
    | rewrite (bind_Timeout m k w w' E) ]
  end.

Ltac use_frame F E :=
  let H := fresh "Hf" in
  pose proof F as H; rewrite E in H; cbn [snd] in H.

Ltac frame_tail :=
  match goal with
  | |- context [session (snd (?m ?w))] =>
    let H := fresh "Htail" in
    assert (H : frame m) by frame_tac; rewrite (H w); clear H
  end.

Lemma hire_round_effect py (w : world state) :
  round_effect py (session w) (session (snd (hire_round py tt w))).
Proof.
  unfold hire_round.
  run_bind; use_frame (frame_read_customer_header py w) E;
    [| left; exact Hf | left; exact Hf].
  destruct a as [header|]; [| frame_tail; left; exact Hf].
  run_bind; use_frame (frame_read_positive_int py (u "Number of nights: ") 1 w0) E0;
    [| left; cbn [snd]; congruence | left; cbn [snd]; congruence].
  pose proof (post_read_positive_int py (u "Number of nights: ") 1 w0 a) as Hn.
  rewrite E0 in Hn. specialize (Hn eq_refl).
  run_bind; use_frame (frame_read_yes_no py (u "Returned on time (y/n)? ") w1) E1;
    [| left; cbn [snd]; congruence | left; cbn [snd]; congruence].
  run_bind; use_frame (frame_read_item_lines py a a0 w2) E2;
    [| left; cbn [snd]; congruence | left; cbn [snd]; congruence].
  pose proof (post_read_item_lines py a a0 w2 a1) as Hl.
  rewrite E2 in Hl. destruct (Hl eq_refl) as [Hne Hall].
  rewrite (bind_Ok get_state _ w3 (session w3) w3 eq_refl).
  cbv zeta.
  rewrite (bind_Ok (modify_state _) _ _ tt _ eq_refl).
  rewrite (bind_Ok (modify_state _) _ _ tt _ eq_refl).
  frame_tail. cbn [session].
  right. exists header, a, a0, a1.
  repeat split; try assumption. congruence.
Qed.

(** A round that has read a header, the nights, the flag and the lines
    saves the hire made of them, whatever comes after the save. *)
Lemma hire_round_saves py (w : world state) header w1 nights w2 flag w3 lines w4 :
  read_customer_header py w = (Ok (Some header), w1) ->
  read_positive_int py (u "Number of nights: ") 1 w1 = (Ok nights, w2) ->
  read_yes_no py (u "Returned on time (y/n)? ") w2 = (Ok flag, w3) ->
  read_item_lines py nights flag w3 = (Ok lines, w4) ->
  session (snd (hire_round py tt w)) =
  bump_customer_id
    (append_hire (new_hire (session w) header nights flag lines) (session w)).
Proof.
  intros E1 E2 E3 E4. unfold hire_round.
  use_frame (frame_read_customer_header py w) E1.
  use_frame (frame_read_positive_int py (u "Number of nights: ") 1 w1) E2.
  use_frame (frame_read_yes_no py (u "Returned on time (y/n)? ") w2) E3.
  use_frame (frame_read_item_lines py nights flag w3) E4.
  rewrite (bind_Ok _ _ _ _ _ E1), (bind_Ok _ _ _ _ _ E2), (bind_Ok _ _ _ _ _ E3),
    (bind_Ok _ _ _ _ _ E4).
  rewrite (bind_Ok get_state _ w4 (session w4) w4 eq_refl). cbv zeta.
  rewrite (bind_Ok (modify_state _) _ _ tt _ eq_refl).
  rewrite (bind_Ok (modify_state _) _ _ tt _ eq_refl).
  frame_tail. cbn [session]. congruence.
Qed.

Lemma tame_hire_round py l : tame (hire_round py l).
Proof. unfold hire_round. tame_tac. Qed.

Lemma eats_hire_round py l : eats (hire_round py l).
Proof.
  unfold hire_round.
  apply eats_bind_l; [apply eats_read_customer_header | tame_tac].
Qed.

Lemma steps_hire_round py l : steps (grows py) (hire_round py l).
Proof. destruct l. intros w. apply round_effect_grows, hire_round_effect. Qed.

Lemma tame_run_hire_flow py : tame (run_hire_flow py).
Proof.
  unfold run_hire_flow.
  apply tame_while_true; [apply tame_hire_round | apply eats_hire_round].
Qed.

Lemma steps_run_hire_flow py : steps (grows py) (run_hire_flow py).
Proof.
  unfold run_hire_flow.
  apply steps_while_true;
    [apply grows_refl | apply grows_trans | apply steps_hire_round].
Qed.

Lemma tame_run_earnings_report : tame run_earnings_report.
Proof. unfold run_earnings_report. tame_tac. Qed.

Lemma frame_run_earnings_report : frame run_earnings_report.
Proof. unfold run_earnings_report. frame_tac. Qed.

#[export] Hint Resolve tame_hire_round eats_hire_round tame_run_hire_flow
  tame_run_earnings_report frame_run_earnings_report : console.

Lemma tame_menu_round py l : tame (menu_round py l).
Proof. unfold menu_round. tame_tac. Qed.

Lemma eats_menu_round py l : eats (menu_round py l).
Proof.
  unfold menu_round.
  apply eats_bind_r; [apply tame_print_main_menu | intros _].
  apply eats_bind_l; [apply eats_read_choice | tame_tac].
Qed.

Lemma steps_menu_round py l : steps (grows py) (menu_round py l).
Proof.
  unfold menu_round.
  pose proof (grows_refl py) as Hr. pose proof (grows_trans py) as Ht.
  apply steps_bind; [exact Ht | apply steps_frame; [exact Hr | frame_tac] |].
  intros _. apply steps_bind; [exact Ht | apply steps_frame; [exact Hr | frame_tac] |].
  intros [choice|]; [| apply steps_frame; [exact Hr | frame_tac]].
  destruct (choice =? 1).
  { apply steps_bind; [exact Ht | apply steps_run_hire_flow |].
    intros _. apply steps_frame; [exact Hr | frame_tac]. }
  apply steps_frame; [exact Hr | frame_tac].
Qed.

Lemma tame_main py : tame (main py).
Proof.
  unfold main. apply tame_bind; [apply tame_modify_state | intros _].
  apply tame_while_true; [apply tame_menu_round | apply eats_menu_round].
Qed.

Lemma run_grows py ins : grows py AppState_init (session (snd (run py ins))).
Proof.
  unfold run, main.
  rewrite (bind_Ok (modify_state _) _ _ tt _ eq_refl).
  match goal with
  | |- grows py _ (session (snd (?m ?w))) =>
    change (grows py (session w) (session (snd (m w))))
  end.
  apply steps_while_true;
    [apply grows_refl | apply grows_trans | apply steps_menu_round].
Qed.

Lemma run_total py ins : fst (run py ins) <> Timeout.
Proof. unfold run. apply tame_main. Qed.
Lemma avoids_hire_round py l : avoids TypeError (hire_round py l).
Proof.
  unfold hire_round.
  eapply avoids_bind; [apply avoids_read_customer_header | apply post_any |].
  intros [header|] _; [| avoids_tac].
  eapply avoids_bind; [apply avoids_read_positive_int | apply post_any |].
  intros nights _.
  eapply avoids_bind; [apply avoids_read_yes_no | apply post_any |].
  intros flag _.
  eapply avoids_bind; [apply avoids_read_item_lines | apply post_any |].
  intros lines _.
  do 13 (eapply avoids_bind; [avoids_tac | apply post_any | intros ? _]).
  eapply avoids_bind; [apply avoids_read_yes_no | apply post_any |].
  intros again _. destruct (negb again); avoids_tac.
Qed.

Lemma avoids_run_hire_flow py : avoids TypeError (run_hire_flow py).
Proof.
  unfold run_hire_flow.
  apply (avoids_while_true TypeError (fun _ => True)); [| | exact I].
  - intros l _. apply avoids_hire_round.
  - intros l _ w r _. destruct r; exact I.
Qed.

Lemma avoids_run_earnings_report : avoids TypeError run_earnings_report.
Proof. unfold run_earnings_report. avoids_tac. Qed.

Lemma avoids_menu_round py l : avoids TypeError (menu_round py l).
Proof.
  unfold menu_round.
  eapply avoids_bind; [apply avoids_print_main_menu | apply post_any | intros _ _].
  eapply avoids_bind; [apply avoids_read_choice | apply post_any |].
  intros [choice|] _; [| avoids_tac].
  destruct (choice =? 1).
  { eapply avoids_bind; [apply avoids_run_hire_flow | apply post_any |].
    intros; apply avoids_ret. }
  destruct (choice =? 2).
  { eapply avoids_bind; [apply avoids_run_earnings_report | apply post_any |].
    intros; apply avoids_ret. }
  avoids_tac.
Qed.

Lemma avoids_main py : avoids TypeError (main py).
Proof.
  unfold main.
  eapply avoids_bind; [apply avoids_modify_state | apply post_any | intros _ _].
  apply (avoids_while_true TypeError (fun _ => True)); [| | exact I].
  - intros l _. apply avoids_menu_round.
  - intros l _ w r _. destruct r; exact I.
Qed.

(** A run ends with [Goodbye!], when the input is exhausted, or on an
    amount too long to be printed. *)
Lemma run_outcome py ins :
  fst (run py ins) = Ok tt \/ fst (run py ins) = Raise EOFError \/
  fst (run py ins) = Raise ValueError_str_digits.
Proof.
  pose proof (run_total py ins) as Ht.
  pose proof (avoids_main py {| session := AppState_init; stdin := ins; stdout := [] |}) as Ha.
  fold (run py ins) in Ha.
  destruct (fst (run py ins)) as [[] | [| |] |]; auto; contradiction.
Qed.

(** ** What the reports print *)

Lemma emit_nil {St} (w : world St) : emit [] w = w.
Proof. destruct w. unfold emit. simpl. rewrite app_nil_r. reflexivity. Qed.

Lemma emit_emit {St} (a b : list pystr) (w : world St) :
  emit b (emit a w) = emit (a ++ b) w.
Proof. unfold emit. simpl. rewrite map_app, app_assoc. reflexivity. Qed.

Lemma print_emit {St} (text : pystr) (w : world St) :
  print text w = (Ok tt, emit [text] w).
Proof. reflexivity. Qed.

Lemma bind_print {St B} (text : pystr) (k : unit -> M St B) (w : world St) :
  bind (print text) k w = k tt (emit [text] w).
Proof. reflexivity. Qed.

Lemma for_each_print {St A} (f : A -> pystr) (xs : list A) (w : world St) :
  for_each xs (fun x => print (f x)) w = (Ok tt, emit (map f xs) w).
Proof.
  revert w. induction xs as [|x xs IH]; intros w; simpl.
  - rewrite emit_nil. reflexivity.
  - rewrite bind_print, IH, emit_emit. reflexivity.
Qed.

Lemma digits_check_Ok {St} (n : Z) (w : world St) :
  has_text n = true -> digits_check n w = (Ok tt, w).
Proof. intros H. unfold digits_check. rewrite H. reflexivity. Qed.

Lemma digits_check_Raise {St} (n : Z) (w : world St) :
  has_text n = false -> digits_check n w = (Raise ValueError_str_digits, w).
Proof. intros H. unfold digits_check. rewrite H. reflexivity. Qed.

Lemma money_call_Ok {St} (pence : Z) (w : world St) :
  has_text (pence / 100) = true -> money_call pence w = (Ok (money pence), w).
Proof.
  intros H. unfold money_call. rewrite (bind_Ok _ _ _ _ _ (digits_check_Ok _ w H)).
  reflexivity.
Qed.

Lemma money_call_Raise {St} (pence : Z) (w : world St) :
  has_text (pence / 100) = false ->
  money_call pence w = (Raise ValueError_str_digits, w).
Proof.
  intros H. unfold money_call.
  rewrite (bind_Raise _ _ _ _ _ (digits_check_Raise _ w H)). reflexivity.
Qed.

Lemma wip_money_call_Ok {St} (pence : Z) (w : world St) :
  has_text (pence / 100) = true ->
  Wip.money_call pence w = (Ok (Wip.money pence), w).
Proof.
  intros H. unfold Wip.money_call.
  rewrite (bind_Ok _ _ _ _ _ (digits_check_Ok _ w H)). reflexivity.
Qed.

Lemma wip_money_call_Raise {St} (pence : Z) (w : world St) :
  has_text (pence / 100) = false ->
  Wip.money_call pence w = (Raise ValueError_str_digits, w).
Proof.
  intros H. unfold Wip.money_call.
  rewrite (bind_Raise _ _ _ _ _ (digits_check_Raise _ w H)). reflexivity.
Qed.

(** The rows of the report of [hailmary.py]: all of them when the amounts
    can be printed, [ValueError] at the first hire whose amounts cannot. *)
Lemma rows_print (ledger : list (Hire.t bool)) (w : world state) :
  forallb amounts_fit ledger = true ->
  for_each ledger (fun hire =>
    digits_check (Hire.total_p hire / 100) ;;
    digits_check (Hire.extra_delay_p hire / 100) ;;
    print (report_row hire)) w =
  (Ok tt, emit (map report_row ledger) w).
Proof.
  revert w. induction ledger as [|h rest IH]; intros w Hfit; cbn [for_each map].
  - rewrite emit_nil. reflexivity.
  - cbn [forallb] in Hfit. apply andb_true_iff in Hfit as [Hh Hrest].
    unfold amounts_fit in Hh. apply andb_true_iff in Hh as [Hextra Htotal].
    match goal with
    | |- bind ?m ?k w = _ =>
      assert (E : m w = (Ok tt, emit [report_row h] w))
        by (rewrite (bind_Ok _ _ _ _ _ (digits_check_Ok _ w Htotal));
            rewrite (bind_Ok _ _ _ _ _ (digits_check_Ok _ w Hextra));
            reflexivity);
      rewrite (bind_Ok m k w _ _ E)
    end.
    rewrite (IH _ Hrest), emit_emit. reflexivity.
Qed.

Lemma rows_raise (ledger : list (Hire.t bool)) (w : world state) :
  forallb amounts_fit ledger = false ->
  fst (for_each ledger (fun hire =>
         digits_check (Hire.total_p hire / 100) ;;
         digits_check (Hire.extra_delay_p hire / 100) ;;
         print (report_row hire)) w) = Raise ValueError_str_digits.
Proof.
  revert w. induction ledger as [|h rest IH]; intros w Hfit; cbn [for_each];
    [discriminate |].
  cbn [forallb] in Hfit. unfold amounts_fit at 1 in Hfit.
  destruct (has_text (Hire.total_p h / 100)) eqn:Htotal.
  - destruct (has_text (Hire.extra_delay_p h / 100)) eqn:Hextra.
    + cbn [andb] in Hfit.
      match goal with
      | |- fst (bind ?m ?k w) = _ =>
        assert (E : m w = (Ok tt, emit [report_row h] w))
          by (rewrite (bind_Ok _ _ _ _ _ (digits_check_Ok _ w Htotal));
              rewrite (bind_Ok _ _ _ _ _ (digits_check_Ok _ w Hextra));
              reflexivity);
        rewrite (bind_Ok m k w _ _ E)
      end.
      apply IH. exact Hfit.
    + match goal with
      | |- fst (bind ?m ?k w) = _ =>
        assert (E : m w = (Raise ValueError_str_digits, w))
          by (rewrite (bind_Ok _ _ _ _ _ (digits_check_Ok _ w Htotal));
              rewrite (bind_Raise _ _ _ _ _ (digits_check_Raise _ w Hextra));
              reflexivity);
        rewrite (bind_Raise m k w _ _ E)
      end.
      reflexivity.
  - match goal with
    | |- fst (bind ?m ?k w) = _ =>
      assert (E : m w = (Raise ValueError_str_digits, w))
        by (rewrite (bind_Raise _ _ _ _ _ (digits_check_Raise _ w Htotal));
            reflexivity);
      rewrite (bind_Raise m k w _ _ E)
    end.
    reflexivity.
Qed.

Lemma run_earnings_report_prints (w : world state) :
  forallb amounts_fit (hire_records (session w)) = true ->
  run_earnings_report w =
  (Ok tt, emit (report_lines (hire_records (session w))) w).
Proof.
  intros Hfit. unfold run_earnings_report, report_lines.
  rewrite (bind_Ok get_state _ w (session w) w eq_refl).
  destruct (hire_records (session w)) as [|h rest]; [reflexivity |].
  cbn [is_empty]. rewrite !bind_print, (rows_print _ _ Hfit), !emit_emit.
  reflexivity.
Qed.

Lemma run_earnings_report_raises (w : world state) :
  forallb amounts_fit (hire_records (session w)) = false ->
  fst (run_earnings_report w) = Raise ValueError_str_digits.
Proof.
  intros Hfit. unfold run_earnings_report.
  rewrite (bind_Ok get_state _ w (session w) w eq_refl).
  destruct (hire_records (session w)) as [|h rest]; [discriminate |].
  cbn [is_empty]. rewrite !bind_print. apply rows_raise. exact Hfit.
Qed.

Lemma wip_row_print (h : Hire.t pystr) (acc : Z) (w : world Wip.state) :
  amounts_fit h = true ->
  (Wip.money_call (Hire.extra_delay_p h) ;;
   Wip.money_call (Hire.total_p h) ;;
   print (Wip.report_row h) ;;
   ret (acc + Hire.total_p h)) w =
  (Ok (acc + Hire.total_p h), emit [Wip.report_row h] w).
Proof.
  intros Hh. unfold amounts_fit in Hh. apply andb_true_iff in Hh as [Hextra Htotal].
  rewrite (bind_Ok _ _ _ _ _ (wip_money_call_Ok _ w Hextra)).
  rewrite (bind_Ok _ _ _ _ _ (wip_money_call_Ok _ w Htotal)).
  reflexivity.
Qed.

Lemma wip_row_raise (h : Hire.t pystr) (acc : Z) (w : world Wip.state) :
  amounts_fit h = false ->
  (Wip.money_call (Hire.extra_delay_p h) ;;
   Wip.money_call (Hire.total_p h) ;;
   print (Wip.report_row h) ;;
   ret (acc + Hire.total_p h)) w =
  (Raise ValueError_str_digits, w).
Proof.
  intros Hh. unfold amounts_fit in Hh.
  destruct (has_text (Hire.extra_delay_p h / 100)) eqn:Hextra.
  - cbn [andb] in Hh.
    rewrite (bind_Ok _ _ _ _ _ (wip_money_call_Ok _ w Hextra)).
    rewrite (bind_Raise _ _ _ _ _ (wip_money_call_Raise _ w Hh)). reflexivity.
  - rewrite (bind_Raise _ _ _ _ _ (wip_money_call_Raise _ w Hextra)). reflexivity.
Qed.

Lemma wip_rows_print (ledger : list (Hire.t pystr)) (acc : Z) (w : world Wip.state) :
  forallb amounts_fit ledger = true ->
  for_acc ledger acc
          (fun grand_total record =>
             Wip.money_call (Hire.extra_delay_p record) ;;
             Wip.money_call (Hire.total_p record) ;;
             print (Wip.report_row record) ;;
             ret (grand_total + Hire.total_p record)) w =
  (Ok (acc + sum_of Hire.total_p ledger), emit (map Wip.report_row ledger) w).
Proof.
  revert acc w. induction ledger as [|h rest IH]; intros acc w Hfit;
    cbn [for_acc]; cbv beta.
  - rewrite emit_nil. unfold sum_of, ret. simpl. rewrite Z.add_0_r. reflexivity.
  - cbn [forallb] in Hfit. apply andb_true_iff in Hfit as [Hh Hrest].
    rewrite (bind_Ok _ _ _ _ _ (wip_row_print h acc w Hh)).
    rewrite (IH _ _ Hrest), emit_emit, sum_of_cons. do 2 f_equal. lia.
Qed.

Lemma wip_rows_raise (ledger : list (Hire.t pystr)) (acc : Z) (w : world Wip.state) :
  forallb amounts_fit ledger = false ->
  fst (for_acc ledger acc
          (fun grand_total record =>
             Wip.money_call (Hire.extra_delay_p record) ;;
             Wip.money_call (Hire.total_p record) ;;
             print (Wip.report_row record) ;;
             ret (grand_total + Hire.total_p record)) w) =
  Raise ValueError_str_digits.
Proof.
  revert acc w. induction ledger as [|h rest IH]; intros acc w Hfit;
    cbn [for_acc]; cbv beta; [discriminate |].
  cbn [forallb] in Hfit. destruct (amounts_fit h) eqn:Hh.
  - rewrite (bind_Ok _ _ _ _ _ (wip_row_print h acc w Hh)).
    apply IH. exact Hfit.
  - rewrite (bind_Raise _ _ _ _ _ (wip_row_raise h acc w Hh)). reflexivity.
Qed.

Lemma wip_run_earnings_report_prints (w : world Wip.state) :
  wip_amounts_fit (hire_records (session w)) = true ->
  Wip.run_earnings_report w =
  (Ok tt, emit (wip_report_lines (hire_records (session w))) w).
Proof.
  intros Hfit. unfold Wip.run_earnings_report, wip_report_lines.
  rewrite (bind_Ok get_state _ w (session w) w eq_refl).
  destruct (hire_records (session w)) as [|h rest]; [reflexivity |].
  unfold wip_amounts_fit in Hfit. apply andb_true_iff in Hfit as [Hrows Htotal].
  cbn [is_empty]. rewrite !bind_print.
  rewrite (bind_Ok _ _ _ _ _ (wip_rows_print _ 0 _ Hrows)).
  rewrite Z.add_0_l, bind_print.
  rewrite (bind_Ok _ _ _ _ _ (wip_money_call_Ok _ _ Htotal)).
  rewrite print_emit, !emit_emit. reflexivity.
Qed.

Lemma wip_run_earnings_report_raises (w : world Wip.state) :
  hire_records (session w) <> [] ->
  wip_amounts_fit (hire_records (session w)) = false ->
  fst (Wip.run_earnings_report w) = Raise ValueError_str_digits.
Proof.
  intros Hne Hfit. unfold Wip.run_earnings_report.
  rewrite (bind_Ok get_state _ w (session w) w eq_refl).
  destruct (hire_records (session w)) as [|h rest]; [contradiction |].
  cbn [is_empty]. rewrite !bind_print.
  unfold wip_amounts_fit in Hfit.
  destruct (forallb amounts_fit (h :: rest)) eqn:Hrows.
  - cbn [andb] in Hfit.
    rewrite (bind_Ok _ _ _ _ _ (wip_rows_print _ 0 _ Hrows)).
    rewrite Z.add_0_l, bind_print.
    rewrite (bind_Raise _ _ _ _ _ (wip_money_call_Raise _ _ Hfit)). reflexivity.
  - apply bind_fst_Raise, wip_rows_raise. exact Hrows.
Qed.

Lemma wiptask3_row_print (h : Hire.t pystr) (a b : Z) (w : world Wiptask3.state) :
  amounts_fit h = true ->
  (print (u "Customer " ++ str_of_Z (Hire.customer_id h) ++ u " – " ++
          Hire.customer_name h) ;;
   print (u "  Items:  " ++ Hire.items_summary h) ;;
   total_text <- money_call (Hire.total_p h) ;;
   print (u "  Total:  " ++ total_text) ;;
   delay_text <- money_call (Hire.extra_delay_p h) ;;
   print (u "  Delay:  " ++ delay_text) ;;
   print [] ;;
   ret (a + Hire.total_p h, b + Hire.extra_delay_p h)) w =
  (Ok (a + Hire.total_p h, b + Hire.extra_delay_p h),
   emit (wiptask3_hire_lines h) w).
Proof.
  intros Hh. unfold amounts_fit in Hh. apply andb_true_iff in Hh as [Hextra Htotal].
  rewrite !bind_print.
  rewrite (bind_Ok _ _ _ _ _ (money_call_Ok _ _ Htotal)), bind_print.
  rewrite (bind_Ok _ _ _ _ _ (money_call_Ok _ _ Hextra)), !bind_print.
  unfold ret. rewrite !emit_emit. reflexivity.
Qed.

Lemma wiptask3_row_raise (h : Hire.t pystr) (a b : Z) (w : world Wiptask3.state) :
  amounts_fit h = false ->
  fst ((print (u "Customer " ++ str_of_Z (Hire.customer_id h) ++ u " – " ++
               Hire.customer_name h) ;;
        print (u "  Items:  " ++ Hire.items_summary h) ;;
        total_text <- money_call (Hire.total_p h) ;;
        print (u "  Total:  " ++ total_text) ;;
        delay_text <- money_call (Hire.extra_delay_p h) ;;
        print (u "  Delay:  " ++ delay_text) ;;
        print [] ;;
        ret (a + Hire.total_p h, b + Hire.extra_delay_p h)) w) =
  Raise ValueError_str_digits.
Proof.
  intros Hh. unfold amounts_fit in Hh. rewrite !bind_print.
  destruct (has_text (Hire.total_p h / 100)) eqn:Htotal.
  - rewrite andb_true_r in Hh.
    rewrite (bind_Ok _ _ _ _ _ (money_call_Ok _ _ Htotal)), bind_print.
    rewrite (bind_Raise _ _ _ _ _ (money_call_Raise _ _ Hh)). reflexivity.
  - rewrite (bind_Raise _ _ _ _ _ (money_call_Raise _ _ Htotal)). reflexivity.
Qed.

Lemma wiptask3_rows_print (ledger : list (Hire.t pystr)) (acc : Z * Z)
      (w : world Wiptask3.state) :
  forallb amounts_fit ledger = true ->
  for_acc ledger acc
          (fun '(grand_total, grand_delay) hire =>
             print (u "Customer " ++ str_of_Z (Hire.customer_id hire) ++ u " – " ++
                    Hire.customer_name hire) ;;
             print (u "  Items:  " ++ Hire.items_summary hire) ;;
             total_text <- money_call (Hire.total_p hire) ;;
             print (u "  Total:  " ++ total_text) ;;
             delay_text <- money_call (Hire.extra_delay_p hire) ;;
             print (u "  Delay:  " ++ delay_text) ;;
             print [] ;;
             ret (grand_total + Hire.total_p hire,
                  grand_delay + Hire.extra_delay_p hire)) w =
  (Ok (fst acc + sum_of Hire.total_p ledger,
       snd acc + sum_of Hire.extra_delay_p ledger),
   emit (flat_map wiptask3_hire_lines ledger) w).
Proof.
  revert acc w. induction ledger as [|h rest IH]; intros [a b] w Hfit;
    cbn [for_acc]; cbv beta iota.
  - rewrite emit_nil. unfold sum_of, ret. simpl. rewrite !Z.add_0_r. reflexivity.
  - cbn [forallb] in Hfit. apply andb_true_iff in Hfit as [Hh Hrest].
    rewrite (bind_Ok _ _ _ _ _ (wiptask3_row_print h a b w Hh)).
    rewrite (IH _ _ Hrest), !emit_emit, !sum_of_cons. cbn [fst snd flat_map].
    rewrite !Z.add_assoc. reflexivity.
Qed.

Lemma wiptask3_rows_raise (ledger : list (Hire.t pystr)) (acc : Z * Z)
      (w : world Wiptask3.state) :
  forallb amounts_fit ledger = false ->
  fst (for_acc ledger acc
          (fun '(grand_total, grand_delay) hire =>
             print (u "Customer " ++ str_of_Z (Hire.customer_id hire) ++ u " – " ++
                    Hire.customer_name hire) ;;
             print (u "  Items:  " ++ Hire.items_summary hire) ;;
             total_text <- money_call (Hire.total_p hire) ;;
             print (u "  Total:  " ++ total_text) ;;
             delay_text <- money_call (Hire.extra_delay_p hire) ;;
             print (u "  Delay:  " ++ delay_text) ;;
             print [] ;;
             ret (grand_total + Hire.total_p hire,
                  grand_delay + Hire.extra_delay_p hire)) w) =
  Raise ValueError_str_digits.
Proof.
  revert acc w. induction ledger as [|h rest IH]; intros [a b] w Hfit;
    cbn [for_acc]; cbv beta iota; [discriminate |].
  cbn [forallb] in Hfit. destruct (amounts_fit h) eqn:Hh.
  - rewrite (bind_Ok _ _ _ _ _ (wiptask3_row_print h a b w Hh)).
    apply IH. exact Hfit.
  - apply bind_fst_Raise, wiptask3_row_raise. exact Hh.
Qed.

Lemma wiptask3_run_earnings_report_prints (w : world Wiptask3.state) :
  wiptask3_amounts_fit (hire_records (session w)) = true ->
  Wiptask3.run_earnings_report w =
  (Ok tt, emit (wiptask3_report_lines (hire_records (session w))) w).
Proof.
  intros Hfit. unfold Wiptask3.run_earnings_report, wiptask3_report_lines.
  rewrite (bind_Ok get_state _ w (session w) w eq_refl).
  destruct (hire_records (session w)) as [|h rest]; [reflexivity |].
  unfold wiptask3_amounts_fit in Hfit.
  apply andb_true_iff in Hfit as [Hfit Hdelay].
  apply andb_true_iff in Hfit as [Hrows Htotal].
  cbn [is_empty]. rewrite !bind_print.
  rewrite (bind_Ok _ _ _ _ _ (wiptask3_rows_print _ (0, 0) _ Hrows)).
  cbn [fst snd]. rewrite !Z.add_0_l, bind_print.
  rewrite (bind_Ok _ _ _ _ _ (money_call_Ok _ _ Htotal)), bind_print.
  rewrite (bind_Ok _ _ _ _ _ (money_call_Ok _ _ Hdelay)).
  rewrite print_emit, !emit_emit. reflexivity.
Qed.

Lemma wiptask3_run_earnings_report_raises (w : world Wiptask3.state) :
  hire_records (session w) <> [] ->
  wiptask3_amounts_fit (hire_records (session w)) = false ->
  fst (Wiptask3.run_earnings_report w) = Raise ValueError_str_digits.
Proof.
  intros Hne Hfit. unfold Wiptask3.run_earnings_report.
  rewrite (bind_Ok get_state _ w (session w) w eq_refl).
  destruct (hire_records (session w)) as [|h rest]; [contradiction |].
  cbn [is_empty]. rewrite !bind_print.
  unfold wiptask3_amounts_fit in Hfit.
  destruct (forallb amounts_fit (h :: rest)) eqn:Hrows.
  - cbn [andb] in Hfit.
    rewrite (bind_Ok _ _ _ _ _ (wiptask3_rows_print _ (0, 0) _ Hrows)).
    cbn [fst snd]. rewrite !Z.add_0_l, bind_print.
    destruct (has_text (sum_of Hire.total_p (h :: rest) / 100)) eqn:Htotal.
    + cbn [andb] in Hfit.
      rewrite (bind_Ok _ _ _ _ _ (money_call_Ok _ _ Htotal)), bind_print.
      rewrite (bind_Raise _ _ _ _ _ (money_call_Raise _ _ Hfit)). reflexivity.
    + rewrite (bind_Raise _ _ _ _ _ (money_call_Raise _ _ Htotal)). reflexivity.
  - apply bind_fst_Raise, wiptask3_rows_raise. exact Hrows.
Qed.

(* ================================================================== *)
(** * The hire ledger: main results *)
(* ================================================================== *)

Lemma hire_ok_totals py h : hire_ok py h -> totals_ok h.
Proof. intros (_ & _ & _ & H). exact H. Qed.

Lemma grows_appends py st st' :
  grows py st st' ->
  exists news, appends st news st' /\
               map Hire.customer_id news = ids_from (next_customer_id st) (length news) /\
               Forall (hire_ok py) news.
Proof.
  intros [news (R & N & I & O)]. exists news. unfold appends. auto.
Qed.

Lemma ids_from_nth (first : Z) (n i : nat) (x : Z) :
  nth_error (ids_from first n) i = Some x -> x = first + Z.of_nat i.
Proof.
  revert first i. induction n as [|n IH]; intros first [|i]; simpl; try discriminate.
  - intros [= <-]. lia.
  - intros H. apply IH in H. lia.
Qed.

Lemma grows_from_init py st :
  grows py AppState_init st -> ids_sequential st /\ Forall (hire_ok py) (hire_records st).
Proof.
  intros [news (R & N & I & O)]. simpl in R, N, I. unfold ids_sequential.
  rewrite R. auto.
Qed.

(** C4.  Every hire that the hire flow saves has [total_p] equal to the
    sum of the [line_total_p] of its lines and [extra_delay_p] equal to the
    sum of their [extra_delay_p]; both equal the totals computed afresh with
    [calc_line_costs] from the price and quantity of each line and the
    nights and on-time flag of the hire.  This holds for the hires appended
    by one call of [run_hire_flow] from any state and for the whole ledger
    at the end of any run, and neither computation meets its loop bound. *)
Theorem saved_hire_totals (py : builtins) (w : world state) (typed : list pystr) :
  (fst (run_hire_flow py w) <> Timeout /\
   exists news,
     hire_records (session (snd (run_hire_flow py w))) =
       hire_records (session w) ++ news /\
     Forall totals_ok news) /\
  (fst (run py typed) <> Timeout /\
   Forall totals_ok (hire_records (session (snd (run py typed))))).
Proof.
  split; split.
  - apply tame_run_hire_flow.
  - destruct (grows_appends py _ _ (steps_run_hire_flow py w))
      as [news ([R _] & _ & O)].
    exists news. split; [exact R |].
    eapply Forall_impl; [| exact O]. intros h. apply hire_ok_totals.
  - apply run_total.
  - destruct (grows_from_init py _ (run_grows py typed)) as [_ O].
    eapply Forall_impl; [| exact O]. intros h. apply hire_ok_totals.
Qed.

(** C5.  A line built by [read_item_lines] from a code that [find_item]
    knows, a quantity of at least 1, at least one night and an on-time
    flag has [line_total_p] equal to the sum of its first-night cost, its
    additional-nights cost and its late-return charge, the three being the
    triple of [calc_line_costs]; every line that [read_item_lines] returns
    is built this way. *)
Theorem line_total_is_sum (py : builtins) (code : pystr) (item : Item.t)
        (quantity nights : Z) (returned_on_time : bool) :
  find_item py code = Some item -> 1 <= quantity -> 1 <= nights ->
  let ln := priced_line item code quantity nights returned_on_time in
  Line.line_total_p ln =
    Line.first_night_p ln + Line.additional_nights_p ln + Line.extra_delay_p ln /\
  (Line.first_night_p ln, Line.additional_nights_p ln, Line.extra_delay_p ln) =
    calc_line_costs (Item.daily_p item) quantity nights returned_on_time /\
  post (St := state)
       (Forall (fun ln' =>
                  Line.line_total_p ln' =
                  Line.first_night_p ln' + Line.additional_nights_p ln' +
                  Line.extra_delay_p ln'))
       (read_item_lines py nights returned_on_time).
Proof.
  intros Hfind Hq Hn ln.
  destruct (priced_line_ok py item code quantity nights returned_on_time Hfind Hq)
    as [[Hc Ht] _].
  fold ln in Hc, Ht.
  split; [exact Ht | split].
  - clear Hc Ht. unfold ln, priced_line.
    destruct (calc_line_costs (Item.daily_p item) quantity nights returned_on_time)
      as [[a b] c].
    reflexivity.
  - intros w0 lines E.
    destruct (post_read_item_lines py nights returned_on_time w0 lines E) as [_ Hall].
    eapply Forall_impl; [| exact Hall]. intros ln' [[_ Ht'] _]. exact Ht'.
Qed.

Lemma line_total_is_sum_witness :
  find_item ascii_builtins (u "bch") =
    Some {| Item.code := u "BCH"; Item.name := u "Bed chairs"; Item.daily_p := 2500 |} /\
  let ln := priced_line {| Item.code := u "BCH"; Item.name := u "Bed chairs";
                           Item.daily_p := 2500 |} (u "bch") 1 2 true in
  Line.line_total_p ln = 3750 /\
  Line.line_total_p ln =
    Line.first_night_p ln + Line.additional_nights_p ln + Line.extra_delay_p ln.
Proof.
  split; [vm_compute; reflexivity |].
  split; [vm_compute; reflexivity |].
  apply (line_total_is_sum ascii_builtins (u "bch")
           {| Item.code := u "BCH"; Item.name := u "Bed chairs"; Item.daily_p := 2500 |}
           1 2 true);
    [vm_compute; reflexivity | lia | lia].
Defined.

(** ** A session that records [N] hires *)

Lemma hire_round_script (st : state) (rest : list pystr) (out : list event) :
  let w := {| session := st; stdin := hire_script ++ rest; stdout := out |} in
  fst (hire_round ascii_builtins tt w) = Ok (Continue tt) /\
  stdin (snd (hire_round ascii_builtins tt w)) = rest /\
  exists h, session (snd (hire_round ascii_builtins tt w)) =
            bump_customer_id (append_hire h st).
Proof.
  cbv zeta. split; [vm_compute; reflexivity | split; [vm_compute; reflexivity |]].
  eexists. vm_compute. reflexivity.
Qed.

Lemma run_hire_flow_unfold py (w : world state) :
  run_hire_flow py w =
  bind (hire_round py tt)
       (fun r => match r with
                 | Continue l' => run_hire_flow py
                 | Return a => ret a
                 end) w.
Proof.
  unfold run_hire_flow. rewrite while_true_unfold at 1;
    [| apply tame_hire_round | apply eats_hire_round].
  unfold bind. destruct (hire_round py tt w) as [[[[] | a] | e |] w1]; reflexivity.
Qed.

Lemma run_hire_flow_script (n : nat) (w : world state) :
  stdin w = hires_script n [u "cancel"] ->
  fst (run_hire_flow ascii_builtins w) = Ok tt /\
  length (hire_records (session (snd (run_hire_flow ascii_builtins w)))) =
    (length (hire_records (session w)) + n)%nat.
Proof.
  revert w. induction n as [|n IH]; intros [st ins out] H;
    cbn [stdin hires_script] in H; subst ins.
  - split; [vm_compute; reflexivity |].
    assert (E : session (snd (run_hire_flow ascii_builtins
                     {| session := st; stdin := [u "cancel"]; stdout := out |})) = st)
      by (vm_compute; reflexivity).
    rewrite E. simpl. lia.
  - rewrite run_hire_flow_unfold. unfold bind.
    destruct (hire_round_script st (hires_script n [u "cancel"]) out)
      as (H1 & H2 & [h H3]).
    cbv zeta in H1, H2, H3.
    destruct (hire_round ascii_builtins tt
                {| session := st; stdin := hire_script ++ hires_script n [u "cancel"];
                   stdout := out |}) as [r w1].
    simpl in H1, H2, H3. subst r.
    destruct (IH w1 H2) as [IH1 IH2].
    split; [exact IH1 |].
    rewrite IH2, H3. cbn [bump_customer_id append_hire hire_records session].
    rewrite length_app. simpl. lia.
Qed.

Lemma scripted_hires (N : nat) :
  fst (run_hire_flow ascii_builtins (fresh (hires_script N [u "cancel"]))) = Ok tt /\
  length (hire_records
            (session (snd (run_hire_flow ascii_builtins
                             (fresh (hires_script N [u "cancel"])))))) = N.
Proof.
  destruct (run_hire_flow_script N (fresh (hires_script N [u "cancel"])) eq_refl)
    as [H1 H2].
  split; [exact H1 | exact H2].
Qed.

(** C6.  In any run of the programme, which starts from a fresh state,
    the ledger of [N] saved hires carries the customer ids
    [101, 102, ..., 100 + N] in this order (the hire at position [i],
    counted from 0, has id [101 + i]), and the counter of the state stands
    at [101 + N]: one step per saved hire, no gap and no repeat.  A call of
    [run_hire_flow] from any state gives its new hires the ids from the
    counter on and moves the counter by their number.  For every [N] there
    is a session that saves exactly [N] hires from a fresh state: typing
    [hires_script N] and then [cancel] does, and the ids are
    [101, ..., 100 + N]. *)
Theorem customer_ids_sequential (py : builtins) (typed : list pystr)
        (w : world state) (N : nat) :
  (let st := session (snd (run py typed)) in
   let n := length (hire_records st) in
   fst (run py typed) <> Timeout /\
   map Hire.customer_id (hire_records st) = ids_from 101 n /\
   next_customer_id st = 101 + Z.of_nat n /\
   forall i h, nth_error (hire_records st) i = Some h ->
               Hire.customer_id h = 101 + Z.of_nat i) /\
  (let st := session w in
   let st' := session (snd (run_hire_flow py w)) in
   exists news,
     hire_records st' = hire_records st ++ news /\
     map Hire.customer_id news = ids_from (next_customer_id st) (length news) /\
     next_customer_id st' = next_customer_id st + Z.of_nat (length news)) /\
  (let scripted :=
     run_hire_flow ascii_builtins (fresh (hires_script N [u "cancel"])) in
   fst scripted = Ok tt /\
   length (hire_records (session (snd scripted))) = N /\
   map Hire.customer_id (hire_records (session (snd scripted))) = ids_from 101 N /\
   next_customer_id (session (snd scripted)) = 101 + Z.of_nat N).
Proof.
  split; [| split].
  - cbv zeta. destruct (grows_from_init py _ (run_grows py typed)) as [[I Hn] _].
    split; [apply run_total | split; [exact I | split; [exact Hn |]]].
    intros i h Hnth.
    apply (ids_from_nth 101 (length (hire_records (session (snd (run py typed)))))).
    rewrite <- I, nth_error_map, Hnth. reflexivity.
  - cbv zeta.
    destruct (grows_appends py _ _ (steps_run_hire_flow py w))
      as [news ([R Hn] & I & _)].
    exists news. auto.
  - cbv zeta. destruct (scripted_hires N) as [Hok Hlen].
    pose proof (steps_run_hire_flow ascii_builtins
                  (fresh (hires_script N [u "cancel"]))) as Hg.
    cbn [fresh session] in Hg. apply grows_from_init in Hg as [[I Hn] _].
    rewrite Hlen in I. unfold len in Hn. rewrite Hlen in Hn.
    split; [exact Hok | split; [exact Hlen | split; [exact I | exact Hn]]].
Qed.

(** Two hires typed one after the other get the ids 101 and 102. *)
Example two_hires :
  map Hire.customer_id
      (hire_records
         (session (snd (run ascii_builtins
                            (u "1" :: hires_script 2 [u "cancel"; u "3"]))))) =
  [101; 102].
Proof. vm_compute. reflexivity. Qed.

(** C10.  Saving a hire ([append_hire] then [bump_customer_id]) puts
    exactly one record at the end of the ledger: the length grows by 1,
    every record stored before is found unchanged at its position, and
    [next_customer_id] grows by 1.  A round of the hire loop that has read
    a header, the nights, the on-time flag and the item lines does save:
    whatever follows, the ledger afterwards is the ledger before followed
    by the one hire made of what was read, and the counter has moved by 1;
    typing [hire_script] is such a round.  Any round leaves the state as it
    is or saves exactly one hire.  [run_hire_flow], the report and a round
    of the menu keep every stored record in place: the ledger afterwards is
    the ledger before followed by the new hires, the counter having moved
    by their number (the report adds none). *)
Theorem save_appends_one (py : builtins) (st : state) (h : Hire.t bool)
        (w : world state) :
  (let st' := bump_customer_id (append_hire h st) in
   hire_records st' = hire_records st ++ [h] /\
   length (hire_records st') = S (length (hire_records st)) /\
   next_customer_id st' = next_customer_id st + 1 /\
   forall i, (i < length (hire_records st))%nat ->
             nth_error (hire_records st') i = nth_error (hire_records st) i) /\
  (forall header w1 nights w2 returned_on_time w3 lines w4,
      read_customer_header py w = (Ok (Some header), w1) ->
      read_positive_int py (u "Number of nights: ") 1 w1 = (Ok nights, w2) ->
      read_yes_no py (u "Returned on time (y/n)? ") w2 = (Ok returned_on_time, w3) ->
      read_item_lines py nights returned_on_time w3 = (Ok lines, w4) ->
      let st' := session (snd (hire_round py tt w)) in
      hire_records st' =
        hire_records (session w) ++
        [new_hire (session w) header nights returned_on_time lines] /\
      length (hire_records st') = S (length (hire_records (session w))) /\
      next_customer_id st' = next_customer_id (session w) + 1 /\
      forall i, (i < length (hire_records (session w)))%nat ->
                nth_error (hire_records st') i =
                nth_error (hire_records (session w)) i) /\
  (forall rest out,
      let typed := {| session := st; stdin := hire_script ++ rest; stdout := out |} in
      let st' := session (snd (hire_round ascii_builtins tt typed)) in
      stdin (snd (hire_round ascii_builtins tt typed)) = rest /\
      length (hire_records st') = S (length (hire_records st)) /\
      firstn (length (hire_records st)) (hire_records st') = hire_records st /\
      next_customer_id st' = next_customer_id st + 1) /\
  (session (snd (hire_round py tt w)) = session w \/
   exists h', session (snd (hire_round py tt w)) =
              bump_customer_id (append_hire h' (session w))) /\
  (exists news, appends (session w) news (session (snd (run_hire_flow py w)))) /\
  session (snd (run_earnings_report w)) = session w /\
  (exists news, appends (session w) news (session (snd (menu_round py tt w)))).
Proof.
  assert (Hsave : forall (s0 : state) (h0 : Hire.t bool),
             let st' := bump_customer_id (append_hire h0 s0) in
             hire_records st' = hire_records s0 ++ [h0] /\
             length (hire_records st') = S (length (hire_records s0)) /\
             next_customer_id st' = next_customer_id s0 + 1 /\
             forall i, (i < length (hire_records s0))%nat ->
                       nth_error (hire_records st') i = nth_error (hire_records s0) i).
  { intros s0 h0. cbv zeta.
    cbn [bump_customer_id append_hire hire_records next_customer_id].
    split; [reflexivity | split; [| split; [reflexivity |]]].
    - rewrite length_app. simpl. lia.
    - intros i Hi. apply nth_error_app1. exact Hi. }
  split; [| split; [| split; [| split; [| split; [| split]]]]].
  - apply Hsave.
  - intros header w1 nights w2 flag w3 lines w4 E1 E2 E3 E4. cbv zeta.
    rewrite (hire_round_saves py w header w1 nights w2 flag w3 lines w4 E1 E2 E3 E4).
    apply Hsave.
  - intros rest out. cbv zeta.
    destruct (hire_round_script st rest out) as (_ & Hin & [h' Hst]).
    cbv zeta in Hin, Hst. rewrite Hst.
    destruct (Hsave st h') as (Hrec & Hlen & Hnext & _). cbv zeta in Hrec, Hlen, Hnext.
    split; [exact Hin | split; [exact Hlen | split; [| exact Hnext]]].
    rewrite Hrec, firstn_app, Nat.sub_diag, firstn_all. simpl.
    apply app_nil_r.
  - destruct (hire_round_effect py w) as [E | (hd & n & f & ls & _ & _ & _ & E)].
    + left. exact E.
    + right. eexists. exact E.
  - destruct (grows_appends py _ _ (steps_run_hire_flow py w)) as [news [Ha _]].
    exists news. exact Ha.
  - apply frame_run_earnings_report.
  - destruct (grows_appends py _ _ (steps_menu_round py tt w)) as [news [Ha _]].
    exists news. exact Ha.
Qed.

(* ================================================================== *)
(** * The earnings report: main results *)
(* ================================================================== *)

Lemma printed_map (texts : list pystr) : printed (map Printed texts) = texts.
Proof. induction texts as [|t texts IH]; simpl; [| rewrite IH]; reflexivity. Qed.

Lemma report_of_hailmary (st : state) :
  forallb amounts_fit (hire_records st) = true ->
  report_of run_earnings_report st = report_lines (hire_records st).
Proof.
  intros Hfit. unfold report_of.
  rewrite run_earnings_report_prints by exact Hfit. apply printed_map.
Qed.

Lemma report_of_wip (st : Wip.state) :
  wip_amounts_fit (hire_records st) = true ->
  report_of Wip.run_earnings_report st = wip_report_lines (hire_records st).
Proof.
  intros Hfit. unfold report_of.
  rewrite wip_run_earnings_report_prints by exact Hfit. apply printed_map.
Qed.

Lemma starts_with_app (x rest : pystr) : starts_with x (x ++ rest) = true.
Proof.
  induction x as [|c x IH]; simpl; [reflexivity |].
  rewrite N.eqb_refl. exact IH.
Qed.

Lemma contains_starts (x s : pystr) : starts_with x s = true -> contains x s = true.
Proof. intros H. destruct s; simpl in *; rewrite H; reflexivity. Qed.

Lemma shows_middle (before x after : pystr) : shows x (before ++ x ++ after).
Proof.
  unfold shows. induction before as [|c before IH]; simpl app.
  - apply contains_starts, starts_with_app.
  - simpl. rewrite IH. apply orb_true_r.
Qed.

Lemma shows_end (before x : pystr) : shows x (before ++ x).
Proof. rewrite <- (app_nil_r x) at 2. apply shows_middle. Qed.

Lemma fmt_comma_small (n : Z) : 0 <= n < 1000 -> fmt_comma n = str_of_Z n.
Proof.
  intros Hn.
  assert (Hall : forallb (fun k => pystr_eqb (fmt_comma (Z.of_nat k))
                                             (str_of_Z (Z.of_nat k)))
                         (seq 0 1000) = true) by (vm_compute; reflexivity).
  rewrite forallb_forall in Hall.
  specialize (Hall (Z.to_nat n)). rewrite Z2Nat.id in Hall by lia.
  apply pystr_eqb_eq, Hall, in_seq. lia.
Qed.

Lemma wip_money_small (pence : Z) :
  0 <= pence < 100000 -> Wip.money pence = money pence.
Proof.
  intros Hp. unfold Wip.money, money. rewrite fmt_comma_small; [reflexivity |].
  split; [apply Z.div_pos; lia | apply Z.div_lt_upper_bound; lia].
Qed.

(** The report of [hailmary.py] for the sample session: a header, a rule
    and one row, with 22 and 7 where the hire cost 22.50 and 7.50. *)
Example hailmary_sample_report :
  map Hire.total_p (hire_records sample_state) = [2250] /\
  map Hire.extra_delay_p (hire_records sample_state) = [750] /\
  report_of run_earnings_report sample_state =
  [REPORT_HEADER; REPORT_RULE;
   u "101         | Day chairs – 1                                                    | 1                | 22         | n                      | 7                             "].
Proof. split; [| split]; vm_compute; reflexivity. Qed.

Example wip_sample_report :
  report_of Wip.run_earnings_report draft_sample_state =
  [[NL] ++ Wip.RULE; u "Earnings Report"; Wip.RULE; Wip.REPORT_HEADER; Wip.RULE;
   u "101  | Jane Smith           | Day chairs – 1                                |      1 |       n |      £7.50 |       £22.50";
   Wip.RULE;
   u "                                                                                      TOTAL EARNINGS :          £22.50"].
Proof. vm_compute. reflexivity. Qed.

(** C3 (as stated).  The report of [hailmary.py] for a ledger with one
    hire of 22.50 does not end with a line that shows the total as
    currency: its last line is the row of the hire, in whole pounds. *)
Lemma hailmary_report_without_totals :
  hire_records sample_state <> [] /\
  ~ report_with_totals money (report_of run_earnings_report sample_state)
                       (hire_records sample_state).
Proof.
  split; [discriminate |].
  intros [Hlast _]. vm_compute in Hlast. discriminate.
Qed.

(** C3 (amended).  For every non-empty ledger whose amounts can be
    printed (the pounds of the late charge and of the total of each hire,
    and of the grand total, have at most 4300 digits, the limit of CPython
    for turning an [int] into text) the report of [wip.py] returns normally
    and is a banner, one row per hire and, as its last line, the
    [TOTAL EARNINGS] line with the sum of the [total_p] of all hires; each
    row ends with the late charge and the total of its hire, all amounts
    formatted by the [money] of [wip.py], [£{pounds:,}.{pennies:02d}],
    which is [£{major}.{minor:02d}] for amounts from 0 to 999.99.  Under
    the same condition on its hires the report of [hailmary.py] returns
    normally and is the header, the rule and one row per hire, the amounts
    of a row being whole pounds ([total_p // 100], [extra_delay_p // 100]);
    it has no totals line.  For a non-empty ledger with an amount beyond
    the limit either report ends with [ValueError]. *)
Theorem report_totals_line (wst : Wip.state) (st : state) :
  hire_records wst <> [] -> hire_records st <> [] ->
  wip_amounts_fit (hire_records wst) = true ->
  forallb amounts_fit (hire_records st) = true ->
  (let ledger := hire_records wst in
   let out := report_of Wip.run_earnings_report wst in
   fst (Wip.run_earnings_report (quiet wst)) = Ok tt /\
   out = [[NL] ++ Wip.RULE; u "Earnings Report"; Wip.RULE; Wip.REPORT_HEADER;
          Wip.RULE]
           ++ map Wip.report_row ledger
           ++ [Wip.RULE; Wip.totals_line (sum_of Hire.total_p ledger)] /\
   last out [] =
     rjust 100 (u "TOTAL EARNINGS") ++ u " : " ++
     rjust 15 (Wip.money (sum_of Hire.total_p ledger)) /\
   (forall h, Wip.report_row h =
              Wip.row_lead h ++ rjust 10 (Wip.money (Hire.extra_delay_p h)) ++
              u " | " ++ rjust 12 (Wip.money (Hire.total_p h))) /\
   report_with_totals Wip.money out ledger) /\
  (forall pence,
      Wip.money pence =
        u "£" ++ fmt_comma (pence / 100) ++ u "." ++ fmt_02d (pence mod 100) /\
      (0 <= pence < 100000 -> Wip.money pence = money pence)) /\
  (fst (run_earnings_report (quiet st)) = Ok tt /\
   report_of run_earnings_report st =
     REPORT_HEADER :: REPORT_RULE :: map report_row (hire_records st)) /\
  (forall h, report_row h =
             ljust 11 (str_of_Z (Hire.customer_id h)) ++ u " | " ++
             ljust 65 (Hire.items_summary h) ++ u " | " ++
             ljust 16 (str_of_Z (Hire.nights h)) ++ u " | " ++
             ljust 10 (str_of_Z (Hire.total_p h / 100)) ++ u " | " ++
             ljust 22 (if Hire.returned_on_time h then u "y" else u "n") ++ u " | " ++
             ljust 30 (str_of_Z (Hire.extra_delay_p h / 100))) /\
  (forall (ww : world Wip.state),
      hire_records (session ww) <> [] ->
      wip_amounts_fit (hire_records (session ww)) = false ->
      fst (Wip.run_earnings_report ww) = Raise ValueError_str_digits) /\
  (forall (w : world state),
      forallb amounts_fit (hire_records (session w)) = false ->
      fst (run_earnings_report w) = Raise ValueError_str_digits).
Proof.
  intros Hw Hs Hwfit Hsfit.
  assert (Hout : report_of Wip.run_earnings_report wst =
                 [[NL] ++ Wip.RULE; u "Earnings Report"; Wip.RULE; Wip.REPORT_HEADER;
                  Wip.RULE]
                   ++ map Wip.report_row (hire_records wst)
                   ++ [Wip.RULE;
                       Wip.totals_line (sum_of Hire.total_p (hire_records wst))]).
  { rewrite report_of_wip by exact Hwfit. unfold wip_report_lines.
    destruct (hire_records wst); [contradiction | reflexivity]. }
  assert (Hlast : last (report_of Wip.run_earnings_report wst) [] =
                  Wip.totals_line (sum_of Hire.total_p (hire_records wst))).
  { rewrite Hout.
    change [Wip.RULE; Wip.totals_line (sum_of Hire.total_p (hire_records wst))]
      with ([Wip.RULE] ++ [Wip.totals_line (sum_of Hire.total_p (hire_records wst))]).
    rewrite !app_assoc. apply last_last. }
  split; [| split; [| split; [| split; [| split]]]].
  - cbv zeta. split; [| split; [exact Hout | split; [exact Hlast | split]]].
    + rewrite wip_run_earnings_report_prints by exact Hwfit. reflexivity.
    + intros h. reflexivity.
    + split.
      * rewrite Hlast. unfold Wip.totals_line.
        rewrite (app_assoc (rjust 100 _)). unfold rjust at 2.
        rewrite app_assoc. apply shows_end.
      * apply Forall_forall. intros h Hin. exists (Wip.report_row h).
        split; [| split].
        -- rewrite Hout. apply in_or_app. right. apply in_or_app. left.
           apply in_map. exact Hin.
        -- unfold Wip.report_row. unfold rjust at 2.
           rewrite !app_assoc. apply shows_end.
        -- unfold Wip.report_row. unfold rjust at 1.
           rewrite <- (app_assoc _ (Wip.money (Hire.extra_delay_p h))).
           rewrite (app_assoc (Wip.row_lead h)).
           apply shows_middle.
  - intros pence. split; [reflexivity | apply wip_money_small].
  - split.
    + rewrite run_earnings_report_prints by exact Hsfit. reflexivity.
    + rewrite report_of_hailmary by exact Hsfit. unfold report_lines.
      destruct (hire_records st); [contradiction | reflexivity].
  - intros h. reflexivity.
  - intros ww. apply wip_run_earnings_report_raises.
  - intros w. apply run_earnings_report_raises.
Qed.

Lemma report_totals_line_witness :
  hire_records draft_sample_state <> [] /\
  hire_records sample_state <> [] /\
  wip_amounts_fit (hire_records draft_sample_state) = true /\
  forallb amounts_fit (hire_records sample_state) = true /\
  last (report_of Wip.run_earnings_report draft_sample_state) [] =
    rjust 100 (u "TOTAL EARNINGS") ++ u " : " ++
    rjust 15 (Wip.money (sum_of Hire.total_p (hire_records draft_sample_state))) /\
  report_of run_earnings_report sample_state =
    REPORT_HEADER :: REPORT_RULE :: map report_row (hire_records sample_state).
Proof.
  assert (Hw : hire_records draft_sample_state <> []) by (vm_compute; discriminate).
  assert (Hs : hire_records sample_state <> []) by (vm_compute; discriminate).
  assert (Hwfit : wip_amounts_fit (hire_records draft_sample_state) = true)
    by (vm_compute; reflexivity).
  assert (Hsfit : forallb amounts_fit (hire_records sample_state) = true)
    by (vm_compute; reflexivity).
  split; [exact Hw | split; [exact Hs | split; [exact Hwfit | split; [exact Hsfit |]]]].
  destruct (report_totals_line draft_sample_state sample_state Hw Hs Hwfit Hsfit)
    as [(_ & _ & Hlast & _) (_ & (_ & Hhail) & _)].
  split; [exact Hlast | exact Hhail].
Defined.

(** C7.  On an empty ledger the report (of [hailmary.py], of [wiptask3.py]
    and of [wip.py] alike) returns normally, reads nothing, leaves the state
    alone and prints exactly one thing, the text [No hires recorded yet.]
    after a newline: on the terminal one blank line and the one
    informational line, and no header, rule, row or totals line. *)
Theorem empty_ledger_report (w : world state) (w3 : world Wiptask3.state)
        (ww : world Wip.state) :
  hire_records (session w) = [] ->
  hire_records (session w3) = [] ->
  hire_records (session ww) = [] ->
  run_earnings_report w = (Ok tt, emit [NO_HIRES] w) /\
  Wiptask3.run_earnings_report w3 = (Ok tt, emit [NO_HIRES] w3) /\
  Wip.run_earnings_report ww = (Ok tt, emit [NO_HIRES] ww) /\
  stdout (emit [NO_HIRES] w) = stdout w ++ [Printed NO_HIRES] /\
  session (emit [NO_HIRES] w) = session w /\
  stdin (emit [NO_HIRES] w) = stdin w /\
  text_lines (console_text [Printed NO_HIRES]) = [[]; u "No hires recorded yet."].
Proof.
  intros H H3 Hw.
  rewrite run_earnings_report_prints, wiptask3_run_earnings_report_prints,
    wip_run_earnings_report_prints;
    rewrite ?H, ?H3, ?Hw; try reflexivity.
  repeat split.
Qed.

Lemma empty_ledger_report_witness :
  run_earnings_report (quiet AppState_init) =
    (Ok tt, emit [NO_HIRES] (quiet AppState_init)) /\
  Wiptask3.run_earnings_report (quiet AppState_init) =
    (Ok tt, emit [NO_HIRES] (quiet AppState_init)) /\
  printed (stdout (snd (run_earnings_report (quiet AppState_init)))) = [NO_HIRES].
Proof.
  destruct (empty_ledger_report (quiet AppState_init) (quiet AppState_init)
                                (quiet AppState_init) eq_refl eq_refl eq_refl)
    as (H1 & H3 & _).
  split; [exact H1 | split; [exact H3 | reflexivity]].
Defined.

(* ================================================================== *)
(** * Loops that ask until a line is accepted *)
(* ================================================================== *)

Section More.
Context {St : Type}.

Lemma iter_ext {L A} (body body' : L -> M St (step L A)) :
  (forall l w, body l w = body' l w) ->
  forall fuel l w, iter fuel body l w = iter fuel body' l w.
Proof.
  intros Hb. induction fuel as [|fuel IH]; intros l w; [reflexivity |].
  simpl. unfold bind. rewrite Hb.
  destruct (body' l w) as [[[l' | a] | e |] w1]; try reflexivity. apply IH.
Qed.

Lemma while_true_ext {L A} (body body' : L -> M St (step L A)) (l : L) (w : world St) :
  (forall l w, body l w = body' l w) ->
  while_true body l w = while_true body' l w.
Proof. intros Hb. unfold while_true. apply iter_ext. exact Hb. Qed.

Lemma ask_step {A} (prompt : pystr) (classify : pystr -> pystr + A) (w : world St) :
  ask prompt classify w =
  match stdin w with
  | [] => (Raise EOFError,
           {| session := session w; stdin := [];
              stdout := stdout w ++ [Prompted prompt] |})
  | line :: rest =>
    match classify line with
    | inr a => (Ok a, {| session := session w; stdin := rest;
                         stdout := stdout w ++ [Prompted prompt] |})
    | inl msg =>
      ask prompt classify
          {| session := session w; stdin := rest;
             stdout := (stdout w ++ [Prompted prompt]) ++ [Printed msg] |}
    end
  end.
Proof.
  unfold ask at 1. rewrite while_true_unfold.
  - unfold bind, input.
    destruct (stdin w) as [|line rest]; [reflexivity |].
    destruct (classify line) as [msg | a]; reflexivity.
  - intros []. tame_tac.
  - intros []. apply eats_bind_l; [apply eats_input | tame_tac].
Qed.

Lemma converse_cons {St'} prompt reply line lines rest (w : world St') :
  converse prompt reply (line :: lines) rest w =
  converse prompt reply lines rest
           {| session := session w; stdin := rest;
              stdout := stdout w ++ Prompted prompt ::
                        match reply line with
                        | Some msg => [Printed msg]
                        | None => []
                        end |}.
Proof.
  unfold converse. cbn [session stdin stdout flat_map].
  rewrite <- app_assoc. reflexivity.
Qed.

Lemma ask_skips {A} (prompt : pystr) (classify : pystr -> pystr + A)
      (bad : list pystr) (good : pystr) (a : A) (rest : list pystr) :
  Forall (refused classify) bad -> classify good = inr a ->
  forall w : world St,
    stdin w = bad ++ good :: rest ->
    ask prompt classify w =
    (Ok a, converse prompt (fun l => refusal (classify l)) (bad ++ [good]) rest w).
Proof.
  intros Hbad Hgood. induction Hbad as [|line bad [msg Hline] _ IH]; intros w Hw.
  - rewrite ask_step, Hw. simpl app. cbv iota. rewrite Hgood.
    unfold converse. cbn [flat_map]. rewrite Hgood. simpl. reflexivity.
  - rewrite ask_step, Hw. simpl app. cbv iota. rewrite Hline.
    rewrite IH by reflexivity.
    rewrite (converse_cons _ _ line). rewrite Hline. cbn [refusal].
    unfold converse. cbn [session stdin stdout].
    rewrite <- !app_assoc. reflexivity.
Qed.

Lemma ask_starves {A} (prompt : pystr) (classify : pystr -> pystr + A)
      (bad : list pystr) :
  Forall (refused classify) bad ->
  forall w : world St,
    stdin w = bad ->
    ask prompt classify w =
    (Raise EOFError,
     {| session := session w; stdin := [];
        stdout := stdout (converse prompt (fun l => refusal (classify l)) bad [] w)
                  ++ [Prompted prompt] |}).
Proof.
  intros Hbad. induction Hbad as [|line bad [msg Hline] _ IH]; intros w Hw.
  - rewrite ask_step, Hw. unfold converse. simpl. rewrite app_nil_r. reflexivity.
  - rewrite ask_step, Hw. rewrite Hline. rewrite IH by reflexivity.
    rewrite (converse_cons _ _ line). rewrite Hline. cbn [refusal].
    unfold converse. cbn [session stdin stdout].
    rewrite <- !app_assoc. reflexivity.
Qed.

Lemma read_yes_no_ask py prompt (w : world St) :
  read_yes_no py prompt w = ask prompt (yes_no_class py) w.
Proof.
  unfold read_yes_no, ask. apply while_true_ext. intros [] w0.
  unfold bind. destruct (input prompt w0) as [[s | e |] w1]; try reflexivity.
  unfold yes_no_class.
  destruct (str_in (str_lower py (str_strip py s)) [u "y"; u "yes"]); [reflexivity |].
  destruct (str_in (str_lower py (str_strip py s)) [u "n"; u "no"]); reflexivity.
Qed.

Lemma read_positive_int_ask py prompt min_value (w : world St) :
  read_positive_int py prompt min_value w = ask prompt (int_class py min_value) w.
Proof.
  unfold read_positive_int, ask. apply while_true_ext. intros [] w0.
  unfold bind. destruct (input prompt w0) as [[s | e |] w1]; try reflexivity.
  unfold int_class.
  destruct (py_int py (str_strip py s)) as [n|]; [| reflexivity].
  destruct (n <? min_value); reflexivity.
Qed.
End More.

(** X1.  [read_yes_no] goes past every line that is not y, yes, n or no
    (after trimming and lower-casing), printing the reminder once for each,
    and returns at the first line that is: [True] for y or yes, [False] for
    n or no.  It reads exactly the lines up to that one and leaves the
    state alone.  When no line is an answer it reads them all and ends with
    [EOFError]. *)
Theorem read_yes_no_first_answer {St : Type} (py : builtins) (prompt : pystr)
        (bad : list pystr) (w : world St) :
  Forall (refused (yes_no_class py)) bad ->
  (forall good b rest,
      yes_no_class py good = inr b ->
      stdin w = bad ++ good :: rest ->
      read_yes_no py prompt w =
      (Ok b,
       {| session := session w;
          stdin := rest;
          stdout := stdout w ++
                    flat_map (fun _ => [Prompted prompt;
                                        Printed (u "Please enter 'y' or 'n'.")]) bad ++
                    [Prompted prompt] |})) /\
  (stdin w = bad ->
   fst (read_yes_no py prompt w) = Raise EOFError /\
   stdin (snd (read_yes_no py prompt w)) = [] /\
   session (snd (read_yes_no py prompt w)) = session w).
Proof.
  intros Hbad. split.
  - intros good b rest Hgood Hw.
    rewrite read_yes_no_ask, (ask_skips prompt _ bad good b rest Hbad Hgood w Hw).
    unfold converse. do 2 f_equal. f_equal.
    rewrite flat_map_app. cbn [flat_map]. rewrite Hgood. cbn [refusal].
    rewrite app_nil_r. f_equal.
    clear Hw. induction Hbad as [|line bad [msg Hline] _ IH]; [reflexivity |].
    cbn [flat_map]. rewrite IH, Hline. cbn [refusal].
    unfold yes_no_class in Hline.
    destruct (str_in _ [u "y"; u "yes"]); [discriminate |].
    destruct (str_in _ [u "n"; u "no"]); [discriminate |].
    injection Hline as <-. reflexivity.
  - intros Hw. rewrite read_yes_no_ask, (ask_starves prompt _ bad Hbad w Hw).
    repeat split.
Qed.

Lemma read_yes_no_first_answer_witness :
  read_yes_no ascii_builtins (u "? ")
              {| session := tt; stdin := [u "maybe"; u " YES "; u "n"]; stdout := [] |} =
  (Ok true,
   {| session := tt; stdin := [u "n"];
      stdout := [Prompted (u "? "); Printed (u "Please enter 'y' or 'n'.");
                 Prompted (u "? ")] |}).
Proof.
  assert (Hbad : Forall (refused (yes_no_class ascii_builtins)) [u "maybe"]).
  { constructor; [| constructor]. eexists. vm_compute. reflexivity. }
  apply (proj1 (read_yes_no_first_answer ascii_builtins (u "? ") [u "maybe"]
                  {| session := tt; stdin := [u "maybe"; u " YES "; u "n"];
                     stdout := [] |} Hbad)
               (u " YES ") true [u "n"]);
    [vm_compute; reflexivity | reflexivity].
Defined.

(** X2.  [read_positive_int] goes past every line that [int] rejects or
    whose value is below [min_value], answering each with its message, and
    returns the value of the first line that is a whole number of at least
    [min_value]; it reads exactly the lines up to that one.  Whatever the
    input, a value it returns is at least [min_value]. *)
Theorem read_positive_int_first_valid {St : Type} (py : builtins)
        (prompt : pystr) (min_value : Z) (bad : list pystr) (w : world St) :
  Forall (refused (int_class py min_value)) bad ->
  (forall good n rest,
      py_int py (str_strip py good) = Some n -> min_value <= n ->
      stdin w = bad ++ good :: rest ->
      read_positive_int py prompt min_value w =
      (Ok n, converse prompt (fun l => refusal (int_class py min_value l))
                      (bad ++ [good]) rest w)) /\
  (forall n, fst (read_positive_int py prompt min_value w) = Ok n -> min_value <= n).
Proof.
  intros Hbad. split.
  - intros good n rest Hint Hmin Hw.
    rewrite read_positive_int_ask.
    apply ask_skips; [exact Hbad | | exact Hw].
    unfold int_class. rewrite Hint.
    destruct (n <? min_value) eqn:E; [apply Z.ltb_lt in E; lia | reflexivity].
  - intros n. apply post_read_positive_int.
Qed.

Lemma read_positive_int_first_valid_witness :
  read_positive_int ascii_builtins (u "Number of nights: ") 1
                    {| session := tt; stdin := [u "two"; u "0"; u " 3"; u "4"];
                       stdout := [] |} =
  (Ok 3,
   {| session := tt; stdin := [u "4"];
      stdout := [Prompted (u "Number of nights: ");
                 Printed (u "Please enter a whole number.");
                 Prompted (u "Number of nights: ");
                 Printed (u "Please enter a number ≥ 1.");
                 Prompted (u "Number of nights: ")] |}).
Proof.
  assert (Hbad : Forall (refused (int_class ascii_builtins 1)) [u "two"; u "0"]).
  { repeat constructor; eexists; vm_compute; reflexivity. }
  rewrite (proj1 (read_positive_int_first_valid ascii_builtins (u "Number of nights: ")
                    1 [u "two"; u "0"]
                    {| session := tt; stdin := [u "two"; u "0"; u " 3"; u "4"];
                       stdout := [] |} Hbad)
                 (u " 3") 3 [u "4"]);
    [vm_compute; reflexivity | vm_compute; reflexivity | lia | reflexivity].
Defined.

(* ================================================================== *)
(** * How a run ends *)
(* ================================================================== *)

Section MoreRules.
Context {St : Type}.

Lemma ensures_ret {A} (Q : A -> world St -> Prop) (a : A) :
  (forall w, Q a w) -> ensures Q (ret a).
Proof. intros H w a' [= <-]. apply H. Qed.

Lemma ensures_bind {A B} (Q : B -> world St -> Prop) (m : M St A) (k : A -> M St B) :
  (forall a, ensures Q (k a)) -> ensures Q (bind m k).
Proof.
  intros Hk w b. unfold bind.
  destruct (m w) as [[a | e |] w1]; simpl; try discriminate. apply Hk.
Qed.

Lemma ensures_iter {L A} (Q : A -> world St -> Prop) (body : L -> M St (step L A)) :
  (forall l, ensures (fun r w' => match r with
                                  | Return a => Q a w'
                                  | Continue _ => True
                                  end) (body l)) ->
  forall fuel l, ensures Q (iter fuel body l).
Proof.
  intros Hb. induction fuel as [|fuel IH]; intros l w a; [discriminate |].
  simpl. unfold bind. specialize (Hb l w).
  destruct (body l w) as [[[l' | a'] | e |] w1]; simpl in *; try discriminate.
  - apply IH.
  - intros [= <-]. apply (Hb _ eq_refl).
Qed.

Lemma ensures_while_true {L A} (Q : A -> world St -> Prop)
      (body : L -> M St (step L A)) (l : L) :
  (forall l, ensures (fun r w' => match r with
                                  | Return a => Q a w'
                                  | Continue _ => True
                                  end) (body l)) ->
  ensures Q (while_true body l).
Proof. intros Hb w. unfold while_true. apply ensures_iter. exact Hb. Qed.

Lemma avoids_input_ne e (prompt : pystr) :
  e <> EOFError -> avoids e (input (St := St) prompt).
Proof.
  intros He w. unfold input. destruct (stdin w); simpl; congruence.
Qed.

Lemma avoids_raise {A} e e' :
  e <> e' -> avoids e (raise (St := St) (A := A) e').
Proof. intros He w. simpl. congruence. Qed.

Lemma keeps_quiet {A} (Inv Crash : St -> Prop) (m : M St A) :
  frame m -> avoids ValueError_str_digits m -> keeps Inv Crash m.
Proof.
  intros Hf Ha w HI. specialize (Hf w). specialize (Ha w).
  destruct (fst (m w)) as [a | [| |] |]; try exact I;
    try (rewrite Hf; exact HI).
  exfalso. apply Ha. reflexivity.
Qed.

Lemma keeps_bind {A B} (Inv Crash : St -> Prop) (m : M St A) (k : A -> M St B) :
  keeps Inv Crash m -> (forall a, keeps Inv Crash (k a)) ->
  keeps Inv Crash (bind m k).
Proof.
  intros Hm Hk w HI. unfold bind. specialize (Hm w HI).
  destruct (m w) as [[a | e |] w1]; simpl in *.
  - apply Hk. exact Hm.
  - exact Hm.
  - exact I.
Qed.

Lemma keeps_iter {L A} (Inv Crash : St -> Prop) (body : L -> M St (step L A)) :
  (forall l, keeps Inv Crash (body l)) ->
  forall fuel l, keeps Inv Crash (iter fuel body l).
Proof.
  intros Hb. induction fuel as [|fuel IH]; intros l; simpl.
  - intros w _. exact I.
  - apply keeps_bind; [apply Hb |].
    intros [l' | a]; [apply IH |].
    apply keeps_quiet; [apply frame_ret | apply avoids_ret].
Qed.

Lemma keeps_while_true {L A} (Inv Crash : St -> Prop)
      (body : L -> M St (step L A)) (l : L) :
  (forall l, keeps Inv Crash (body l)) -> keeps Inv Crash (while_true body l).
Proof. intros Hb w. unfold while_true. apply keeps_iter. exact Hb. Qed.

Lemma eof_ret {A} (a : A) : eof_at_end (ret (St := St) a).
Proof. intros w. discriminate. Qed.

Lemma eof_raise_TypeError {A} : eof_at_end (raise (St := St) (A := A) TypeError).
Proof. intros w. discriminate. Qed.

Lemma eof_digits_check (n : Z) : eof_at_end (digits_check (St := St) n).
Proof. intros w. unfold digits_check. destruct (has_text n); discriminate. Qed.

Lemma eof_money_call (pence : Z) : eof_at_end (money_call (St := St) pence).
Proof.
  intros w. unfold money_call, bind, digits_check.
  destruct (has_text (pence / 100)); discriminate.
Qed.

Lemma eof_print (text : pystr) : eof_at_end (print (St := St) text).
Proof. intros w. discriminate. Qed.

Lemma eof_get_state : eof_at_end (get_state (St := St)).
Proof. intros w. discriminate. Qed.

Lemma eof_modify_state (f : St -> St) : eof_at_end (modify_state f).
Proof. intros w. discriminate. Qed.

Lemma eof_input (prompt : pystr) : eof_at_end (input (St := St) prompt).
Proof. intros w. unfold input. destruct (stdin w); [reflexivity | discriminate]. Qed.

Lemma eof_bind {A B} (m : M St A) (k : A -> M St B) :
  eof_at_end m -> (forall a, eof_at_end (k a)) -> eof_at_end (bind m k).
Proof.
  intros Hm Hk w. unfold bind. specialize (Hm w).
  destruct (m w) as [[a | e |] w1]; simpl in *.
  - apply Hk.
  - intros [= ->]. apply Hm. reflexivity.
  - discriminate.
Qed.

Lemma eof_iter {L A} (body : L -> M St (step L A)) :
  (forall l, eof_at_end (body l)) -> forall fuel l, eof_at_end (iter fuel body l).
Proof.
  intros Hb. induction fuel as [|fuel IH]; intros l; simpl.
  - intros w. discriminate.
  - apply eof_bind; [apply Hb |].
    intros [l' | a]; [apply IH | apply eof_ret].
Qed.

Lemma eof_while_true {L A} (body : L -> M St (step L A)) (l : L) :
  (forall l, eof_at_end (body l)) -> eof_at_end (while_true body l).
Proof. intros Hb w. unfold while_true. apply eof_iter. exact Hb. Qed.

Lemma eof_for_each {A} (xs : list A) (body : A -> M St unit) :
  (forall x, eof_at_end (body x)) -> eof_at_end (for_each xs body).
Proof.
  intros Hb. induction xs as [|x xs IH]; simpl;
    [apply eof_ret | apply eof_bind; [apply Hb | intros _; exact IH]].
Qed.
End MoreRules.

Ltac eof_tac :=
  repeat (intros;
          first [ apply eof_ret | apply eof_raise_TypeError | apply eof_print
                | apply eof_digits_check | apply eof_money_call
                | apply eof_get_state | apply eof_modify_state | apply eof_input
                | apply eof_bind | apply eof_while_true | apply eof_for_each
                | case_head ]).

Lemma eof_main py : eof_at_end (main py).
Proof.
  unfold main, menu_round, run_hire_flow, hire_round, run_earnings_report,
    print_main_menu, read_choice, read_customer_header, read_positive_int,
    read_yes_no, read_item_lines.
  eof_tac.
Qed.

Lemma last_event_print {St} (text : pystr) (w : world St) :
  last_event (snd (print text w)) = Some (Printed text).
Proof.
  unfold last_event, print. cbn [snd stdout]. rewrite map_app. apply last_last.
Qed.

Lemma goodbye_menu_round py l :
  ensures (fun r w' => match r with
                       | Return _ => last_event w' = Some (Printed (u "Goodbye!"))
                       | Continue _ => True
                       end) (menu_round py l).
Proof.
  unfold menu_round.
  apply ensures_bind. intros _. apply ensures_bind. intros [choice|].
  - destruct (choice =? 1);
      [apply ensures_bind; intros _; apply ensures_ret; intros; exact I |].
    destruct (choice =? 2);
      [apply ensures_bind; intros _; apply ensures_ret; intros; exact I |].
    destruct (choice =? 3); [| apply ensures_ret; intros; exact I].
    intros w r E. unfold bind in E |- *.
    pose proof (last_event_print (u "Goodbye!") w) as Hl.
    destruct (print (u "Goodbye!") w) as [[[] | e |] w1]; simpl in *;
      try discriminate.
    injection E as <-. exact Hl.
  - apply ensures_bind. intros _. apply ensures_ret. intros; exact I.
Qed.

(** No exception but [EOFError] where a function only reads and prints. *)
Ltac never_tac :=
  repeat (intros;
          first [ apply avoids_ret | apply avoids_print
                | apply avoids_input_ne; discriminate
                | apply avoids_raise; discriminate
                | apply avoids_get_state | apply avoids_modify_state
                | apply avoids_for_each
                | eapply avoids_bind; [| apply post_any | intros ? _]
                | match goal with
                  | |- avoids ?e (while_true _ _) =>
                    apply (avoids_while_true e (fun _ => True));
                    [intros ? _ | intros ? _ ? [?|?] _; exact I | exact I]
                  end
                | case_head ]).

Ltac quiet_tac := apply keeps_quiet; [frame_tac | never_tac].

Lemma ledger_fits_save (st : state) (h : Hire.t bool) :
  ledger_fits st -> amounts_fit h = true ->
  ledger_fits (bump_customer_id (append_hire h st)).
Proof.
  unfold ledger_fits. cbn [bump_customer_id append_hire hire_records].
  intros Hst Hh. rewrite forallb_app, Hst. cbn [forallb]. rewrite Hh. reflexivity.
Qed.

Lemma stopped_at_save_intro (st : state) (h : Hire.t bool) :
  ledger_fits st -> amounts_fit h = false ->
  stopped_at_save (bump_customer_id (append_hire h st)).
Proof.
  intros Hst Hh. exists (hire_records st), h.
  split; [reflexivity | split; [exact Hst | exact Hh]].
Qed.

(** A round of the hire loop saves the hire before it prints its amounts:
    when one of them is too long, the [ValueError] leaves it in the ledger. *)
Lemma keeps_hire_round py l :
  keeps ledger_fits stopped_at_save (hire_round py l).
Proof.
  unfold hire_round.
  apply keeps_bind; [unfold read_customer_header; quiet_tac |].
  intros [header|]; [| quiet_tac].
  apply keeps_bind; [unfold read_positive_int; quiet_tac | intros nights].
  apply keeps_bind; [unfold read_yes_no; quiet_tac | intros flag].
  apply keeps_bind; [unfold read_item_lines; quiet_tac | intros lines].
  intros w HI.
  rewrite (bind_Ok get_state _ w (session w) w eq_refl). cbv zeta.
  rewrite (bind_Ok (modify_state _) _ _ tt _ eq_refl).
  rewrite (bind_Ok (modify_state _) _ _ tt _ eq_refl).
  rewrite !bind_print.
  set (hire := new_hire (session w) header nights flag lines).
  destruct (has_text (Hire.extra_delay_p hire / 100)) eqn:Hextra.
  - rewrite (bind_Ok _ _ _ _ _ (money_call_Ok _ _ Hextra)), bind_print.
    destruct (has_text (Hire.total_p hire / 100)) eqn:Htotal.
    + rewrite (bind_Ok _ _ _ _ _ (money_call_Ok _ _ Htotal)), bind_print.
      match goal with
      | |- match fst (?m ?w0) with _ => _ end =>
        assert (Hq : keeps ledger_fits stopped_at_save m)
          by (unfold read_yes_no; quiet_tac);
        apply (Hq w0)
      end.
      cbn [emit session]. apply ledger_fits_save; [exact HI |].
      unfold amounts_fit. rewrite Hextra, Htotal. reflexivity.
    + rewrite (bind_Raise _ _ _ _ _ (money_call_Raise _ _ Htotal)).
      cbn [fst snd emit session]. apply stopped_at_save_intro; [exact HI |].
      unfold amounts_fit. rewrite Hextra, Htotal. reflexivity.
  - rewrite (bind_Raise _ _ _ _ _ (money_call_Raise _ _ Hextra)).
    cbn [fst snd emit session]. apply stopped_at_save_intro; [exact HI |].
    unfold amounts_fit. rewrite Hextra. reflexivity.
Qed.

Lemma keeps_run_earnings_report :
  keeps ledger_fits stopped_at_save run_earnings_report.
Proof.
  intros w HI. rewrite run_earnings_report_prints by exact HI. exact HI.
Qed.

Lemma keeps_menu_round py l :
  keeps ledger_fits stopped_at_save (menu_round py l).
Proof.
  unfold menu_round.
  apply keeps_bind; [unfold print_main_menu; quiet_tac | intros _].
  apply keeps_bind; [unfold read_choice; quiet_tac |].
  intros [choice|]; [| quiet_tac].
  destruct (choice =? 1).
  { apply keeps_bind; [| intros _; quiet_tac].
    unfold run_hire_flow. apply keeps_while_true. apply keeps_hire_round. }
  destruct (choice =? 2).
  { apply keeps_bind; [apply keeps_run_earnings_report | intros _; quiet_tac]. }
  quiet_tac.
Qed.

Lemma keeps_run py typed :
  match fst (run py typed) with
  | Raise ValueError_str_digits => stopped_at_save (session (snd (run py typed)))
  | Timeout => True
  | _ => ledger_fits (session (snd (run py typed)))
  end.
Proof.
  unfold run, main.
  rewrite (bind_Ok (modify_state _) _ _ tt _ eq_refl).
  apply (keeps_while_true ledger_fits stopped_at_save (menu_round py) tt
                          (keeps_menu_round py)).
  reflexivity.
Qed.

(** X3.  On any finite input the programme stops, and in one of three
    ways: normally, and then the last thing on the terminal is [Goodbye!];
    with [EOFError] from an [input] call, and then every typed line has
    been read; or with the [ValueError] of an amount of more than 4300
    digits, and then the hire saved last is the one whose late charge or
    total cannot be printed.  In the first two cases every amount of the
    ledger can be printed.  The [TypeError] that a failed second lookup in
    [read_item_lines] would raise never occurs. *)
Theorem programme_ends (py : builtins) (typed : list pystr) :
  match fst (run py typed) with
  | Ok _ => last_event (snd (run py typed)) = Some (Printed (u "Goodbye!")) /\
            ledger_fits (session (snd (run py typed)))
  | Raise EOFError => stdin (snd (run py typed)) = [] /\
                      ledger_fits (session (snd (run py typed)))
  | Raise ValueError_str_digits =>
    stopped_at_save (session (snd (run py typed)))
  | Raise TypeError => False
  | Timeout => False
  end.
Proof.
  pose proof (run_outcome py typed) as Hout.
  pose proof (keeps_run py typed) as Hkeep.
  destruct (fst (run py typed)) as [[] | e |] eqn:E.
  - split; [| exact Hkeep].
    unfold run in E |- *. unfold main in E |- *.
    rewrite (bind_Ok (modify_state _) _ _ tt _ eq_refl) in E |- *.
    revert E.
    apply (ensures_while_true
             (fun _ w' => last_event w' = Some (Printed (u "Goodbye!")))
             (menu_round py) tt (goodbye_menu_round py)).
  - destruct Hout as [Hout | [Hout | Hout]]; [discriminate | |];
      injection Hout as ->; [| exact Hkeep].
    split; [apply eof_main; exact E | exact Hkeep].
  - destruct Hout as [Hout | [Hout | Hout]]; discriminate.
Qed.

(** A hire of 10^2200 day chairs for 10^2200 nights is saved, and the
    programme stops on its total, which has more than 4300 digits. *)
Example long_amount_stops :
  let big := u "1" ++ replicate 2200 48%N in
  let r := run ascii_builtins
               [u "1"; u "Jane Smith, 07900111222, 12, LE1 2AB, 1234"; big; u "y";
                u "DCH, " ++ big; []; u "n"; u "3"] in
  fst r = Raise ValueError_str_digits /\
  length (hire_records (session (snd r))) = 1%nat /\
  stdin (snd r) = [u "n"; u "3"].
Proof. vm_compute. repeat split. Qed.

(* ================================================================== *)
(** * The parsers: what they accept *)
(* ================================================================== *)

Lemma split_comma_aux_length (field s : pystr) :
  length (split_comma_aux field s) = S (count_occ N.eq_dec s COMMA).
Proof.
  revert field. induction s as [|c s IH]; intros field; [reflexivity |].
  cbn [split_comma_aux count_occ].
  destruct (N.eqb_spec c COMMA) as [-> | Hne].
  - destruct (N.eq_dec COMMA COMMA); [| contradiction]. simpl. rewrite IH. reflexivity.
  - destruct (N.eq_dec c COMMA); [contradiction |]. apply IH.
Qed.

Lemma split_comma_length (s : pystr) :
  length (split_comma s) = S (count_occ N.eq_dec s COMMA).
Proof. apply split_comma_aux_length. Qed.

Lemma filter_all {A} (f : A -> bool) (l : list A) :
  Forall (fun x => f x = true) (filter f l).
Proof.
  apply Forall_forall. intros x Hin. apply filter_In in Hin. tauto.
Qed.

(** What [_parse_customer_header] has checked when it returns a header. *)
Lemma parse_customer_header_Parsed (py : builtins) (raw : pystr) (h : Header.t) :
  _parse_customer_header py raw = Parsed h ->
  count_occ N.eq_dec raw COMMA = 4%nat /\
  Header.customer_name h <> [] /\
  7 <= len (Header.phone h) /\
  Forall (fun c => ch_isdigit py c = true) (Header.phone h) /\
  len (Header.card_last4 h) = 4 /\
  Forall (fun c => ch_isdigit py c = true) (Header.card_last4 h).
Proof.
  unfold _parse_customer_header. intros H.
  pose proof (split_comma_length raw) as Hlen.
  rewrite <- (length_map (str_strip py)) in Hlen.
  destruct (map (str_strip py) (split_comma raw))
    as [|name [|phone [|house [|postcode [|card [|? ?]]]]]]; try discriminate.
  destruct name as [|c name]; [discriminate |]. cbn [is_empty] in H.
  destruct (len (filter (ch_isdigit py) phone) <? 7) eqn:Ephone; [discriminate |].
  destruct (len (filter (ch_isdigit py) card) =? 4) eqn:Ecard; [| discriminate].
  cbn [negb] in H. injection H as <-.
  cbn [Header.customer_name Header.phone Header.card_last4].
  split; [simpl in Hlen; lia |].
  split; [discriminate |].
  split; [apply Z.ltb_ge; exact Ephone |].
  split; [apply filter_all |].
  split; [apply Z.eqb_eq; exact Ecard | apply filter_all].
Qed.

(** X4.  A header that [_parse_customer_header] accepts comes from a line
    with exactly four commas and has a non-empty name, a phone number of at
    least 7 characters, all digits, and a card suffix of exactly 4
    characters, all digits. *)
Theorem parsed_header_is_valid (py : builtins) (raw : pystr) (h : Header.t) :
  _parse_customer_header py raw = Parsed h ->
  count_occ N.eq_dec raw COMMA = 4%nat /\
  Header.customer_name h <> [] /\
  7 <= len (Header.phone h) /\
  Forall (fun c => ch_isdigit py c = true) (Header.phone h) /\
  len (Header.card_last4 h) = 4 /\
  Forall (fun c => ch_isdigit py c = true) (Header.card_last4 h).
Proof. exact (parse_customer_header_Parsed py raw h). Qed.

Lemma parsed_header_is_valid_witness :
  _parse_customer_header ascii_builtins
                         (u " Jane Smith, 07900 111-222, 12, le1 2ab, 1234") =
    Parsed {| Header.customer_name := u "Jane Smith";
              Header.phone := u "07900111222";
              Header.house_no := u "12";
              Header.postcode := u "LE1 2AB";
              Header.card_last4 := u "1234" |} /\
  7 <= len (u "07900111222").
Proof.
  assert (E : _parse_customer_header ascii_builtins
                (u " Jane Smith, 07900 111-222, 12, le1 2ab, 1234") =
              Parsed {| Header.customer_name := u "Jane Smith";
                        Header.phone := u "07900111222";
                        Header.house_no := u "12";
                        Header.postcode := u "LE1 2AB";
                        Header.card_last4 := u "1234" |})
    by (vm_compute; reflexivity).
  split; [exact E |].
  pose proof (parsed_header_is_valid ascii_builtins _ _ E) as (_ & _ & H & _).
  cbn [Header.phone] in H. exact H.
Defined.

(** X5.  [_parse_customer_header] answers [Expected 5 fields separated by
    commas.] exactly for the lines whose number of commas is not four,
    whatever stands between the commas. *)
Theorem header_field_count (py : builtins) (raw : pystr) :
  _parse_customer_header py raw =
    ValueError (u "Expected 5 fields separated by commas.") <->
  count_occ N.eq_dec raw COMMA <> 4%nat.
Proof.
  unfold _parse_customer_header.
  pose proof (split_comma_length raw) as Hlen.
  rewrite <- (length_map (str_strip py)) in Hlen.
  destruct (map (str_strip py) (split_comma raw))
    as [|name [|phone [|house [|postcode [|card [|? ?]]]]]];
    simpl in Hlen; try (split; [intros _; lia | reflexivity]).
  split; [| intros Hne; lia].
  intros H. exfalso.
  destruct (is_empty name); [vm_compute in H; discriminate |].
  destruct (len (filter (ch_isdigit py) phone) <? 7);
    [vm_compute in H; discriminate |].
  destruct (negb (len (filter (ch_isdigit py) card) =? 4));
    [vm_compute in H; discriminate | discriminate].
Qed.

(** What [_parse_item_line] has checked when it returns a pair. *)
Lemma parse_item_line_fields (py : builtins) (raw code : pystr) (qty : Z) :
  _parse_item_line py raw = Parsed (code, qty) ->
  count_occ N.eq_dec raw COMMA = 1%nat /\
  1 <= qty /\
  (exists code_s qty_s,
      map (str_strip py) (split_comma raw) = [code_s; qty_s] /\
      code = str_upper py code_s /\ py_int py qty_s = Some qty) /\
  exists item, find_item py code = Some item /\ In item CATALOG.
Proof.
  intros H.
  destruct (parse_item_line_Parsed py raw code qty H) as [Hq [item Hfind]].
  unfold _parse_item_line in H.
  pose proof (split_comma_length raw) as Hlen.
  rewrite <- (length_map (str_strip py)) in Hlen.
  destruct (map (str_strip py) (split_comma raw)) as [|code_s [|qty_s [|? ?]]];
    try discriminate.
  destruct (find_item py (str_upper py code_s)); [| discriminate].
  destruct (py_int py qty_s) as [n|] eqn:Eint; [| discriminate].
  destruct (n <? 1); [discriminate |]. injection H as <- <-.
  split; [simpl in Hlen; lia |].
  split; [exact Hq |].
  split; [exists code_s, qty_s; auto |].
  exists item. split; [exact Hfind |].
  unfold find_item in Hfind. apply find_some in Hfind. tauto.
Qed.

(** X6.  A pair that [_parse_item_line] accepts comes from a line with
    exactly one comma; its quantity is at least 1 and its code is the
    upper-case form of the first field, for which [find_item] returns an
    entry of the catalogue. *)
Theorem parsed_item_line_is_valid (py : builtins) (raw code : pystr) (qty : Z) :
  _parse_item_line py raw = Parsed (code, qty) ->
  count_occ N.eq_dec raw COMMA = 1%nat /\
  1 <= qty /\
  (exists code_s qty_s,
      map (str_strip py) (split_comma raw) = [code_s; qty_s] /\
      code = str_upper py code_s /\ py_int py qty_s = Some qty) /\
  exists item, find_item py code = Some item /\ In item CATALOG.
Proof. exact (parse_item_line_fields py raw code qty). Qed.

Lemma parsed_item_line_is_valid_witness :
  _parse_item_line ascii_builtins (u " stv , 2 ") = Parsed (u "STV", 2) /\
  exists item, find_item ascii_builtins (u "STV") = Some item /\ In item CATALOG.
Proof.
  assert (E : _parse_item_line ascii_builtins (u " stv , 2 ") = Parsed (u "STV", 2))
    by (vm_compute; reflexivity).
  split; [exact E |].
  exact (proj2 (proj2 (proj2 (parsed_item_line_is_valid ascii_builtins _ _ _ E)))).
Defined.

Lemma read_item_lines_prints_no_amount {St : Type} py nights flag :
  avoids ValueError_str_digits (read_item_lines (St := St) py nights flag).
Proof. unfold read_item_lines. never_tac. Qed.

(** X7.  [read_item_lines] never returns an empty list: a blank line
    before any accepted item gets [You must enter at least one item.] and
    the loop goes on.  Every line it returns has a quantity of at least 1,
    a code that [find_item] knows, the name and price of that entry, and
    the costs [calc_line_costs] gives for the nights and flag of the call.
    The only exception it can end with is [EOFError]. *)
Theorem read_item_lines_result {St : Type} (py : builtins) (nights : Z)
        (returned_on_time : bool) (w : world St) :
  match fst (read_item_lines py nights returned_on_time w) with
  | Ok lines => lines <> [] /\
                Forall (line_ok py nights returned_on_time) lines
  | Raise e => e = EOFError
  | Timeout => False
  end.
Proof.
  pose proof (post_read_item_lines py nights returned_on_time w) as Hpost.
  pose proof (avoids_read_item_lines py nights returned_on_time w) as Havoid.
  pose proof (read_item_lines_prints_no_amount py nights returned_on_time w)
    as Hsilent.
  destruct (tame_read_item_lines py nights returned_on_time w) as [Htame _].
  destruct (fst (read_item_lines py nights returned_on_time w))
    as [lines | [| |] |].
  - apply Hpost. reflexivity.
  - reflexivity.
  - contradiction.
  - contradiction.
  - contradiction.
Qed.

(* ================================================================== *)
(** * The ledger: what every saved hire satisfies *)
(* ================================================================== *)

Lemma find_item_In py code item : find_item py code = Some item -> In item CATALOG.
Proof. unfold find_item. intros H. apply find_some in H. tauto. Qed.

Lemma catalog_prices : Forall (fun it => 500 <= Item.daily_p it) CATALOG.
Proof. unfold CATALOG. repeat constructor; cbn [Item.daily_p]; lia. Qed.

Lemma hire_ok_well_formed py h : hire_ok py h -> well_formed_hire py h.
Proof.
  intros (Hn & Hne & Hl & _). split; [exact Hn | split; [exact Hne |]].
  eapply Forall_impl; [| exact Hl].
  intros ln (_ & Hq & item & Hfind & Hname & Hprice).
  split; [exact Hq |]. exists item.
  split; [apply (find_item_In py _ _ Hfind) | auto].
Qed.

(** X8.  In the ledger at the end of any run, every hire has at least one
    night and at least one line, and every line has a quantity of at least
    1 and a code that [find_item] resolves to an entry of the catalogue
    whose name and nightly price the line carries. *)
Theorem ledger_well_formed (py : builtins) (typed : list pystr) :
  Forall (well_formed_hire py) (hire_records (session (snd (run py typed)))).
Proof.
  destruct (grows_from_init py _ (run_grows py typed)) as [_ Hok].
  eapply Forall_impl; [| exact Hok]. intros h. apply hire_ok_well_formed.
Qed.

Lemma sum_of_bounds {A} (f g : A -> Z) (xs : list A) :
  Forall (fun x => 0 <= f x <= g x) xs -> 0 <= sum_of f xs <= sum_of g xs.
Proof.
  induction 1 as [|x xs Hx _ IH]; [unfold sum_of; simpl; lia |].
  rewrite !sum_of_cons. lia.
Qed.

Lemma sum_of_at_least {A} (f : A -> Z) (xs : list A) (low : Z) :
  0 <= low -> xs <> [] -> Forall (fun x => low <= f x) xs -> low <= sum_of f xs.
Proof.
  intros Hlow Hne Hall. destruct Hall as [|x xs Hx Hxs]; [contradiction |].
  rewrite sum_of_cons.
  assert (0 <= sum_of f xs).
  { clear Hne Hx. induction Hxs as [|y ys Hy _ IH]; [unfold sum_of; simpl; lia |].
    rewrite sum_of_cons. lia. }
  lia.
Qed.

Lemma sum_of_zero {A} (f : A -> Z) (xs : list A) :
  Forall (fun x => f x = 0) xs -> sum_of f xs = 0.
Proof.
  induction 1 as [|x xs Hx _ IH]; [reflexivity |]. rewrite sum_of_cons. lia.
Qed.

Lemma line_amounts py nights flag ln :
  1 <= nights -> line_ok py nights flag ln ->
  0 <= Line.extra_delay_p ln <= Line.line_total_p ln /\
  500 <= Line.line_total_p ln /\
  (flag = true -> Line.extra_delay_p ln = 0) /\
  (flag = false -> 250 <= Line.extra_delay_p ln).
Proof.
  intros Hn ([Hcalc Htot] & Hq & item & Hfind & _ & Hprice).
  pose proof catalog_prices as Hp. rewrite Forall_forall in Hp.
  specialize (Hp item (find_item_In py _ _ Hfind)). rewrite <- Hprice in Hp.
  rewrite calc_line_costs_eq in Hcalc. rewrite Z.max_r in Hcalc by lia.
  injection Hcalc as Hfirst Hadd Hextra.
  assert (Hpq : 500 <= Line.daily_p ln * Line.qty ln) by nia.
  assert (Hhalf : 250 <= Line.daily_p ln * Line.qty ln / 2)
    by (apply Z.div_le_lower_bound; lia).
  assert (Hadd0 : 0 <= Line.additional_nights_p ln) by (rewrite <- Hadd; nia).
  rewrite Htot, <- Hfirst. destruct flag; rewrite <- Hextra.
  - split; [lia | split; [lia | split; [reflexivity | discriminate]]].
  - split; [lia | split; [lia | split; [discriminate | intros _; lia]]].
Qed.

Lemma line_parts py nights flag ln :
  1 <= nights -> line_ok py nights flag ln -> line_amounts_ok ln.
Proof.
  intros Hn Hok. destruct (line_amounts py nights flag ln Hn Hok) as (Hb & Ht & _).
  destruct Hok as ([Hcalc Htot] & Hq & item & Hfind & _ & Hprice).
  pose proof catalog_prices as Hp. rewrite Forall_forall in Hp.
  specialize (Hp item (find_item_In py _ _ Hfind)). rewrite <- Hprice in Hp.
  rewrite calc_line_costs_eq in Hcalc. rewrite Z.max_r in Hcalc by lia.
  injection Hcalc as Hfirst Hadd Hextra.
  assert (Hpq : 500 <= Line.daily_p ln * Line.qty ln) by nia.
  assert (Hhalf : 250 <= Line.daily_p ln * Line.qty ln / 2)
    by (apply Z.div_le_lower_bound; lia).
  unfold line_amounts_ok.
  split; [exact Hp | split; [lia | split; [rewrite <- Hadd; nia |]]].
  split; [exact Hb | exact Ht].
Qed.

Lemma hire_ok_amounts py h : hire_ok py h -> amounts_ok h.
Proof.
  intros (Hn & Hne & Hl & Htot & Hextra & _).
  assert (Hall : Forall (fun ln =>
                           0 <= Line.extra_delay_p ln <= Line.line_total_p ln /\
                           500 <= Line.line_total_p ln /\
                           (Hire.returned_on_time h = true ->
                            Line.extra_delay_p ln = 0) /\
                           (Hire.returned_on_time h = false ->
                            250 <= Line.extra_delay_p ln)) (Hire.lines h)).
  { eapply Forall_impl; [| exact Hl]. intros ln. apply line_amounts. exact Hn. }
  unfold amounts_ok. rewrite Htot, Hextra.
  split; [| split; [| split; [| split]]];
    [| | | | eapply Forall_impl; [| exact Hl]; intros ln; apply line_parts; exact Hn].
  - apply sum_of_bounds. eapply Forall_impl; [| exact Hall]. cbv beta. tauto.
  - apply sum_of_at_least; [lia | exact Hne |].
    eapply Forall_impl; [| exact Hall]. cbv beta. tauto.
  - intros Hflag. apply sum_of_zero.
    eapply Forall_impl; [| exact Hall]. cbv beta. tauto.
  - intros Hflag. apply sum_of_at_least; [lia | exact Hne |].
    eapply Forall_impl; [| exact Hall]. cbv beta. tauto.
Qed.

(** X9.  In the ledger at the end of any run, every hire costs at least
    5.00 (the cheapest nightly price), its late charge lies between 0 and
    its total, is 0 when the equipment came back on time and at least 2.50
    when it did not; and every line of every hire has a nightly price, a
    first-night cost and a line total of at least 5.00, an
    additional-nights cost of at least 0 and a late charge between 0 and
    its line total.  No amount stored in the ledger is negative. *)
Theorem ledger_amounts (py : builtins) (typed : list pystr) :
  Forall amounts_ok (hire_records (session (snd (run py typed)))).
Proof.
  destruct (grows_from_init py _ (run_grows py typed)) as [_ Hok].
  eapply Forall_impl; [| exact Hok]. intros h. apply hire_ok_amounts.
Qed.

(* ================================================================== *)
(** * The pricing engine: the edges *)
(* ================================================================== *)

(** X10.  [calc_line_costs] charges a stay of fewer than one night (0 or a
    negative number of nights) exactly as one night: the additional-nights
    cost is clamped at 0, never negative. *)
Theorem calc_line_costs_clamps_nights (daily_p qty nights : Z)
        (returned_on_time : bool) :
  nights <= 1 ->
  calc_line_costs daily_p qty nights returned_on_time =
    calc_line_costs daily_p qty 1 returned_on_time /\
  snd (fst (calc_line_costs daily_p qty nights returned_on_time)) = 0.
Proof.
  intros Hn. rewrite !calc_line_costs_eq. cbn [fst snd].
  rewrite Z.max_l by lia. rewrite Z.max_l by lia. split; [reflexivity | lia].
Qed.

Lemma calc_line_costs_clamps_nights_witness :
  calc_line_costs 1500 2 (-3) false = calc_line_costs 1500 2 1 false /\
  snd (fst (calc_line_costs 1500 2 (-3) false)) = 0.
Proof. apply (calc_line_costs_clamps_nights 1500 2 (-3) false). lia. Defined.

(** X11.  For a stay of at least one night, returning late costs exactly
    what one more night returned on time costs: the three components of
    the late stay add up to those of the on-time stay that is one night
    longer. *)
Theorem late_return_is_one_more_night (daily_p qty nights : Z) :
  1 <= nights ->
  let '(first_p, add_p, delay_p) := calc_line_costs daily_p qty nights false in
  let '(first_p', add_p', delay_p') :=
    calc_line_costs daily_p qty (nights + 1) true in
  first_p + add_p + delay_p = first_p' + add_p' + delay_p'.
Proof.
  intros Hn. rewrite !calc_line_costs_eq.
  rewrite !Z.max_r by lia. lia.
Qed.

Lemma late_return_is_one_more_night_witness :
  calc_line_costs 2500 1 2 false = (2500, 1250, 1250) /\
  calc_line_costs 2500 1 3 true = (2500, 2500, 0) /\
  let '(first_p, add_p, delay_p) := calc_line_costs 2500 1 2 false in
  let '(first_p', add_p', delay_p') := calc_line_costs 2500 1 (2 + 1) true in
  first_p + add_p + delay_p = first_p' + add_p' + delay_p'.
Proof.
  split; [reflexivity | split; [reflexivity |]].
  apply (late_return_is_one_more_night 2500 1 2). lia.
Defined.

(* ================================================================== *)
(** * Leaving the hire flow *)
(* ================================================================== *)

Lemma read_customer_header_cancel {St} py line rest (w : world St) :
  stdin w = line :: rest ->
  str_in (str_lower py (str_strip py line)) [[]; u "cancel"] = true ->
  read_customer_header py w =
  (Ok None,
   {| session := session w; stdin := rest;
      stdout := stdout w ++
                [Printed CUSTOMER_ENTRY_INSTRUCTIONS;
                 Printed (u "Type 'cancel' to return to the menu without saving.");
                 Prompted (u "> "); Printed (u "Cancelled.")] |}).
Proof.
  intros Hw Hc. unfold read_customer_header. rewrite !bind_print.
  rewrite while_true_unfold;
    [| intros []; tame_tac
     | intros []; apply eats_bind_l; [apply eats_input | tame_tac]].
  unfold bind, input. cbn [emit stdin session stdout]. rewrite Hw, Hc.
  cbn. rewrite <- !app_assoc. reflexivity.
Qed.

(** X12.  Typing [cancel] in any letter case, or a blank line, at the
    customer prompt leaves the hire flow at once: [run_hire_flow] returns
    normally after [Cancelled.] and [Returning to main menu.], having read
    that one line, and the state (ledger and counter) is what it was. *)
Theorem cancel_leaves_state (py : builtins) (line : pystr) (rest : list pystr)
        (w : world state) :
  stdin w = line :: rest ->
  str_in (str_lower py (str_strip py line)) [[]; u "cancel"] = true ->
  run_hire_flow py w =
  (Ok tt,
   {| session := session w; stdin := rest;
      stdout := stdout w ++
                [Printed CUSTOMER_ENTRY_INSTRUCTIONS;
                 Printed (u "Type 'cancel' to return to the menu without saving.");
                 Prompted (u "> "); Printed (u "Cancelled.");
                 Printed (u "Returning to main menu.")] |}).
Proof.
  intros Hw Hc. rewrite run_hire_flow_unfold. unfold hire_round.
  unfold bind at 1 2.
  rewrite (read_customer_header_cancel py line rest w Hw Hc).
  rewrite bind_print. unfold ret, emit. cbn [session stdin stdout map].
  rewrite <- app_assoc. reflexivity.
Qed.

Lemma cancel_leaves_state_witness :
  run_hire_flow ascii_builtins
                {| session := sample_state; stdin := [u " Cancel "; u "3"];
                   stdout := [] |} =
  (Ok tt,
   {| session := sample_state; stdin := [u "3"];
      stdout := [Printed CUSTOMER_ENTRY_INSTRUCTIONS;
                 Printed (u "Type 'cancel' to return to the menu without saving.");
                 Prompted (u "> "); Printed (u "Cancelled.");
                 Printed (u "Returning to main menu.")] |}).
Proof.
  apply (cancel_leaves_state ascii_builtins (u " Cancel ") [u "3"]
           {| session := sample_state; stdin := [u " Cancel "; u "3"];
              stdout := [] |});
    [reflexivity | vm_compute; reflexivity].
Defined.

(* ================================================================== *)
(** * Amounts as text *)
(* ================================================================== *)

(** ** The decimal text of an integer *)

Lemma utf8_decode_ascii (l : list ascii) :
  Forall (fun a => (N_of_ascii a < 192)%N) l ->
  utf8_decode (map N_of_ascii l) = map N_of_ascii l.
Proof.
  induction 1 as [|a l Ha _ IH]; [reflexivity |].
  cbn [map utf8_decode]. apply N.ltb_lt in Ha. rewrite Ha, IH. reflexivity.
Qed.

Lemma uint_text_digits (d : Decimal.uint) :
  Forall (fun a => (48 <= N_of_ascii a <= 57)%N)
         (list_ascii_of_string (NilEmpty.string_of_uint d)).
Proof.
  induction d; cbn [NilEmpty.string_of_uint list_ascii_of_string];
    constructor; try assumption; vm_compute; split; discriminate.
Qed.

Lemma nilzero_uint_text_digits (d : Decimal.uint) :
  Forall (fun a => (48 <= N_of_ascii a <= 57)%N)
         (list_ascii_of_string (NilZero.string_of_uint d)).
Proof.
  destruct d; try apply uint_text_digits.
  repeat constructor; vm_compute; discriminate.
Qed.

Lemma int_text_ascii (n : Z) :
  Forall (fun a => (N_of_ascii a < 192)%N)
         (list_ascii_of_string (NilZero.string_of_int (Z.to_int n))).
Proof.
  assert (Hd : forall d, Forall (fun a => (N_of_ascii a < 192)%N)
                                (list_ascii_of_string (NilZero.string_of_uint d))).
  { intros d. eapply Forall_impl; [| apply nilzero_uint_text_digits].
    cbv beta. intros a Ha. lia. }
  destruct n; cbn [Z.to_int NilZero.string_of_int list_ascii_of_string].
  - apply Hd.
  - apply Hd.
  - constructor; [vm_compute; reflexivity | apply Hd].
Qed.

Lemma str_of_Z_ascii (n : Z) :
  str_of_Z n =
  map N_of_ascii (list_ascii_of_string (NilZero.string_of_int (Z.to_int n))).
Proof. unfold str_of_Z, u. apply utf8_decode_ascii, int_text_ascii. Qed.

Lemma N_of_ascii_inj (a b : ascii) : N_of_ascii a = N_of_ascii b -> a = b.
Proof.
  intros H. rewrite <- (ascii_N_embedding a), <- (ascii_N_embedding b), H.
  reflexivity.
Qed.

Lemma map_N_of_ascii_inj (l l' : list ascii) :
  map N_of_ascii l = map N_of_ascii l' -> l = l'.
Proof.
  revert l'. induction l as [|a l IH]; intros [|b l']; simpl; try discriminate;
    [reflexivity |].
  intros [= Hab Hl]. f_equal; [apply N_of_ascii_inj; exact Hab | apply IH; exact Hl].
Qed.

Lemma to_int_proper (n : Z) :
  Z.to_int n <> Decimal.Pos Decimal.Nil /\ Z.to_int n <> Decimal.Neg Decimal.Nil.
Proof.
  destruct n; cbn [Z.to_int]; split; try discriminate;
    intros [= H]; apply (DecimalPos.Unsigned.to_uint_nonnil _ H).
Qed.

Lemma str_of_Z_inj (a b : Z) : str_of_Z a = str_of_Z b -> a = b.
Proof.
  rewrite !str_of_Z_ascii. intros H. apply map_N_of_ascii_inj in H.
  assert (Hs : NilZero.string_of_int (Z.to_int a) =
               NilZero.string_of_int (Z.to_int b)).
  { rewrite <- (string_of_list_ascii_of_string (NilZero.string_of_int (Z.to_int a))),
      <- (string_of_list_ascii_of_string (NilZero.string_of_int (Z.to_int b))), H.
    reflexivity. }
  apply DecimalZ.to_int_inj.
  destruct (to_int_proper a) as [Ha1 Ha2]. destruct (to_int_proper b) as [Hb1 Hb2].
  pose proof (NilZero.isi _ Ha1 Ha2) as Ia. pose proof (NilZero.isi _ Hb1 Hb2) as Ib.
  rewrite Hs in Ia. congruence.
Qed.

(** The characters of [str(n)]: a minus sign or digits. *)
Lemma str_of_Z_chars (n : Z) :
  Forall (fun c => c = 45%N \/ (48 <= c <= 57)%N) (str_of_Z n).
Proof.
  rewrite str_of_Z_ascii. apply Forall_map.
  destruct n; cbn [Z.to_int NilZero.string_of_int list_ascii_of_string].
  - eapply Forall_impl; [| apply nilzero_uint_text_digits]. cbv beta. auto.
  - eapply Forall_impl; [| apply nilzero_uint_text_digits]. cbv beta. auto.
  - constructor; [left; reflexivity |].
    eapply Forall_impl; [| apply nilzero_uint_text_digits]. cbv beta. auto.
Qed.

Lemma str_of_Z_neg (p : positive) :
  str_of_Z (Z.neg p) = 45%N :: str_of_Z (Z.pos p).
Proof. rewrite !str_of_Z_ascii. reflexivity. Qed.

(** ** The pence *)

Lemma fmt_02d_digits (r : Z) :
  0 <= r < 100 ->
  fmt_02d r = [Z.to_N (48 + r / 10); Z.to_N (48 + r mod 10)].
Proof.
  intros Hr.
  assert (Hall : forallb (fun k => pystr_eqb (fmt_02d (Z.of_nat k))
                                             [Z.to_N (48 + Z.of_nat k / 10);
                                              Z.to_N (48 + Z.of_nat k mod 10)])
                         (seq 0 100) = true) by (vm_compute; reflexivity).
  rewrite forallb_forall in Hall.
  specialize (Hall (Z.to_nat r)). rewrite Z2Nat.id in Hall by lia.
  apply pystr_eqb_eq, Hall, in_seq. lia.
Qed.

Lemma fmt_02d_inj (r r' : Z) :
  0 <= r < 100 -> 0 <= r' < 100 -> fmt_02d r = fmt_02d r' -> r = r'.
Proof.
  intros Hr Hr'. rewrite (fmt_02d_digits r Hr), (fmt_02d_digits r' Hr').
  intros H.
  assert (H1 := f_equal (fun l => nth 0 l 0%N) H).
  assert (H2 := f_equal (fun l => nth 1 l 0%N) H).
  cbn [nth] in H1, H2. clear H.
  assert (0 <= r / 10 < 10) by (split; [apply Z.div_pos | apply Z.div_lt_upper_bound]; lia).
  assert (0 <= r' / 10 < 10) by (split; [apply Z.div_pos | apply Z.div_lt_upper_bound]; lia).
  pose proof (Z.mod_pos_bound r 10 ltac:(lia)).
  pose proof (Z.mod_pos_bound r' 10 ltac:(lia)).
  apply Z2N.inj in H1; [| lia | lia]. apply Z2N.inj in H2; [| lia | lia].
  rewrite (Z.div_mod r 10), (Z.div_mod r' 10) by lia. lia.
Qed.

Lemma split_at_dot (x x' y y' : pystr) :
  Forall (fun c => c <> DOT) x -> Forall (fun c => c <> DOT) x' ->
  x ++ DOT :: y = x' ++ DOT :: y' -> x = x' /\ y = y'.
Proof.
  intros Hx. revert x'. induction Hx as [|c x Hc _ IH]; intros x' Hx' H.
  - destruct Hx' as [|c' x' Hc' _]; simpl in H.
    + injection H as ->. auto.
    + injection H as H _. congruence.
  - destruct Hx' as [|c' x' Hc' Hx']; simpl in H.
    + injection H as H _. congruence.
    + injection H as -> H. destruct (IH x' Hx' H) as [-> ->]. auto.
Qed.

Lemma str_of_Z_no_dot (n : Z) : Forall (fun c => c <> DOT) (str_of_Z n).
Proof.
  eapply Forall_impl; [| apply str_of_Z_chars]. cbv beta.
  intros c [-> | Hc]; unfold DOT; [discriminate | lia].
Qed.

Lemma money_parts (pence : Z) :
  money pence = 163%N :: str_of_Z (pence / 100) ++ DOT :: fmt_02d (pence mod 100).
Proof. reflexivity. Qed.

(** X13.  [money] never prints two different amounts alike: the text
    determines the pence, for negative amounts too. *)
Theorem money_injective (a b : Z) : a <> b -> money a <> money b.
Proof.
  intros Hab H. apply Hab. rewrite !money_parts in H. injection H as H.
  apply split_at_dot in H as [Hq Hr]; try apply str_of_Z_no_dot.
  apply str_of_Z_inj in Hq.
  apply fmt_02d_inj in Hr; try (apply Z.mod_pos_bound; lia).
  rewrite (Z.div_mod a 100), (Z.div_mod b 100) by lia. lia.
Qed.

Lemma money_injective_witness :
  money 2250 = u "£22.50" /\ money 2205 = u "£22.05" /\ money 2250 <> money 2205.
Proof.
  split; [reflexivity | split; [reflexivity |]].
  apply (money_injective 2250 2205). lia.
Defined.

(** ** Thousands separators *)

Lemma without_commas_app (a b : pystr) :
  without_commas (a ++ b) = without_commas a ++ without_commas b.
Proof. apply filter_app. Qed.

Lemma group3_without_commas (n : nat) (l : pystr) :
  (length l <= n)%nat -> without_commas (group3 l) = without_commas l.
Proof.
  revert l. induction n as [|n IH]; intros l Hl.
  - destruct l; [reflexivity | simpl in Hl; lia].
  - destruct l as [|a [|b [|c [|d rest]]]]; try reflexivity.
    change (group3 (a :: b :: c :: d :: rest))
      with ([a; b; c] ++ [COMMA] ++ group3 (d :: rest)).
    change (a :: b :: c :: d :: rest) with ([a; b; c] ++ d :: rest).
    rewrite !without_commas_app. rewrite IH by (simpl in Hl |- *; lia).
    reflexivity.
Qed.

Lemma without_commas_id (s : pystr) :
  Forall (fun c => c <> COMMA) s -> without_commas s = s.
Proof.
  induction 1 as [|c s Hc _ IH]; [reflexivity |].
  unfold without_commas in *. cbn [filter].
  destruct (N.eqb_spec c COMMA); [contradiction |]. cbn [negb]. rewrite IH.
  reflexivity.
Qed.

Lemma str_of_Z_no_comma (n : Z) : Forall (fun c => c <> COMMA) (str_of_Z n).
Proof.
  eapply Forall_impl; [| apply str_of_Z_chars]. cbv beta.
  intros c [-> | Hc]; unfold COMMA; [discriminate | lia].
Qed.

Lemma fmt_comma_without_commas (n : Z) : without_commas (fmt_comma n) = str_of_Z n.
Proof.
  assert (Hpos : forall m, without_commas (rev (group3 (rev (str_of_Z m)))) =
                           str_of_Z m).
  { intros m. unfold without_commas. rewrite filter_rev.
    fold (without_commas (group3 (rev (str_of_Z m)))).
    rewrite (group3_without_commas _ _ (le_n _)).
    unfold without_commas. rewrite filter_rev, rev_involutive.
    apply without_commas_id, str_of_Z_no_comma. }
  unfold fmt_comma. destruct n as [|p|p]; cbn [Z.ltb Z.compare Z.abs].
  - apply Hpos.
  - apply Hpos.
  - rewrite without_commas_app, Hpos, str_of_Z_neg. reflexivity.
Qed.

(** X14.  The [money] of [wip.py] differs from the [money] of
    [hailmary.py] by its thousands separators only: with the commas taken
    out, the text is that of the plain format, for every amount. *)
Theorem wip_money_is_money_with_commas (pence : Z) :
  without_commas (Wip.money pence) = money pence.
Proof.
  unfold Wip.money, money. cbv zeta.
  rewrite !without_commas_app, fmt_comma_without_commas.
  rewrite (without_commas_id (fmt_02d (pence mod 100))).
  - reflexivity.
  - rewrite fmt_02d_digits by (apply Z.mod_pos_bound; lia).
    pose proof (Z.mod_pos_bound pence 100 ltac:(lia)) as Hb.
    assert (0 <= pence mod 100 / 10 < 10)
      by (split; [apply Z.div_pos | apply Z.div_lt_upper_bound]; lia).
    pose proof (Z.mod_pos_bound (pence mod 100) 10 ltac:(lia)).
    unfold COMMA. repeat constructor; lia.
Qed.

Example wip_money_million :
  Wip.money 123456789 = u "£1,234,567.89" /\ money 123456789 = u "£1234567.89".
Proof. split; vm_compute; reflexivity. Qed.

(* ================================================================== *)
(** * The layout of the reports *)
(* ================================================================== *)

Lemma ljust_length (w : nat) (s : pystr) : length (ljust w s) = Nat.max w (length s).
Proof. unfold ljust, replicate. rewrite length_app, repeat_length. lia. Qed.

Lemma rjust_length (w : nat) (s : pystr) : length (rjust w s) = Nat.max w (length s).
Proof. unfold rjust, replicate. rewrite length_app, repeat_length. lia. Qed.

Lemma ljust_full (w : nat) (s : pystr) : (w <= length s)%nat -> ljust w s = s.
Proof.
  intros H. unfold ljust, replicate.
  replace (w - length s)%nat with 0%nat by lia. apply app_nil_r.
Qed.

(** X15.  In a row of the report of [wip.py] the equipment column is
    always exactly 45 characters wide: a summary of up to 45 characters is
    padded, a longer one is cut to its first 42 characters followed by
    three dots. *)
Theorem wip_equipment_column (record : Hire.t pystr) :
  exists cell,
    Wip.row_lead record =
      ljust 4 (str_of_Z (Hire.customer_id record)) ++ u " | " ++
      ljust 20 (Hire.customer_name record) ++ u " | " ++
      cell ++ u " | " ++
      rjust 6 (str_of_Z (Hire.nights record)) ++ u " | " ++
      rjust 7 (Hire.returned_on_time record) ++ u " | " /\
    length cell = 45%nat /\
    ((length (Hire.items_summary record) <= 45)%nat ->
     cell = Hire.items_summary record ++
            replicate (45 - length (Hire.items_summary record)) SPACE) /\
    ((45 < length (Hire.items_summary record))%nat ->
     cell = firstn 42 (Hire.items_summary record) ++ u "...").
Proof.
  unfold Wip.row_lead. cbv zeta.
  destruct (len (Hire.items_summary record) >? 45) eqn:E; unfold len in E.
  - apply Z.gtb_lt in E.
    assert (Hcut : length (firstn 42 (Hire.items_summary record) ++ u "...") = 45%nat).
    { rewrite length_app, length_firstn. change (length (u "...")) with 3%nat. lia. }
    exists (firstn 42 (Hire.items_summary record) ++ u "...").
    split;
      [rewrite (ljust_full 45 (firstn 42 (Hire.items_summary record) ++ u "..."))
         by (rewrite Hcut; apply le_n); reflexivity |].
    split; [exact Hcut |]. split; [intros; lia | reflexivity].
  - assert (length (Hire.items_summary record) <= 45)%nat
      by (destruct (Z.gtb_spec (Z.of_nat (length (Hire.items_summary record))) 45);
          [discriminate | lia]).
    exists (ljust 45 (Hire.items_summary record)).
    split; [reflexivity |].
    split; [rewrite ljust_length; lia |]. split; [reflexivity | intros; lia].
Qed.

Lemma report_row_length (hire : Hire.t bool) :
  length (report_row hire) =
  (Nat.max 11 (length (str_of_Z (Hire.customer_id hire))) +
   Nat.max 65 (length (Hire.items_summary hire)) +
   Nat.max 16 (length (str_of_Z (Hire.nights hire))) +
   Nat.max 10 (length (str_of_Z (Hire.total_p hire / 100))) +
   Nat.max 22 1 +
   Nat.max 30 (length (str_of_Z (Hire.extra_delay_p hire / 100))) + 15)%nat.
Proof.
  unfold report_row. cbv zeta. rewrite !length_app, !ljust_length.
  change (length (u " | ")) with 3%nat.
  destruct (Hire.returned_on_time hire);
    [change (length (u "y")) with 1%nat | change (length (u "n")) with 1%nat]; lia.
Qed.

(** X16.  A row of the report of [hailmary.py] pads its six columns to the
    widths 11, 65, 16, 10, 22 and 30 and never cuts one: its length is the
    sum of the larger of each width and the length of the field, plus the
    five separators, and the whole equipment summary stands in it.  A row
    is thus at least 169 characters long, while the header and the rule
    are 168 characters long (their equipment column is 63 wide and their
    last column 31): no row has the length of the header. *)
Theorem report_row_layout (hire : Hire.t bool) :
  length (report_row hire) =
    (Nat.max 11 (length (str_of_Z (Hire.customer_id hire))) +
     Nat.max 65 (length (Hire.items_summary hire)) +
     Nat.max 16 (length (str_of_Z (Hire.nights hire))) +
     Nat.max 10 (length (str_of_Z (Hire.total_p hire / 100))) +
     22 +
     Nat.max 30 (length (str_of_Z (Hire.extra_delay_p hire / 100))) + 15)%nat /\
  (169 <= length (report_row hire))%nat /\
  length REPORT_HEADER = 168%nat /\
  length REPORT_RULE = 168%nat /\
  shows (Hire.items_summary hire) (report_row hire).
Proof.
  split; [rewrite report_row_length; reflexivity |].
  split; [rewrite report_row_length; lia |].
  split; [vm_compute; reflexivity |].
  split; [vm_compute; reflexivity |].
  unfold report_row. cbv zeta. unfold ljust at 2.
  rewrite <- (app_assoc (Hire.items_summary hire)).
  rewrite (app_assoc (ljust 11 _)).
  apply shows_middle.
Qed.

Lemma report_of_wiptask3 (st : Wiptask3.state) :
  wiptask3_amounts_fit (hire_records st) = true ->
  report_of Wiptask3.run_earnings_report st = wiptask3_report_lines (hire_records st).
Proof.
  intros Hfit. unfold report_of.
  rewrite wiptask3_run_earnings_report_prints by exact Hfit. apply printed_map.
Qed.

Lemma flat_map_length_const {A B} (f : A -> list B) (n : nat) (xs : list A) :
  (forall x, length (f x) = n) -> length (flat_map f xs) = (n * length xs)%nat.
Proof.
  intros Hf. induction xs as [|x xs IH]; simpl; [lia |].
  rewrite length_app, Hf, IH. lia.
Qed.

(** X17.  For a non-empty ledger whose amounts can be printed (the pounds
    of the total and of the late charge of each hire, and of their two
    sums, have at most 4300 digits) the report of [wiptask3.py] returns
    normally after printing a banner, five lines for each hire in ledger
    order (customer, items, total, delay, blank) and three closing lines:
    the grand total is the sum of the totals of all hires and the line
    after it the sum of their late charges, both as currency.  It reads
    nothing and leaves the state alone.  When one of these amounts is
    longer, the report ends with [ValueError]. *)
Theorem wiptask3_report_totals (w : world Wiptask3.state) :
  hire_records (session w) <> [] ->
  let ledger := hire_records (session w) in
  let lines :=
    [[NL] ++ u "=== Earnings Report ==="]
      ++ flat_map wiptask3_hire_lines ledger
      ++ [u "--- Totals ---";
          u "Grand total earnings: " ++ money (sum_of Hire.total_p ledger);
          u "Of which late-return charges: " ++
            money (sum_of Hire.extra_delay_p ledger)] in
  (wiptask3_amounts_fit ledger = true ->
   Wiptask3.run_earnings_report w = (Ok tt, emit lines w)) /\
  (wiptask3_amounts_fit ledger = false ->
   fst (Wiptask3.run_earnings_report w) = Raise ValueError_str_digits) /\
  length lines = (5 * length ledger + 4)%nat.
Proof.
  intros Hne. cbv zeta. split; [| split].
  - intros Hfit.
    rewrite wiptask3_run_earnings_report_prints by exact Hfit.
    unfold wiptask3_report_lines.
    destruct (hire_records (session w)); [contradiction | reflexivity].
  - apply wiptask3_run_earnings_report_raises. exact Hne.
  - rewrite !length_app.
    rewrite (flat_map_length_const wiptask3_hire_lines 5) by reflexivity.
    simpl. lia.
Qed.

Lemma wiptask3_report_totals_witness :
  hire_records draft_sample_state <> [] /\
  wiptask3_amounts_fit (hire_records draft_sample_state) = true /\
  printed (stdout (snd (Wiptask3.run_earnings_report (quiet draft_sample_state)))) =
  [[NL] ++ u "=== Earnings Report ===";
   u "Customer 101 – Jane Smith";
   u "  Items:  Day chairs – 1";
   u "  Total:  £22.50";
   u "  Delay:  £7.50";
   [];
   u "--- Totals ---";
   u "Grand total earnings: £22.50";
   u "Of which late-return charges: £7.50"].
Proof.
  assert (Hne : hire_records (session (quiet draft_sample_state)) <> [])
    by (vm_compute; discriminate).
  assert (Hfit : wiptask3_amounts_fit
                   (hire_records (session (quiet draft_sample_state))) = true)
    by (vm_compute; reflexivity).
  split; [exact Hne | split; [exact Hfit |]].
  rewrite (proj1 (wiptask3_report_totals (quiet draft_sample_state) Hne) Hfit).
  vm_compute. reflexivity.
Defined.

(* ================================================================== *)
(** * The drafts next to [hailmary.py] *)
(* ================================================================== *)

(** ** [parse_csv_2_fields] *)

Lemma csv_scan_plain py (s : pystr) :
  ~ In QUOTE s ->
  forall buf fields,
    csv_scan py false buf fields s =
    fields ++ map (str_strip py) (split_comma_aux (rev buf) s).
Proof.
  induction s as [|ch rest IH]; intros Hq buf fields.
  - cbn [csv_scan split_comma_aux map]. rewrite rev_involutive. reflexivity.
  - assert (Hch : ch <> QUOTE) by (intros ->; apply Hq; left; reflexivity).
    assert (Hrest : ~ In QUOTE rest) by (intros H; apply Hq; right; exact H).
    cbn [csv_scan split_comma_aux].
    destruct (N.eqb_spec ch QUOTE); [contradiction |].
    destruct (ch =? COMMA)%N; cbn [andb negb].
    + rewrite (IH Hrest). cbn [map rev]. rewrite rev_involutive, <- app_assoc.
      reflexivity.
    + rewrite (IH Hrest). rewrite rev_app_distr. reflexivity.
Qed.

Lemma csv_scan_quoted py (a rest : pystr) :
  ~ In QUOTE a ->
  (forall rest', rest <> QUOTE :: rest') ->
  forall buf fields,
    csv_scan py true buf fields (a ++ QUOTE :: rest) =
    csv_scan py false (buf ++ a) fields rest.
Proof.
  intros Ha Hrest. induction a as [|ch a IH]; intros buf fields.
  - cbn [app csv_scan]. rewrite N.eqb_refl, app_nil_r.
    destruct rest as [|ch' rest']; [reflexivity |].
    destruct (N.eqb_spec ch' QUOTE) as [-> | _]; [destruct (Hrest rest' eq_refl) |].
    reflexivity.
  - assert (Hch : ch <> QUOTE) by (intros ->; apply Ha; left; reflexivity).
    cbn [app csv_scan]. destruct (N.eqb_spec ch QUOTE); [contradiction |].
    cbn [negb]. rewrite andb_false_r.
    rewrite IH by (intros H; apply Ha; right; exact H).
    rewrite <- app_assoc. reflexivity.
Qed.

Lemma split_comma_aux_plain (field s : pystr) :
  ~ In COMMA s -> split_comma_aux field s = [rev field ++ s].
Proof.
  revert field. induction s as [|c s IH]; intros field Hc.
  - cbn. rewrite app_nil_r. reflexivity.
  - cbn [split_comma_aux].
    destruct (N.eqb_spec c COMMA) as [-> | _]; [exfalso; apply Hc; left; reflexivity |].
    rewrite IH by (intros H; apply Hc; right; exact H).
    cbn [rev]. rewrite <- app_assoc. reflexivity.
Qed.

(** X18.  On a line without a quote character [parse_csv_2_fields] of
    [wip.py] does what the [split(",")] of the other drafts does: it
    returns the two trimmed fields when the trimmed line has exactly one
    comma, and [None] for a blank line or any other number of commas. *)
Theorem parse_csv_2_fields_plain (py : builtins) (line : pystr) :
  ~ In QUOTE (str_strip py line) ->
  parse_csv_2_fields py line =
    (if is_empty (str_strip py line) then None
     else match map (str_strip py) (split_comma (str_strip py line)) with
          | [a; b] => Some (a, b)
          | _ => None
          end) /\
  (parse_csv_2_fields py line <> None ->
   count_occ N.eq_dec (str_strip py line) COMMA = 1%nat).
Proof.
  intros Hq.
  assert (E : parse_csv_2_fields py line =
              (if is_empty (str_strip py line) then None
               else match map (str_strip py) (split_comma (str_strip py line)) with
                    | [a; b] => Some (a, b)
                    | _ => None
                    end)).
  { unfold parse_csv_2_fields. cbv zeta.
    destruct (is_empty (str_strip py line)); [reflexivity |].
    rewrite (csv_scan_plain py _ Hq). reflexivity. }
  split; [exact E |].
  rewrite E. destruct (is_empty (str_strip py line)); [congruence |].
  pose proof (split_comma_length (str_strip py line)) as Hlen.
  rewrite <- (length_map (str_strip py)) in Hlen.
  destruct (map (str_strip py) (split_comma (str_strip py line)))
    as [|a [|b [|? ?]]]; try congruence.
  intros _. simpl in Hlen. lia.
Qed.

Lemma parse_csv_2_fields_plain_witness :
  parse_csv_2_fields ascii_builtins (u "  dch , 2 ") = Some (u "dch", u "2") /\
  parse_csv_2_fields ascii_builtins (u "dch") = None /\
  parse_csv_2_fields ascii_builtins (u "a,b,c") = None.
Proof.
  assert (Hq : ~ In QUOTE (str_strip ascii_builtins (u "  dch , 2 ")))
    by (vm_compute; intuition discriminate).
  split; [| split; vm_compute; reflexivity].
  rewrite (proj1 (parse_csv_2_fields_plain ascii_builtins (u "  dch , 2 ") Hq)).
  vm_compute. reflexivity.
Defined.

(** X19.  A first field written between quotes may hold commas:
    when the trimmed line is a quote, a text without quotes, a quote, a
    comma and a text without quotes or commas, [parse_csv_2_fields] returns
    the two texts, trimmed, with the commas of the first kept. *)
Theorem parse_csv_2_fields_quoted (py : builtins) (line a b : pystr) :
  str_strip py line = QUOTE :: a ++ QUOTE :: COMMA :: b ->
  ~ In QUOTE a -> ~ In QUOTE b -> ~ In COMMA b ->
  parse_csv_2_fields py line = Some (str_strip py a, str_strip py b).
Proof.
  intros Hline Ha Hb Hc. unfold parse_csv_2_fields. cbv zeta. rewrite Hline.
  cbn [is_empty].
  assert (Hopen : csv_scan py false [] [] (QUOTE :: a ++ QUOTE :: COMMA :: b) =
                  csv_scan py true [] [] (a ++ QUOTE :: COMMA :: b)).
  { cbn [csv_scan]. rewrite N.eqb_refl. cbn [andb negb].
    destruct (a ++ QUOTE :: COMMA :: b); reflexivity. }
  rewrite Hopen, (csv_scan_quoted py a (COMMA :: b) Ha) by (intros ? [=]).
  cbn [app csv_scan]. cbn [N.eqb Pos.eqb QUOTE COMMA andb negb].
  rewrite (csv_scan_plain py b Hb), (split_comma_aux_plain _ b Hc).
  reflexivity.
Qed.

Lemma parse_csv_2_fields_quoted_witness :
  parse_csv_2_fields ascii_builtins
                     ([QUOTE] ++ u "Rods, 3lb" ++ [QUOTE] ++ u ", 2") =
  Some (u "Rods, 3lb", u "2").
Proof.
  apply (parse_csv_2_fields_quoted ascii_builtins
           ([QUOTE] ++ u "Rods, 3lb" ++ [QUOTE] ++ u ", 2") (u "Rods, 3lb") (u " 2"));
    [vm_compute; reflexivity | | | ]; vm_compute; intuition discriminate.
Defined.

(** ** The readers of [wiptask3.py] *)

Section DraftReaders.
Context {St : Type}.

Lemma iter_map {L A B} (f : A -> B) (body : L -> M St (step L A))
      (body' : L -> M St (step L B)) :
  (forall l w,
      body' l w =
      (map_result (fun r => match r with
                            | Continue l' => Continue l'
                            | Return a => Return (f a)
                            end) (fst (body l w)), snd (body l w))) ->
  forall fuel l w,
    iter fuel body' l w =
    (map_result f (fst (iter fuel body l w)), snd (iter fuel body l w)).
Proof.
  intros Hb. induction fuel as [|fuel IH]; intros l w; [reflexivity |].
  simpl. unfold bind. rewrite Hb.
  destruct (body l w) as [[[l' | a] | e |] w1]; cbn [fst snd map_result];
    try reflexivity.
  apply IH.
Qed.

Lemma yes_no_cases py (line : pystr) :
  let s := str_lower py (str_strip py line) in
  str_in s [u "y"; u "n"; u "yes"; u "no"] =
    (str_in s [u "y"; u "yes"] || str_in s [u "n"; u "no"]) /\
  (str_in s [u "y"; u "yes"] = true -> starts_with (u "y") s = true) /\
  (str_in s [u "y"; u "yes"] = false -> str_in s [u "n"; u "no"] = true ->
   starts_with (u "y") s = false).
Proof.
  cbv zeta. set (s := str_lower py (str_strip py line)).
  split; [| split].
  - unfold str_in. cbn [existsb].
    destruct (pystr_eqb s (u "y")), (pystr_eqb s (u "n")),
      (pystr_eqb s (u "yes")), (pystr_eqb s (u "no")); reflexivity.
  - intros H. apply str_in_In in H. cbn [In] in H.
    destruct H as [<- | [<- | []]]; vm_compute; reflexivity.
  - intros _ H. apply str_in_In in H. cbn [In] in H.
    destruct H as [<- | [<- | []]]; vm_compute; reflexivity.
Qed.

(** X20.  [read_yes_no] of [wiptask3.py] and [wip.py] behaves as the one
    of [hailmary.py] on every input: it reads the same lines, prints the
    same reminders and ends the same way, returning ["y"] where the other
    returns [True] and ["n"] where it returns [False]; it returns nothing
    else. *)
Theorem draft_read_yes_no_agrees (py : builtins) (prompt : pystr) (w : world St) :
  Drafts.read_yes_no py prompt w =
  (map_result yn (fst (read_yes_no py prompt w)), snd (read_yes_no py prompt w)).
Proof.
  unfold Drafts.read_yes_no, read_yes_no, while_true. apply iter_map.
  intros [] w0. unfold bind.
  destruct (input prompt w0) as [[s | e |] w1]; try reflexivity.
  destruct (yes_no_cases py s) as (Hall & Hy & Hn). cbv zeta in Hall, Hy, Hn.
  rewrite Hall.
  destruct (str_in (str_lower py (str_strip py s)) [u "y"; u "yes"]) eqn:Ey.
  - cbn [orb]. rewrite (Hy eq_refl). reflexivity.
  - cbn [orb].
    destruct (str_in (str_lower py (str_strip py s)) [u "n"; u "no"]) eqn:En.
    + rewrite (Hn eq_refl eq_refl). reflexivity.
    + reflexivity.
Qed.
End DraftReaders.

Lemma ascii_strip_idempotent : strip_idempotent ascii_builtins.
Proof.
  assert (Hl : forall s, lstrip (lstrip s) = lstrip s).
  { induction s as [|c s IH]; [reflexivity |]. cbn [lstrip].
    destruct (ascii_isspace c) eqn:E; [exact IH |]. cbn [lstrip]. rewrite E.
    reflexivity. }
  assert (Hhead : forall s, match lstrip s with
                            | [] => True
                            | c :: _ => ascii_isspace c = false
                            end).
  { induction s as [|c s IH]; [exact I |]. cbn [lstrip].
    destruct (ascii_isspace c) eqn:E; [exact IH | exact E]. }
  assert (Hkeep : forall s, match s with
                            | [] => True
                            | c :: _ => ascii_isspace c = false
                            end -> lstrip s = s).
  { intros [|c s] H; [reflexivity |]. cbn [lstrip]. rewrite H. reflexivity. }
  assert (Hlast : forall s, match s with
                            | [] => True
                            | c :: _ => ascii_isspace c = false
                            end ->
                            match rev (lstrip (rev s)) with
                            | [] => True
                            | c :: _ => ascii_isspace c = false
                            end).
  { intros s Hs. destruct s as [|c s]; [exact I |].
    assert (Hr : exists t, lstrip (rev (c :: s)) = t ++ [c]).
    { cbn [rev]. generalize (rev s) as r. induction r as [|d r IH].
      - cbn [app lstrip]. rewrite Hs. exists []. reflexivity.
      - cbn [app lstrip]. destruct (ascii_isspace d); [exact IH |].
        exists (d :: r). reflexivity. }
    destruct Hr as [t Ht]. rewrite Ht, rev_app_distr. exact Hs. }
  intros s. cbn [str_strip ascii_builtins]. unfold ascii_strip.
  rewrite (Hkeep (rev (lstrip (rev (lstrip s))))) by (apply Hlast, Hhead).
  rewrite rev_involutive, Hl. reflexivity.
Qed.

Section DraftHeader.
Context {St : Type}.

(** X21.  [read_customer_header] of [wiptask3.py] (and of [wip.py])
    accepts exactly the headers that [_parse_customer_header] of
    [hailmary.py] accepts for the trimmed line, and turns the others down
    with the same message; but it asks once only, returning [None] after
    the message, and just a blank line cancels: the word [cancel] is
    turned down as a line without five fields.  ([str.strip] applied twice
    is taken to change nothing more, as the draft trims the name twice.) *)
Theorem draft_read_customer_header_agrees (py : builtins) (line : pystr)
        (rest : list pystr) (w : world St) :
  strip_idempotent py ->
  stdin w = line :: rest ->
  let asked :=
    {| session := session w; stdin := rest;
       stdout := stdout w ++
                 [Printed ([NL] ++ u "Enter customer (comma separated):");
                  Printed (u "  name, phone, house_no, postcode, card_last4");
                  Printed (u "  Example:  Jane Smith, 07900111222, 12, LE1 2AB, 1234");
                  Prompted (u "> ")] |} in
  Drafts.read_customer_header py w =
  if is_empty (str_strip py line) then (Ok None, emit [u "Cancelled."] asked)
  else match _parse_customer_header py (str_strip py line) with
       | Parsed header => (Ok (Some header), asked)
       | ValueError msg => (Ok None, emit [msg] asked)
       end.
Proof.
  intros Hstrip Hw. cbv zeta.
  unfold Drafts.read_customer_header. rewrite !bind_print.
  unfold bind at 1. unfold input. cbn [emit stdin session stdout]. rewrite Hw.
  cbv zeta.
  set (asked := {| session := session w; stdin := rest; stdout := _ |}).
  assert (Hasked : asked =
                   {| session := session w; stdin := rest;
                      stdout := stdout w ++
                        [Printed ([NL] ++ u "Enter customer (comma separated):");
                         Printed (u "  name, phone, house_no, postcode, card_last4");
                         Printed (u "  Example:  Jane Smith, 07900111222, 12, LE1 2AB, 1234");
                         Prompted (u "> ")] |}).
  { unfold asked. cbn [map]. rewrite <- !app_assoc. reflexivity. }
  rewrite <- Hasked. clearbody asked.
  destruct (is_empty (str_strip py line)); [reflexivity |].
  unfold _parse_customer_header.
  assert (Hparts : Forall (fun p => str_strip py p = p)
                          (map (str_strip py) (split_comma (str_strip py line)))).
  { apply Forall_map, Forall_forall. intros p _. apply Hstrip. }
  destruct (map (str_strip py) (split_comma (str_strip py line)))
    as [|name [|phone [|house [|postcode [|card [|? ?]]]]]]; try reflexivity.
  inversion Hparts as [|? ? Hname _]; subst. rewrite Hname.
  destruct (is_empty name); [reflexivity |].
  destruct (len (filter (ch_isdigit py) phone) <? 7); [reflexivity |].
  destruct (negb (len (filter (ch_isdigit py) card) =? 4)); reflexivity.
Qed.
End DraftHeader.

Lemma draft_read_customer_header_agrees_witness :
  fst (Drafts.read_customer_header ascii_builtins
         {| session := tt; stdin := [u "cancel"]; stdout := [] |}) = Ok None /\
  last (stdout (snd (Drafts.read_customer_header ascii_builtins
                       {| session := tt; stdin := [u "cancel"]; stdout := [] |})))
       (Prompted []) =
    Printed (u "Expected 5 fields separated by commas.").
Proof.
  rewrite (draft_read_customer_header_agrees ascii_builtins (u "cancel") []
             {| session := tt; stdin := [u "cancel"]; stdout := [] |}
             ascii_strip_idempotent eq_refl).
  split; vm_compute; reflexivity.
Defined.

(* ================================================================== *)
(** * The texts of the ledger *)
(* ================================================================== *)

Lemma extends_with_refl P st : extends_with P st st.
Proof. exists []. split; [rewrite app_nil_r; reflexivity | constructor]. Qed.

Lemma extends_with_trans P a b c :
  extends_with P a b -> extends_with P b c -> extends_with P a c.
Proof.
  intros [n1 [R1 O1]] [n2 [R2 O2]]. exists (n1 ++ n2).
  split; [rewrite R2, R1, app_assoc; reflexivity | apply Forall_app; auto].
Qed.

Lemma post_read_customer_header {St} py :
  post (St := St)
       (fun r => match r with
                 | Some h => Header.customer_name h <> []
                 | None => True
                 end) (read_customer_header py).
Proof.
  unfold read_customer_header.
  do 2 (eapply post_bind; [apply post_any | intros _ _]).
  apply (post_while_true (fun _ => True)); [| exact I].
  intros [] _. eapply post_bind; [apply post_any | intros raw _].
  destruct (str_in (str_lower py (str_strip py raw)) [[]; u "cancel"]).
  - eapply post_bind; [apply post_any | intros _ _; apply post_ret; exact I].
  - destruct (_parse_customer_header py (str_strip py raw)) as [msg | h] eqn:E.
    + eapply post_bind; [apply post_any | intros _ _; apply post_ret; exact I].
    + apply post_ret. apply (parse_customer_header_Parsed py _ _ E).
Qed.

Lemma steps_hire_round_text py l :
  steps (extends_with hire_text_ok) (hire_round py l).
Proof.
  intros w. unfold hire_round.
  pose proof (extends_with_refl hire_text_ok (session w)) as Hrefl.
  run_bind; use_frame (frame_read_customer_header py w) E;
    [| cbn [snd]; rewrite Hf; exact Hrefl | cbn [snd]; rewrite Hf; exact Hrefl].
  pose proof (post_read_customer_header py w a) as Hname.
  rewrite E in Hname. specialize (Hname eq_refl).
  destruct a as [header|]; [| frame_tail; rewrite Hf; exact Hrefl].
  run_bind; use_frame (frame_read_positive_int py (u "Number of nights: ") 1 w0) E0;
    [| cbn [snd]; rewrite Hf0, Hf; exact Hrefl
     | cbn [snd]; rewrite Hf0, Hf; exact Hrefl].
  run_bind; use_frame (frame_read_yes_no py (u "Returned on time (y/n)? ") w1) E1;
    [| cbn [snd]; rewrite Hf1, Hf0, Hf; exact Hrefl
     | cbn [snd]; rewrite Hf1, Hf0, Hf; exact Hrefl].
  run_bind; use_frame (frame_read_item_lines py a a0 w2) E2;
    [| cbn [snd]; rewrite Hf2, Hf1, Hf0, Hf; exact Hrefl
     | cbn [snd]; rewrite Hf2, Hf1, Hf0, Hf; exact Hrefl].
  rewrite (bind_Ok get_state _ w3 (session w3) w3 eq_refl).
  cbv zeta.
  rewrite (bind_Ok (modify_state _) _ _ tt _ eq_refl).
  rewrite (bind_Ok (modify_state _) _ _ tt _ eq_refl).
  frame_tail. cbn [session].
  rewrite Hf2, Hf1, Hf0, Hf.
  exists [new_hire (session w) header a a0 a1].
  split; [reflexivity |].
  constructor; [| constructor]. split; [exact Hname | reflexivity].
Qed.

Lemma steps_run_hire_flow_text py :
  steps (extends_with hire_text_ok) (run_hire_flow py).
Proof.
  unfold run_hire_flow.
  apply steps_while_true;
    [apply extends_with_refl | apply extends_with_trans | apply steps_hire_round_text].
Qed.

Lemma steps_menu_round_text py l :
  steps (extends_with hire_text_ok) (menu_round py l).
Proof.
  unfold menu_round.
  pose proof (extends_with_refl hire_text_ok) as Hr.
  pose proof (extends_with_trans hire_text_ok) as Ht.
  apply steps_bind; [exact Ht | apply steps_frame; [exact Hr | frame_tac] |].
  intros _. apply steps_bind; [exact Ht | apply steps_frame; [exact Hr | frame_tac] |].
  intros [choice|]; [| apply steps_frame; [exact Hr | frame_tac]].
  destruct (choice =? 1).
  { apply steps_bind; [exact Ht | apply steps_run_hire_flow_text |].
    intros _. apply steps_frame; [exact Hr | frame_tac]. }
  apply steps_frame; [exact Hr | frame_tac].
Qed.

(** ** The item lines in the order they were typed *)

Lemma item_loop_entered {St : Type} py nights flag (raws : list pystr) :
  forall (lines : list Line.t) (last_line : pystr) (rest : list pystr) (w : world St),
    stdin w = raws ++ last_line :: rest ->
    Forall (fun raw => ~ blank py raw) raws -> blank py last_line ->
    lines ++ entered_lines py nights flag raws <> [] ->
    exists w',
      while_true (fun lines : list Line.t =>
        raw <- input (u "> ") ;;
        let raw := str_strip py raw in
        if pystr_eqb raw [] then
          if is_empty lines then
            print (u "You must enter at least one item.") ;;
            ret (Continue lines)
          else ret (Return lines)
        else
          match _parse_item_line py raw with
          | ValueError err =>
            print err ;;
            ret (Continue lines)
          | Parsed (code, qty) =>
            match find_item py code with
            | None => raise TypeError
            | Some item =>
              ret (Continue
                     (lines ++ [priced_line item code qty nights flag]))
            end
          end) lines w =
      (Ok (lines ++ entered_lines py nights flag raws), w') /\
      stdin w' = rest /\ session w' = session w.
Proof.
  induction raws as [|raw raws IH]; intros lines last_line rest w Hw Hraws Hlast Hne;
    (rewrite while_true_unfold;
     [| intros l; cbv beta zeta; tame_tac
      | intros l; cbv beta zeta; apply eats_bind_l;
        [apply eats_input | intros; cbv beta zeta; tame_tac]]);
    cbv beta; unfold bind at 1.
  - assert (Ein : input (u "> ") w =
                  (Ok last_line, {| session := session w; stdin := rest;
                                    stdout := stdout w ++ [Prompted (u "> ")] |}))
      by (unfold input; rewrite Hw; reflexivity).
    rewrite (bind_Ok _ _ _ _ _ Ein). cbv zeta.
    unfold blank in Hlast. rewrite Hlast. cbn [pystr_eqb].
    unfold entered_lines in *. cbn [flat_map] in *. rewrite app_nil_r in *.
    destruct lines as [|ln lines]; [contradiction |]. cbn [is_empty].
    eexists. split; [reflexivity | split; reflexivity].
  - assert (Ein : input (u "> ") w =
                  (Ok raw, {| session := session w;
                              stdin := raws ++ last_line :: rest;
                              stdout := stdout w ++ [Prompted (u "> ")] |}))
      by (unfold input; rewrite Hw; reflexivity).
    rewrite (bind_Ok _ _ _ _ _ Ein). cbv zeta.
    inversion Hraws as [|? ? Hraw Hraws']; subst.
    destruct (pystr_eqb (str_strip py raw) []) eqn:Eb;
      [apply pystr_eqb_eq in Eb; contradiction |].
    unfold entered_lines in *. cbn [flat_map] in *.
    unfold entered_line at 1 in Hne. unfold entered_line at 1.
    destruct (_parse_item_line py (str_strip py raw)) as [err | [code qty]] eqn:Ep.
    + rewrite bind_print. unfold ret at 1. cbv iota beta. cbn [app] in *.
      match goal with
      | |- context [while_true ?body lines ?w'] =>
        destruct (IH lines last_line rest w' eq_refl Hraws' Hlast Hne)
          as (w'' & H1 & H2 & H3)
      end.
      exists w''. split; [exact H1 | split; [exact H2 | exact H3]].
    + destruct (parse_item_line_Parsed py _ _ _ Ep) as [_ [item Hfind]].
      rewrite Hfind in *. unfold ret at 1. cbv iota beta.
      rewrite app_assoc in Hne |- *.
      match goal with
      | |- context [while_true ?body ?lines' ?w'] =>
        destruct (IH lines' last_line rest w' eq_refl Hraws' Hlast Hne)
          as (w'' & H1 & H2 & H3)
      end.
      exists w''. split; [exact H1 | split; [exact H2 | exact H3]].
Qed.

Lemma read_item_lines_entered {St : Type} py nights flag raws last_line rest
      (w : world St) :
  stdin w = raws ++ last_line :: rest ->
  Forall (fun raw => ~ blank py raw) raws -> blank py last_line ->
  entered_lines py nights flag raws <> [] ->
  exists w',
    read_item_lines py nights flag w = (Ok (entered_lines py nights flag raws), w') /\
    stdin w' = rest /\ session w' = session w.
Proof.
  intros Hw Hraws Hlast Hne. unfold read_item_lines. rewrite !bind_print.
  match goal with
  | |- context [while_true ?body [] ?w0] =>
    destruct (item_loop_entered py nights flag raws [] last_line rest w0
                                Hw Hraws Hlast Hne) as (w' & H1 & H2 & H3)
  end.
  exists w'. split; [exact H1 | split; [exact H2 | exact H3]].
Qed.

Lemma ledger_hire_texts py typed :
  Forall hire_text_ok (hire_records (session (snd (run py typed)))).
Proof.
  assert (H : extends_with hire_text_ok AppState_init
                           (session (snd (run py typed)))).
  { unfold run, main.
    rewrite (bind_Ok (modify_state _) _ _ tt _ eq_refl).
    match goal with
    | |- extends_with _ _ (session (snd (?m ?w))) =>
      change (extends_with hire_text_ok (session w) (session (snd (m w))))
    end.
    apply steps_while_true;
      [apply extends_with_refl | apply extends_with_trans
       | apply steps_menu_round_text]. }
  destruct H as [news [R O]]. rewrite R. exact O.
Qed.

(** X22.  In the ledger at the end of any run no hire has an empty
    customer name, and the equipment summary of every hire is the list of
    its own lines, each as name, dash and quantity, joined by commas.  The
    lines of a hire are the item lines in the order they were entered: a
    round of the hire loop that has read a header, the nights and the flag
    and is then given the lines [raws] followed by a blank line (at least
    one of [raws] being accepted) saves one hire whose [lines] are the
    accepted lines of [raws] in typed order and whose summary lists them in
    that order, under the name of the header. *)
Theorem ledger_texts (py : builtins) (typed : list pystr) (w : world state)
        (header : Header.t) (w1 : world state) (nights : Z) (w2 : world state)
        (returned_on_time : bool) (w3 : world state)
        (raws : list pystr) (last_line : pystr) (rest : list pystr) :
  read_customer_header py w = (Ok (Some header), w1) ->
  read_positive_int py (u "Number of nights: ") 1 w1 = (Ok nights, w2) ->
  read_yes_no py (u "Returned on time (y/n)? ") w2 = (Ok returned_on_time, w3) ->
  stdin w3 = raws ++ last_line :: rest ->
  Forall (fun raw => ~ blank py raw) raws -> blank py last_line ->
  entered_lines py nights returned_on_time raws <> [] ->
  Forall hire_text_ok (hire_records (session (snd (run py typed)))) /\
  exists h,
    hire_records (session (snd (hire_round py tt w))) =
      hire_records (session w) ++ [h] /\
    Hire.customer_name h = Header.customer_name header /\
    Hire.lines h = entered_lines py nights returned_on_time raws /\
    Hire.items_summary h =
      join (u ", ")
           (map (fun ln => Line.name ln ++ u " – " ++ str_of_Z (Line.qty ln))
                (entered_lines py nights returned_on_time raws)).
Proof.
  intros E1 E2 E3 Hin Hraws Hlast Hne.
  split; [apply ledger_hire_texts |].
  destruct (read_item_lines_entered py nights returned_on_time raws last_line rest
                                    w3 Hin Hraws Hlast Hne) as (w4 & E4 & _ & _).
  rewrite (hire_round_saves py w header w1 nights w2 returned_on_time w3 _ w4
                            E1 E2 E3 E4).
  eexists. split; [reflexivity |].
  split; [reflexivity | split; reflexivity].
Qed.

Lemma ledger_texts_witness :
  let w := fresh (map u ["Jane Smith, 07900111222, 12, LE1 2AB, 1234"; "2"; "n";
                         "stv, 2"; "oops"; " dch ,1"; " "; "n"]%string) in
  exists h,
    hire_records (session (snd (hire_round ascii_builtins tt w))) = [h] /\
    map Line.code (Hire.lines h) = [u "STV"; u "DCH"] /\
    Hire.items_summary h =
      u "Camping Gas stove (Double burner) – 2, Day chairs – 1".
Proof.
  intros w.
  set (header := {| Header.customer_name := u "Jane Smith";
                    Header.phone := u "07900111222";
                    Header.house_no := u "12";
                    Header.postcode := u "LE1 2AB";
                    Header.card_last4 := u "1234" |}).
  set (w1 := snd (read_customer_header ascii_builtins w)).
  set (w2 := snd (read_positive_int ascii_builtins (u "Number of nights: ") 1 w1)).
  set (w3 := snd (read_yes_no ascii_builtins (u "Returned on time (y/n)? ") w2)).
  set (raws := map u ["stv, 2"; "oops"; " dch ,1"]%string).
  assert (E1 : read_customer_header ascii_builtins w = (Ok (Some header), w1))
    by (vm_compute; reflexivity).
  assert (E2 : read_positive_int ascii_builtins (u "Number of nights: ") 1 w1 =
               (Ok 2, w2)) by (vm_compute; reflexivity).
  assert (E3 : read_yes_no ascii_builtins (u "Returned on time (y/n)? ") w2 =
               (Ok false, w3)) by (vm_compute; reflexivity).
  assert (Hin : stdin w3 = raws ++ u " " :: [u "n"]) by (vm_compute; reflexivity).
  assert (Hraws : Forall (fun raw => ~ blank ascii_builtins raw) raws)
    by (repeat constructor; vm_compute; discriminate).
  assert (Hlast : blank ascii_builtins (u " ")) by (vm_compute; reflexivity).
  assert (Hne : entered_lines ascii_builtins 2 false raws <> [])
    by (vm_compute; discriminate).
  destruct (ledger_texts ascii_builtins [] w header w1 2 w2 false w3 raws (u " ")
                         [u "n"] E1 E2 E3 Hin Hraws Hlast Hne)
    as [_ (h & Hrec & _ & Hlines & Hsum)].
  exists h. split; [exact Hrec | split].
  - rewrite Hlines. vm_compute. reflexivity.
  - rewrite Hsum. vm_compute. reflexivity.
Defined.

(** ** Codes as the catalogue writes them *)

Lemma post_read_item_lines_codes {St} py nights flag :
  upper_idempotent py ->
  post (St := St)
       (Forall (fun ln => exists item, In item CATALOG /\
                                       Line.code ln = Item.code item /\
                                       Line.name ln = Item.name item /\
                                       Line.daily_p ln = Item.daily_p item))
       (read_item_lines py nights flag).
Proof.
  intros Hup. unfold read_item_lines.
  do 3 (eapply post_bind; [apply post_any | intros _ _]).
  set (Inv := Forall (fun ln => exists item, In item CATALOG /\
                                             Line.code ln = Item.code item /\
                                             Line.name ln = Item.name item /\
                                             Line.daily_p ln = Item.daily_p item)).
  apply (post_while_true Inv); [| constructor].
  intros lines Hlines. eapply post_bind; [apply post_any | intros raw _].
  destruct (pystr_eqb (str_strip py raw) []).
  - destruct lines as [|ln lines]; simpl.
    + eapply post_bind; [apply post_any | intros _ _; apply post_ret; exact Hlines].
    + apply post_ret. exact Hlines.
  - destruct (_parse_item_line py (str_strip py raw)) as [err | [code qty]] eqn:E.
    + eapply post_bind; [apply post_any | intros _ _; apply post_ret; exact Hlines].
    + apply parse_item_line_fields in E
        as (_ & _ & (code_s & qty_s & _ & Hcode & _) & item & Hfind & Hin).
      rewrite Hfind. apply post_ret.
      apply Forall_app. split; [exact Hlines |].
      constructor; [| constructor]. exists item.
      split; [exact Hin |]. split; [| split].
      * unfold priced_line.
        destruct (calc_line_costs (Item.daily_p item) qty nights flag) as [[? ?] ?].
        cbn [Line.code].
        rewrite find_item_lookup in Hfind. apply lookup_Some in Hfind as [_ Hk].
        rewrite Hk, Hcode. symmetry. apply Hup.
      * unfold priced_line.
        destruct (calc_line_costs (Item.daily_p item) qty nights flag) as [[? ?] ?].
        reflexivity.
      * unfold priced_line.
        destruct (calc_line_costs (Item.daily_p item) qty nights flag) as [[? ?] ?].
        reflexivity.
Qed.

Lemma ascii_upper_idempotent : upper_idempotent ascii_builtins.
Proof.
  intros s. cbn [str_upper ascii_builtins]. rewrite map_map. apply map_ext.
  intros c. unfold ascii_upper_char.
  destruct ((97 <=? c) && (c <=? 122))%N eqn:E.
  - apply andb_true_iff in E as [E1 E2].
    apply N.leb_le in E1. apply N.leb_le in E2.
    destruct ((97 <=? c - 32) && (c - 32 <=? 122))%N eqn:E'; [| reflexivity].
    apply andb_true_iff in E' as [E3 _]. apply N.leb_le in E3. lia.
  - rewrite E. reflexivity.
Qed.

(** X23.  When [str.upper] applied twice changes nothing more, every line
    that [read_item_lines] returns carries a code exactly as the catalogue
    writes it, with the name and the nightly price of that entry, however
    the code was typed. *)
Theorem read_item_lines_codes {St : Type} (py : builtins) (nights : Z)
        (returned_on_time : bool) (w : world St) (lines : list Line.t) :
  upper_idempotent py ->
  fst (read_item_lines py nights returned_on_time w) = Ok lines ->
  Forall (fun ln => exists item, In item CATALOG /\
                                 Line.code ln = Item.code item /\
                                 Line.name ln = Item.name item /\
                                 Line.daily_p ln = Item.daily_p item) lines.
Proof.
  intros Hup E. exact (post_read_item_lines_codes py nights returned_on_time Hup w lines E).
Qed.

Lemma read_item_lines_codes_witness :
  map Line.code
      (match fst (read_item_lines ascii_builtins 2 true
                    {| session := tt; stdin := [u "bch, 1"; u " Stv ,2"; []];
                       stdout := [] |}) with
       | Ok lines => lines
       | _ => []
       end) = [u "BCH"; u "STV"] /\
  Forall (fun ln => exists item, In item CATALOG /\
                                 Line.code ln = Item.code item /\
                                 Line.name ln = Item.name item /\
                                 Line.daily_p ln = Item.daily_p item)
         [priced_line {| Item.code := u "BCH"; Item.name := u "Bed chairs";
                         Item.daily_p := 2500 |} (u "BCH") 1 2 true;
          priced_line {| Item.code := u "STV";
                         Item.name := u "Camping Gas stove (Double burner)";
                         Item.daily_p := 1000 |} (u "STV") 2 2 true].
Proof.
  split; [vm_compute; reflexivity |].
  apply (read_item_lines_codes ascii_builtins 2 true
           {| session := tt; stdin := [u "bch, 1"; u " Stv ,2"; []]; stdout := [] |}
           _ ascii_upper_idempotent).
  vm_compute. reflexivity.
Defined.
